(** * Caramel-Music: catalog synchronisation and media inspection

    A shallow embedding of the two server programs of the repository,
    [front-end/vite.config.js] (module [FrontEnd]) and
    [back-end/server.js] (module [BackEnd]), with the properties of the
    catalog diff, the merge, the database helpers, the media probe and
    the cover-art extractors.

    JavaScript values are modelled by the tree type [jsval].  Numbers
    are the integers ([Z]); NaN appears only as the result of
    [parseInt] on a header and is modelled there by [None].  Object
    identity is not tracked: [===] and the key comparison of [Map] and
    [Set] are exact on primitive values and answer [false] on two
    composite values (two different parses never share an object).
    Reading a property of a primitive yields [undefined], as in
    JavaScript; the places where the programs read a property of a
    value that may be [null] or [undefined], or call an array method on
    a value that may not be an array, raise ([throw]).  The database
    file is read as any JSON text: its items may be [null], and reading
    a property of such an item raises, as does reading one of the
    argument of [writeDatabase] ([read], and the list functions
    [map_raising], [filter_raising] and [some_raising]).

    The world of a run is the database file, the names of the files of
    the art directory, the number of clock readings taken and the trace
    of the requests sent.  Everything outside the two programs is a
    field of the class [Env]: the network (a function of the URL, the
    options and the timeout, so that a repeated request is answered
    alike), the media server, the tag parser, the quality classifier,
    the formatting of a sample rate, [parseInt] and the clock.  The
    values these libraries hand over (decoded XML nodes, parsed tags,
    the classifier's answer) are objects.  The items of a batch are
    enriched one after the other, in the order of the batch; the
    whitespace class of the regular expressions and the decoding of
    bytes are those of the ASCII range.  The two URI builtins are the
    fields of the class [Uri]; the functions of [path] are those of
    the POSIX flavour. *)

From Stdlib Require Import List ZArith Bool String Ascii Lia.
From Stdlib.Strings Require Import Byte.
From Stdlib Require Import DecimalString.
Import ListNotations.

#[local] Set Warnings "-register-all".

Local Open Scope string_scope.
Local Open Scope Z_scope.
Local Open Scope list_scope.

(* ================================================================= *)
(** ** JavaScript values *)

Inductive jsval : Type :=
| JUndefined
| JNull
| JBool (b : bool)
| JNum (n : Z)
| JStr (s : string)
| JBuf (bytes : list byte)
| JArr (elems : list jsval)
| JObj (fields : list (string * jsval)).

(** [!!v]. *)
Definition truthy (v : jsval) : bool :=
  match v with
  | JUndefined | JNull => false
  | JBool b => b
  | JNum n => negb (n =? 0)
  | JStr s => negb (s =? "")%string
  | JBuf _ | JArr _ | JObj _ => true
  end.

(** [a || b]. *)
Definition js_or (a b : jsval) : jsval := if truthy a then a else b.

Definition is_prim (v : jsval) : bool :=
  match v with
  | JBuf _ | JArr _ | JObj _ => false
  | _ => true
  end.


(** [a === b]. *)
Definition strict_eq (a b : jsval) : bool :=
  match a, b with
  | JUndefined, JUndefined => true
  | JNull, JNull => true
  | JBool x, JBool y => Bool.eqb x y
  | JNum x, JNum y => x =? y
  | JStr x, JStr y => (x =? y)%string
  | _, _ => false
  end.

(** The key comparison of [Map] and [Set] (SameValueZero). *)
Definition same_value_zero (a b : jsval) : bool := strict_eq a b.

Fixpoint assoc (k : string) (fs : list (string * jsval)) : jsval :=
  match fs with
  | [] => JUndefined
  | (k', v) :: tl => if (k =? k')%string then v else assoc k tl
  end.

(** [v[k]] and [v?.[k]]. *)
Definition get (k : string) (v : jsval) : jsval :=
  match v with
  | JObj fs => assoc k fs
  | _ => JUndefined
  end.

(** [o[k] = v] on the fields of an object: an own property keeps its
    place, a new one goes last. *)
Fixpoint set_field (k : string) (v : jsval) (fs : list (string * jsval))
  : list (string * jsval) :=
  match fs with
  | [] => [(k, v)]
  | (k', v') :: tl =>
      if (k =? k')%string then (k', v) :: tl else (k', v') :: set_field k v tl
  end.

Definition set (k : string) (v : jsval) (o : jsval) : jsval :=
  match o with
  | JObj fs => JObj (set_field k v fs)
  | _ => o
  end.

(** [{...o}]: the own properties of [o], in order. *)
Definition spread (o : jsval) : list (string * jsval) :=
  match o with
  | JObj fs => fs
  | _ => []
  end.

(** [v.length]. *)
Definition js_length (v : jsval) : jsval :=
  match v with
  | JArr l => JNum (Z.of_nat (List.length l))
  | JStr s => JNum (Z.of_nat (String.length s))
  | JBuf b => JNum (Z.of_nat (List.length b))
  | JObj fs => assoc "length" fs
  | _ => JUndefined
  end.

(** [a[0]] on an array. *)
Definition first (l : list jsval) : jsval :=
  match l with
  | [] => JUndefined
  | x :: _ => x
  end.

(** The elements of [v] when [v] is an array: calling [map], [filter]
    or [find] on anything else raises. *)
Definition as_array (v : jsval) : option (list jsval) :=
  match v with
  | JArr l => Some l
  | _ => None
  end.

(** [v.k] written without [?.], on a value that may be [null] or
    [undefined]: [None] when the read raises. *)
Definition read (k : string) (v : jsval) : option jsval :=
  match v with
  | JUndefined | JNull => None
  | _ => Some (get k v)
  end.

(** [l.map(f)], [l.filter(p)] and [l.some(p)] for a callback that may
    raise: [None] as soon as one call of the callback raises.  [some]
    stops at the first element that satisfies [p]. *)
Fixpoint map_raising {A B} (f : A -> option B) (l : list A) : option (list B) :=
  match l with
  | [] => Some []
  | x :: tl =>
      match f x, map_raising f tl with
      | Some y, Some ys => Some (y :: ys)
      | _, _ => None
      end
  end.

Fixpoint filter_raising {A} (p : A -> option bool) (l : list A) : option (list A) :=
  match l with
  | [] => Some []
  | x :: tl =>
      match p x, filter_raising p tl with
      | Some b, Some ys => Some (if b then x :: ys else ys)
      | _, _ => None
      end
  end.

Fixpoint some_raising {A} (p : A -> option bool) (l : list A) : option bool :=
  match l with
  | [] => Some false
  | x :: tl =>
      match p x with
      | Some true => Some true
      | Some false => some_raising p tl
      | None => None
      end
  end.

(** [String(v)], as a template literal renders [v]. *)
Definition dec (n : Z) : string := NilZero.string_of_int (Z.to_int n).

Fixpoint join_with (sep : string) (l : list string) : string :=
  match l with
  | [] => ""
  | [x] => x
  | x :: tl => x ++ sep ++ join_with sep tl
  end.

Fixpoint to_string (v : jsval) : string :=
  match v with
  | JUndefined => "undefined"
  | JNull => "null"
  | JBool true => "true"
  | JBool false => "false"
  | JNum n => dec n
  | JStr s => s
  | JBuf b => string_of_list_byte b
  | JArr l =>
      join_with ","
        (map (fun x => match x with
                       | JUndefined | JNull => ""
                       | _ => to_string x
                       end) l)
  | JObj _ => "[object Object]"
  end.

(** [JSON.parse(JSON.stringify(v))]: what a value is once written to
    the database file and read back.  A property whose value is
    [undefined] is left out, an [undefined] array element becomes
    [null], a buffer becomes its [{type, data}] rendering. *)
Fixpoint json (v : jsval) : jsval :=
  match v with
  | JUndefined => JNull
  | JBuf b =>
      JObj [("type", JStr "Buffer");
            ("data", JArr (map (fun x => JNum (Z.of_N (Byte.to_N x))) b))]
  | JArr l => JArr (map json l)
  | JObj fs =>
      JObj ((fix fields (fs : list (string * jsval)) : list (string * jsval) :=
               match fs with
               | [] => []
               | (k, x) :: tl =>
                   match x with
                   | JUndefined => fields tl
                   | _ => (k, json x) :: fields tl
                   end
               end) fs)
  | _ => v
  end.

(* ================================================================= *)
(** ** [Map] and [Set] *)

(** A [Map] keeps its entries in insertion order; writing an existing
    key replaces the value in place. *)
Definition jsmap := list (jsval * jsval).

Fixpoint map_set (k v : jsval) (m : jsmap) : jsmap :=
  match m with
  | [] => [(k, v)]
  | (k', v') :: tl =>
      if same_value_zero k' k then (k', v) :: tl else (k', v') :: map_set k v tl
  end.

(** [new Map(entries)]. *)
Definition map_of (entries : list (jsval * jsval)) : jsmap :=
  fold_left (fun m e => map_set (fst e) (snd e) m) entries [].

(** [m.get(k)]: [undefined] when the key is absent. *)
Fixpoint map_get (k : jsval) (m : jsmap) : jsval :=
  match m with
  | [] => JUndefined
  | (k', v) :: tl => if same_value_zero k' k then v else map_get k tl
  end.

(** [[...m.values()]] and [m.size]. *)
Definition map_values (m : jsmap) : list jsval := map snd m.
Definition map_size (m : jsmap) : Z := Z.of_nat (List.length m).

(** [new Set(xs).has(k)]. *)
Definition set_has (xs : list jsval) (k : jsval) : bool :=
  existsb (fun x => same_value_zero x k) xs.

(* ================================================================= *)
(** ** The world: the database file, the album-art directory, the
       clock and the outbound traffic *)

(** What [database.json] holds when it exists: only blanks
    ([raw.trim()] is empty), a JSON text ([JSON.parse(raw)] is [doc]),
    or a text that [JSON.parse] rejects. *)
Inductive content : Type :=
| Whitespace
| Json (doc : jsval)
| Garbage.

(** A number that may be NaN ([None]). *)
Definition num := option Z.

Inductive http_method : Type := GET | HEAD.

(** The [options] argument of [fetchWithTimeout]. *)
Record fetch_options : Type := mkOptions {
  opt_method : http_method;
  opt_range : option (num * num);      (* Range: bytes=a-b *)
  opt_timeout : option Z               (* a [timeout] property *)
}.

(** What the programs read of a [Response]. *)
Record response : Type := mkResponse {
  status : Z;
  content_length : num;                (* parseInt(headers.get("content-length"), 10) *)
  content_type : option string;        (* headers.get("content-type") *)
  body : option (list byte)            (* arrayBuffer(); None when reading fails *)
}.

(** [response.ok]. *)
Definition ok (r : response) : bool := (200 <=? status r) && (status r <=? 299).

(** The options of [mm.parseBuffer]. *)
Record parse_options : Type := mkParseOptions {
  mimeType : option string;
  skipCovers : bool;
  duration : option bool;
  skipPostHeaders : option bool
}.

Inductive event : Type :=
| EvFetch (url : jsval) (options : fetch_options) (abort_after : Z)
| EvBrowse (id : jsval)
| EvDbWrite (doc : jsval)
| EvArtWrite (name : string).

Record world : Type := mkWorld {
  db : option content;                 (* database.json *)
  art : list string;                   (* the files of public/album-art *)
  ticks : nat;                         (* readings of the clock so far *)
  trace : list event                   (* oldest first *)
}.

(** Everything outside the programs: the configuration, the media
    server, the libraries they import and the clock. *)
Class Env : Type := mkEnv {
  IP : jsval;                          (* process.env.IP *)
  PORT : jsval;                        (* process.env.PORT *)
  (** [fetch(url, {...options, signal})] aborted after the given
      delay: [None] when the promise rejects. *)
  net : jsval -> fetch_options -> Z -> option response;
  (** The Browse request for an object id, decoded by the two
      [parseXml] calls: [None] when the request or the decoding
      raises. *)
  dlna : jsval -> option jsval;
  (** [mm.parseBuffer]: [None] when it rejects. *)
  parseBuffer : list byte -> parse_options -> option jsval;
  (** [classifyAudioQuality], imported from a file outside the sources. *)
  classifyAudioQuality : jsval -> jsval -> jsval;
  (** [(x / 1000).toFixed(1)]. *)
  kHz : jsval -> string;
  (** [parseInt(x)]. *)
  parseInt : jsval -> num;
  (** [new Date().toISOString()] at the n-th reading of the clock. *)
  clock : nat -> string
}.

(** Computations: a state over the world, with exceptions. *)
Inductive outcome (A : Type) : Type :=
| Ok (a : A)
| Throw.
Arguments Ok {A} a.
Arguments Throw {A}.

Definition M (A : Type) : Type := world -> outcome A * world.

Definition ret {A} (a : A) : M A := fun w => (Ok a, w).

Definition throw {A} : M A := fun w => (Throw, w).

Definition bind {A B} (c : M A) (k : A -> M B) : M B :=
  fun w =>
    match c w with
    | (Ok a, w') => k a w'
    | (Throw, w') => (Throw, w')
    end.

(** [try { c } catch { h }]. *)
Definition try_catch {A} (c h : M A) : M A :=
  fun w =>
    match c w with
    | (Ok a, w') => (Ok a, w')
    | (Throw, w') => h w'
    end.

Declare Scope js_scope.
Delimit Scope js_scope with js.
Notation "x <- c ;; k" := (bind c (fun x => k))
  (at level 61, c at next level, right associativity) : js_scope.
Notation "c ;; k" := (bind c (fun _ => k))
  (at level 61, right associativity) : js_scope.
Local Open Scope js_scope.

Definition lift {A} (o : option A) : M A :=
  match o with
  | Some a => ret a
  | None => throw
  end.

Definition log (e : event) : M unit :=
  fun w => (Ok tt, mkWorld (db w) (art w) (ticks w) (trace w ++ [e])).

Fixpoint mapM {A B} (f : A -> M B) (l : list A) : M (list B) :=
  match l with
  | [] => ret []
  | x :: tl => y <- f x ;; ys <- mapM f tl ;; ret (y :: ys)
  end.

(** The two URI builtins: [None] when they raise a [URIError]. *)
Class Uri : Type := mkUri {
  encodeURIComponent : jsval -> option string;
  decodeURIComponent : string -> option string
}.

(** What a handler answers: [res.status(code).json(body)],
    [res.status(code).end()], [res.set(headers)] followed by
    [res.sendFile] of a file of the album-art directory, or
    [res.set(headers)] followed by [res.send(data)]. *)
Inductive reply : Type :=
| ReplyJson (code : Z) (body : jsval)
| ReplyEnd (code : Z)
| ReplyFile (headers : list (string * jsval)) (file : string)
| ReplySend (headers : list (string * jsval)) (data : jsval).

Section Primitives.
Context {E : Env}.

(** [new Date().toISOString()]. *)
Definition now : M string :=
  fun w => (Ok (clock (ticks w)), mkWorld (db w) (art w) (S (ticks w)) (trace w)).

(** [fs.existsSync(dbPath)], [fs.readFileSync(dbPath, "utf-8")],
    [fs.writeFileSync(dbPath, JSON.stringify(doc, null, 2))]. *)
Definition existsSync_db : M bool :=
  fun w => (Ok (match db w with Some _ => true | None => false end), w).

Definition readFileSync_db : M content :=
  fun w => match db w with
           | Some c => (Ok c, w)
           | None => (Throw, w)
           end.

Definition writeFileSync_db (doc : jsval) : M unit :=
  fun w => (Ok tt, mkWorld (Some (Json (json doc))) (art w) (ticks w)
                           (trace w ++ [EvDbWrite (json doc)])).

(** [fs.existsSync] and [fs.writeFileSync] on a file of the album-art
    directory.  [fs.writeFileSync(file, data)] raises, and writes
    nothing, when [data] is neither a string nor a buffer. *)
Definition existsSync_art (name : string) : M bool :=
  fun w => (Ok (existsb (String.eqb name) (art w)), w).

Definition writeFileSync_art (name : string) (data : jsval) : M unit :=
  match data with
  | JStr _ | JBuf _ =>
      fun w => (Ok tt, mkWorld (db w) (name :: art w) (ticks w)
                               (trace w ++ [EvArtWrite name]))
  | _ => throw
  end.

(** [fetchWithTimeout(url, options = {}, timeout = 5000)]: the same
    helper in both programs. *)
Definition fetchWithTimeout (url : jsval) (options : fetch_options)
  (timeout : option Z) : M response :=
  let t := match timeout with Some t => t | None => 5000 end in
  log (EvFetch url options t) ;;
  lift (net url options t).

(** [Buffer.from(await resp.arrayBuffer())]. *)
Definition arrayBuffer (r : response) : M (list byte) := lift (body r).

(** The Browse request of the [/api/browse/:id] handlers with its
    decoding. *)
Definition browseDLNA (id : jsval) : M jsval :=
  log (EvBrowse id) ;;
  lift (dlna id).

End Primitives.

(* ================================================================= *)
(** ** Strings *)

Definition dquote : ascii := ascii_of_nat 34.

(** The characters that the first [replace] of [createFileName]
    removes: the angle brackets, the colon, the double quote, both
    slashes, the bar, the question mark and the star. *)
Definition unsafe_char (c : ascii) : bool :=
  existsb (Ascii.eqb c)
    ["<"; ">"; ":"; dquote; "/"; "\"; "|"; "?"; "*"]%char.

(** [\s], on the ASCII range. *)
Definition is_space (c : ascii) : bool :=
  existsb (Nat.eqb (nat_of_ascii c)) [9; 10; 11; 12; 13; 32]%nat.

Fixpoint remove_chars (p : ascii -> bool) (s : string) : string :=
  match s with
  | EmptyString => EmptyString
  | String c tl => if p c then remove_chars p tl else String c (remove_chars p tl)
  end.

(** [s.replace(/\s+/g, " ")]; [in_run] tells that the previous
    character was a blank. *)
Fixpoint squeeze (in_run : bool) (s : string) : string :=
  match s with
  | EmptyString => EmptyString
  | String c tl =>
      if is_space c
      then (if in_run then squeeze true tl else String " " (squeeze true tl))
      else String c (squeeze false tl)
  end.

Fixpoint trim_start (s : string) : string :=
  match s with
  | EmptyString => EmptyString
  | String c tl => if is_space c then trim_start tl else s
  end.

Definition rev_string (s : string) : string :=
  string_of_list_ascii (rev (list_ascii_of_string s)).

(** [s.trim()]. *)
Definition trim (s : string) : string :=
  rev_string (trim_start (rev_string (trim_start s))).

(** [s.split(sep)] for a separator of one character. *)
Fixpoint split_on (sep : ascii) (s : string) : list string :=
  match s with
  | EmptyString => [EmptyString]
  | String c tl =>
      if Ascii.eqb c sep then EmptyString :: split_on sep tl
      else match split_on sep tl with
           | [] => [String c EmptyString]
           | h :: t => String c h :: t
           end
  end.

(** The longest prefix of [l] whose elements satisfy [p], and the rest. *)
Fixpoint take_while {A} (p : A -> bool) (l : list A) : list A :=
  match l with
  | [] => []
  | x :: tl => if p x then x :: take_while p tl else []
  end.

Fixpoint drop_while {A} (p : A -> bool) (l : list A) : list A :=
  match l with
  | [] => []
  | x :: tl => if p x then drop_while p tl else l
  end.

Definition is_slash (c : ascii) : bool := Ascii.eqb c "/".
Definition is_dot (c : ascii) : bool := Ascii.eqb c ".".

(** [path.basename(p)] of the POSIX flavour: the trailing slashes are
    skipped, then the characters back to the previous slash are
    taken. *)
Definition basename (p : string) : string :=
  string_of_list_ascii
    (rev (take_while (fun c => negb (is_slash c))
            (drop_while is_slash (rev (list_ascii_of_string p))))).

(** [path.extname(b)] for a name without slashes: from the last dot
    on; empty when there is no dot, when the only dot comes first and
    for the name of the parent directory. *)
Definition extname (b : string) : string :=
  let r := rev (list_ascii_of_string b) in
  match drop_while (fun c => negb (is_dot c)) r with
  | [] => ""
  | _ :: [] => ""
  | _ :: _ :: _ =>
      if (b =? "..")%string then ""
      else string_of_list_ascii
             ("."%char :: rev (take_while (fun c => negb (is_dot c)) r))
  end.

(** [s.slice(1)]. *)
Definition slice1 (s : string) : string :=
  match s with
  | EmptyString => EmptyString
  | String _ tl => tl
  end.

(** The slices [l.slice(i, i + n)] for [i = 0, n, 2n, ...] below
    [l.length]. *)
Fixpoint chunks_fuel {A} (fuel n : nat) (l : list A) : list (list A) :=
  match fuel with
  | O => []
  | S fuel' =>
      match l with
      | [] => []
      | _ => firstn n l :: chunks_fuel fuel' n (skipn n l)
      end
  end.

Definition chunks {A} (n : nat) (l : list A) : list (list A) :=
  chunks_fuel (List.length l) n l.

(* ================================================================= *)
(** ** front-end/vite.config.js *)

Module FrontEnd.
Section Program.
Context {E : Env}.

(** *** Database helpers *)

Definition defaultData : jsval :=
  JObj [("containers", JArr []); ("items", JArr []);
        ("metadata", JObj [("lastUpdated", JNull)])].

(** The properties of the stored object are evaluated in order:
    [data.containers] and [data.items] are read, and raise on [null]
    and on [undefined], before the clock is. *)
Definition writeDatabase (data : jsval) : M unit :=
  containers <- lift (read "containers" data) ;;
  items <- lift (read "items" data) ;;
  t <- now ;;
  writeFileSync_db
    (JObj [("containers", js_or containers (JArr []));
           ("items", js_or items (JArr []));
           ("metadata",
            JObj [("lastUpdated", JStr t);
                  ("totalContainers",
                   js_or (js_length (get "containers" data)) (JNum 0));
                  ("totalItems",
                   js_or (js_length (get "items" data)) (JNum 0))])]).

Definition readDatabase : M jsval :=
  present <- existsSync_db ;;
  if negb present then
    writeDatabase defaultData ;; ret defaultData
  else
    raw <- readFileSync_db ;;
    match raw with
    | Whitespace => writeDatabase defaultData ;; ret defaultData
    | Garbage => throw
    | Json JNull => throw                 (* parsed.lastUpdated on null *)
    | Json parsed =>
        if truthy (get "lastUpdated" parsed) && negb (truthy (get "metadata" parsed))
        then ret (JObj [("containers", js_or (get "containers" parsed) (JArr []));
                        ("items", js_or (get "items" parsed) (JArr []));
                        ("metadata",
                         JObj [("lastUpdated", get "lastUpdated" parsed)])])
        else ret parsed
    end.

(** *** Utility functions *)

Definition ensureArray (val : jsval) : list jsval :=
  match val with
  | JArr l => l
  | _ => if truthy val then [val] else []
  end.

Definition formatBitrate (bitrate : jsval) : jsval :=
  if negb (truthy bitrate) then JNull
  else match parseInt bitrate with
       | None => JNull
       | Some n =>
           if 1000 <? n then JStr (dec ((n + 500) / 1000) ++ "kbps")
           else JStr (dec n ++ "kbps")
       end.

(** [None] when [name.replace] is called on a value that is not a
    string. *)
Definition createFileName (title date artist : jsval) : option string :=
  let name :=
    if truthy artist && negb (strict_eq artist (JStr "Unknown"))
    then JStr (to_string artist ++ " - " ++ to_string title)
    else title in
  let name :=
    if truthy date
    then JStr (to_string name ++ " (" ++ to_string date ++ ")")
    else name in
  match name with
  | JStr s =>
      Some (substring 0 200 (trim (squeeze false (remove_chars unsafe_char s))))
  | _ => None
  end.

(** *** Album art utilities *)

Definition art_url (path : string) : jsval :=
  JStr (to_string IP ++ ":" ++ to_string PORT ++ path).

Fixpoint first_cached (name : string) (exts : list string) : M jsval :=
  match exts with
  | [] => ret JNull
  | ext :: tl =>
      found <- existsSync_art (name ++ "." ++ ext) ;;
      if found then ret (art_url ("/public/album-art/" ++ name ++ "." ++ ext))
      else first_cached name tl
  end.

Definition checkAlbumArtCache (title date artist : jsval) : M jsval :=
  name <- lift (createFileName title date artist) ;;
  first_cached name ["jpg"; "jpeg"; "png"].

(** The [try] block raises when [split] is called on a format that is
    not a string and when [fs.writeFileSync] rejects the data. *)
Definition saveAlbumArtToFile (albumArt : jsval) (filename : string) : M jsval :=
  try_catch
    (format <- lift (match get "format" albumArt with
                     | JStr f => Some f
                     | _ => None
                     end) ;;
     let ext := match nth_error (split_on "/" format) 1 with
                | Some e => if (e =? "")%string then "jpg" else e
                | None => "jpg"
                end in
     let fullName := (filename ++ "." ++ ext)%string in
     found <- existsSync_art fullName ;;
     if found then ret (JStr ("/public/album-art/" ++ fullName))
     else writeFileSync_art fullName (get "data" albumArt) ;;
          ret (JStr ("/public/album-art/" ++ fullName)))
    (ret JNull).

(** *** Audio metadata *)

Definition getAudioMetadata (url : jsval) : M jsval :=
  try_catch
    (resp <- fetchWithTimeout url
               (mkOptions GET (Some (Some 0, Some 9000)) None) (Some 5000) ;;
     if negb (ok resp) && negb (status resp =? 206) then throw
     else
       buffer <- arrayBuffer resp ;;
       meta <- lift (parseBuffer buffer
                       (mkParseOptions
                          (Some (match content_type resp with
                                 | Some t => if (t =? "")%string then "audio/flac" else t
                                 | None => "audio/flac"
                                 end))
                          true (Some false) (Some true))) ;;
       let format := get "format" meta in
       let common := get "common" meta in
       ret (JObj [("bitDepth", js_or (get "bitsPerSample" format) JNull);
                  ("sampleRate", js_or (get "sampleRate" format) JNull);
                  ("bitDepthLabel",
                   if truthy (get "bitsPerSample" format)
                   then JStr (to_string (get "bitsPerSample" format) ++ "-bit")
                   else JNull);
                  ("sampleRateLabel",
                   if truthy (get "sampleRate" format)
                   then JStr (kHz (get "sampleRate" format) ++ "kHz")
                   else JNull);
                  ("date", js_or (get "date" common) JNull);
                  ("composer", js_or (get "composer" common) JNull);
                  ("lyrics", js_or (get "lyrics" common) JNull)]))
    (ret JNull).

(** [meta.common.picture?.[0]]. *)
Definition first_picture (meta : jsval) : jsval :=
  match get "picture" (get "common" meta) with
  | JArr l => first l
  | _ => JUndefined
  end.

Definition maxBytes : Z := 14505936.

Definition getAlbumArt (url : jsval) : M jsval :=
  try_catch
    (head <- fetchWithTimeout url (mkOptions HEAD None None) (Some 5000) ;;
     if negb (ok head) then throw
     else
       let size := content_length head in
       let end_ := match size with
                   | None => maxBytes
                   | Some s => Z.min (s - 1) maxBytes
                   end in
       resp <- fetchWithTimeout url
                 (mkOptions GET (Some (Some 0, Some end_)) None) (Some 1000) ;;
       if negb (ok resp) && negb (status resp =? 206) then throw
       else
         buffer <- arrayBuffer resp ;;
         meta <- lift (parseBuffer buffer (mkParseOptions None false None None)) ;;
         let picture := first_picture meta in
         ret (if truthy picture
              then JObj [("format", get "format" picture);
                         ("data", get "data" picture);
                         ("description",
                          js_or (get "description" picture) (JStr "Album Art"))]
              else JNull))
    (ret JNull).

(** *** Transform DIDL data *)

Definition LIMIT : nat := 15.

(** The two callbacks that rebuild a container and an item from the
    decoded XML. *)
Definition toContainer (c : jsval) : jsval :=
  JObj [("id", get "id" c);
        ("parentID", get "parentID" c);
        ("title", get "dc:title" c);
        ("class", get "upnp:class" c);
        ("childCount", get "childCount" c)].

Definition toRawItem (i : jsval) : jsval :=
  let res := js_or (first (ensureArray (get "res" i))) (JObj []) in
  JObj [("id", get "id" i);
        ("title", js_or (get "dc:title" i) (JStr "Unknown"));
        ("artist", js_or (get "upnp:artist" i) (JStr "Unknown"));
        ("album", js_or (get "upnp:album" i) (JStr "Unknown"));
        ("duration", js_or (get "duration" res) JNull);
        ("url", get "#text" res);
        ("genre", get "upnp:genre" i);
        ("bitrate", get "bitrate" res);
        ("nrAudioChannels", get "nrAudioChannels" res)].

(** [if (v) out[k] = v]. *)
Definition set_if (k : string) (v : jsval) (fs : list (string * jsval))
  : list (string * jsval) :=
  if truthy v then set_field k v fs else fs.

(** The callback of [batch.map]: the enrichment of one item. *)
Definition enrich (item : jsval) : M jsval :=
  meta <- getAudioMetadata (get "url" item) ;;
  let dateForFile := js_or (get "date" meta) JNull in
  cachedUrl <- checkAlbumArtCache (get "title" item) dateForFile (get "artist" item) ;;
  artUrl <- (if negb (truthy cachedUrl) then
               try_catch
                 (art <- getAlbumArt (get "url" item) ;;
                  if truthy art then
                    file <- lift (createFileName (get "title" item) dateForFile
                                    (get "artist" item)) ;;
                    saved <- saveAlbumArtToFile art file ;;
                    if truthy saved then ret (art_url (to_string saved))
                    else ret cachedUrl
                  else ret cachedUrl)
                 (ret cachedUrl)
             else ret cachedUrl) ;;
  let artUrl := if negb (truthy artUrl) then art_url "/public/default.png"
                else artUrl in
  let out := set_field "albumArtUrl" artUrl (spread item) in
  ret (JObj
         (if truthy meta then
            let q := classifyAudioQuality meta (get "bitrate" item) in
            let out :=
              set_field "quality"
                (JObj [("encoding", get "encoding" q);
                       ("label", get "label" q);
                       ("tier", get "tier" q);
                       ("bitDepth", js_or (get "bitDepthLabel" meta) (JStr "16-bit"));
                       ("sampleRate",
                        js_or (get "sampleRateLabel" meta) (JStr "44.1kHz"));
                       ("bitrate", formatBitrate (get "bitrate" item))])
                out in
            set_if "lyrics" (get "lyrics" meta)
              (set_if "composer" (get "composer" meta)
                 (set_if "date" (get "date" meta) out))
          else out)).

(** The result stands for the object [{containers, items}].  The
    batches run one after the other; inside a batch the items are
    enriched in the order of the batch, which is the order in which
    [Promise.all] collects their results. *)
Definition transformDIDLData (didl : jsval) (includeMetadata : bool)
  : M (list jsval * list jsval) :=
  let containers :=
    map toContainer (ensureArray (get "container" (get "DIDL-Lite" didl))) in
  let rawItems :=
    map toRawItem (ensureArray (get "item" (get "DIDL-Lite" didl))) in
  if negb includeMetadata then ret (containers, rawItems)
  else
    batches <- mapM (mapM enrich) (chunks LIMIT rawItems) ;;
    ret (containers, List.concat batches).

(** *** The [/api/browse/:id] handler *)

(** The items of the cache are what [JSON.parse] found in the file:
    the callbacks that read the [id] of one raise on [null] and on
    [undefined].  The items of the listing are decoded XML nodes and
    the new items are objects that [transformDIDLData] built. *)

(** The callback [(i) => [i.id, i]]. *)
Definition id_entry (i : jsval) : option (jsval * jsval) :=
  option_map (fun id => (id, i)) (read "id" i).

Definition cachedMap (cachedItems : list jsval) : option jsmap :=
  option_map map_of (map_raising id_entry cachedItems).

(** [ensureArray(i.res)[0]?.["#text"]]. *)
Definition newUrl (i : jsval) : jsval :=
  get "#text" (first (ensureArray (get "res" i))).

(** The callback of [rawItems.filter], for the Map of the cache. *)
Definition changed (cachedMap : jsmap) (i : jsval) : bool :=
  let c := map_get (get "id" i) cachedMap in
  if negb (truthy c) then true
  else negb (strict_eq (get "dc:title" i) (get "title" c))
       || negb (strict_eq (newUrl i) (get "url" c)).

(** [None] when building the Map of the cache raises. *)
Definition itemsToScan (rawItems cachedItems : list jsval)
  : option (list jsval) :=
  option_map (fun cachedMap => filter (changed cachedMap) rawItems)
    (cachedMap cachedItems).

Definition dlnaIds (rawItems : list jsval) : list jsval :=
  map (get "id") rawItems.

Definition toRemove (rawItems cachedItems : list jsval) : option (list jsval) :=
  filter_raising
    (fun i => option_map (fun id => negb (set_has (dlnaIds rawItems) id))
                (read "id" i))
    cachedItems.

(** The callback [(r) => r.id === i.id] of [toRemove.some]. *)
Definition same_id (i r : jsval) : option bool :=
  match read "id" r, read "id" i with
  | Some a, Some b => Some (strict_eq a b)
  | _, _ => None
  end.

Definition mergedMap (cachedItems removed newItems : list jsval)
  : option jsmap :=
  match filter_raising
          (fun i => option_map negb (some_raising (same_id i) removed))
          cachedItems with
  | None => None
  | Some keptItems =>
      option_map
        (fun entries =>
           fold_left (fun m item => map_set (get "id" item) item m) newItems
             (map_of entries))
        (map_raising id_entry keptItems)
  end.

Definition non_nullish (v : jsval) : option jsval :=
  match v with
  | JUndefined | JNull => None
  | _ => Some v
  end.

(** [didl["DIDL-Lite"].container || cached.containers]. *)
Definition mergedContainers (lite cached : jsval) : jsval :=
  js_or (get "container" lite) (get "containers" cached).

Definition browse (id : jsval) (includeMetadata : bool) : M jsval :=
  cached <- readDatabase ;;
  didl <- browseDLNA id ;;
  let rawItems := ensureArray (get "item" (get "DIDL-Lite" didl)) in
  cachedItems <- lift (as_array (get "items" cached)) ;;
  scan <- lift (itemsToScan rawItems cachedItems) ;;
  removed <- lift (toRemove rawItems cachedItems) ;;
  if (List.length scan =? 0)%nat && (List.length removed =? 0)%nat then ret cached
  else
    lite <- lift (non_nullish (get "DIDL-Lite" didl)) ;;
    let filtered :=
      JObj [("DIDL-Lite",
             JObj [("container", js_or (get "container" lite) (JArr []));
                   ("item", JArr scan)])] in
    newData <- transformDIDLData filtered includeMetadata ;;
    merged_map <- lift (mergedMap cachedItems removed (snd newData)) ;;
    t <- now ;;
    _ <- lift (non_nullish (mergedContainers lite cached)) ;;
    let merged :=
      JObj [("containers", mergedContainers lite cached);
            ("items", JArr (map_values merged_map));
            ("metadata",
             JObj [("lastUpdated", JStr t);
                   ("totalContainers", js_length (mergedContainers lite cached));
                   ("totalItems", JNum (map_size merged_map))])] in
    writeDatabase merged ;;
    ret merged.

(** *** The [/api/album-art/:fileUrl] handler *)

Context {U : Uri}.

(** [items.find((i) => i.url === fileUrl)]: [None] when the callback
    reads the [url] of [null] or [undefined]. *)
Fixpoint find_by_url (fileUrl : jsval) (items : list jsval) : option jsval :=
  match items with
  | [] => Some JUndefined
  | i :: tl =>
      match i with
      | JUndefined | JNull => None
      | _ => if strict_eq (get "url" i) fileUrl then Some i
             else find_by_url fileUrl tl
      end
  end.

(** [fs.existsSync(path.join(albumArtDir, base))]: the join of an
    empty name, of the dot and of the double dot is the album-art
    directory or its parent, which the program creates when it
    starts. *)
Definition existsSync_joined (base : string) : M bool :=
  if (base =? "")%string || (base =? ".")%string || (base =? "..")%string
  then ret true
  else existsSync_art base.

Definition albumArt (param : string) : M reply :=
  fileUrl <- lift (decodeURIComponent param) ;;
  db <- readDatabase ;;
  items <- lift (as_array (get "items" db)) ;;
  item <- lift (find_by_url (JStr fileUrl) items) ;;
  if negb (truthy item) || negb (truthy (get "albumArtUrl" item)) then
    ret (ReplyJson 404 (JObj [("error", JStr "Album art not found");
                              ("fileUrl", JStr fileUrl)]))
  else
    base <- lift (match get "albumArtUrl" item with
                  | JStr url => Some (basename url)
                  | _ => None                (* path.basename of a non-string *)
                  end) ;;
    present <- existsSync_joined base ;;
    if negb present then
      ret (ReplyJson 404 (JObj [("error", JStr "Album art file not found")]))
    else
      let ext := slice1 (extname base) in
      let mime := if (ext =? "png")%string then "image/png" else "image/jpeg" in
      ret (ReplyFile [("Content-Type", JStr mime);
                      ("Cache-Control", JStr "public, max-age=31536000")]
             base).

(** *** The address of the host *)

Definition external_ipv4 (info : jsval) : bool :=
  strict_eq (get "family" info) (JStr "IPv4") && negb (truthy (get "internal" info)).

(** The inner loop over the addresses of one interface, with its
    [break]. *)
Fixpoint scan_interface (hostIP : jsval) (iface : list jsval) : jsval :=
  match iface with
  | [] => hostIP
  | info :: tl =>
      if external_ipv4 info then get "address" info
      else scan_interface hostIP tl
  end.

(** The outer loop over [Object.values(os.networkInterfaces())]. *)
Definition hostIP (interfaces : list (list jsval)) : jsval :=
  fold_left scan_interface interfaces (JStr "0.0.0.0").

End Program.
End FrontEnd.

(* ================================================================= *)
(** ** Buffers *)

Definition byte_val (b : byte) : Z := Z.of_N (Byte.to_N b).

Fixpoint starts_with (pat l : list byte) : bool :=
  match pat, l with
  | [], _ => true
  | _ :: _, [] => false
  | p :: ps, x :: xs => Byte.eqb p x && starts_with ps xs
  end.

Fixpoint find_first (pat l : list byte) : option nat :=
  if starts_with pat l then Some O
  else match l with
       | [] => None
       | _ :: tl => option_map S (find_first pat tl)
       end.

(** [buf.indexOf(pat, byteOffset)]: [-1] when [pat] does not occur at
    or after the offset. *)
Definition indexOf (buf pat : list byte) (byteOffset : Z) : Z :=
  let len := Z.of_nat (List.length buf) in
  let from := if byteOffset <? 0 then Z.max 0 (byteOffset + len) else byteOffset in
  match find_first pat (skipn (Z.to_nat from) buf) with
  | Some k => from + Z.of_nat k
  | None => -1
  end.

(** [buf.readUInt32BE(offset)]: raises when the four bytes are not
    all inside the buffer. *)
Definition readUInt32BE (buf : list byte) (offset : Z) : option Z :=
  if (offset <? 0) || (Z.of_nat (List.length buf) <? offset + 4) then None
  else match skipn (Z.to_nat offset) buf with
       | b0 :: b1 :: b2 :: b3 :: _ =>
           Some (byte_val b0 * 16777216 + byte_val b1 * 65536
                 + byte_val b2 * 256 + byte_val b3)
       | _ => None
       end.

(** [buf.slice(start, end)]: a negative index counts from the end. *)
Definition buf_slice (buf : list byte) (start end_ : Z) : list byte :=
  let len := Z.of_nat (List.length buf) in
  let clamp i := if i <? 0 then Z.max 0 (i + len) else Z.min i len in
  firstn (Z.to_nat (clamp end_ - clamp start)) (skipn (Z.to_nat (clamp start)) buf).

(** The bytes that [buf.toString("utf8", start, end)] decodes. *)
Definition buf_toString (buf : list byte) (start end_ : Z) : list byte :=
  let len := Z.of_nat (List.length buf) in
  if end_ <=? 0 then []
  else
    let s := Z.max 0 start in
    let e := Z.min end_ len in
    firstn (Z.to_nat (e - s)) (skipn (Z.to_nat s) buf).

(* ================================================================= *)
(** ** back-end/server.js *)

Module BackEnd.
Section Program.
Context {E : Env}.

Definition readDatabase : M jsval :=
  present <- existsSync_db ;;
  if negb present then
    ret (JObj [("containers", JArr []); ("items", JArr []); ("lastUpdated", JNull)])
  else
    raw <- readFileSync_db ;;
    match raw with
    | Json parsed => ret parsed
    | Whitespace | Garbage => throw
    end.

Definition writeDatabase (data : jsval) : M unit :=
  t <- now ;;
  writeFileSync_db (JObj (set_field "lastUpdated" (JStr t) (spread data))).

Definition ensureArray (val : jsval) : list jsval :=
  if negb (truthy val) then []
  else match val with
       | JArr l => l
       | _ => [val]
       end.

(** [None] when [cachedData.items.map] raises: when [cachedData.items]
    is not an array, and when its callback reads the [id] of a cached
    item that is [null] or [undefined].  The items of the listing are
    decoded XML nodes. *)
Definition hasChanges (didl cachedData : jsval) : option bool :=
  let rawItems := ensureArray (get "item" (get "DIDL-Lite" didl)) in
  let idsFromDLNA := map (get "id") rawItems in
  match as_array (get "items" cachedData) with
  | None => None
  | Some cachedItems =>
      match map_raising (read "id") cachedItems with
      | None => None
      | Some idsFromCache =>
          if negb (List.length idsFromDLNA =? List.length idsFromCache)%nat
          then Some true
          else
            let diff :=
              filter (fun id => negb (set_has idsFromCache id)) idsFromDLNA in
            Some (0 <? List.length diff)%nat
      end
  end.

Definition getAudioMetadata (url : jsval) : M jsval :=
  try_catch
    (response <- fetchWithTimeout url
                   (mkOptions GET (Some (Some 0, Some 4095)) (Some 5000)) None ;;
     if negb (ok response) && negb (status response =? 206) then throw
     else
       buffer <- arrayBuffer response ;;
       metadata <- lift (parseBuffer buffer
                           (mkParseOptions
                              (Some (match content_type response with
                                     | Some t => if (t =? "")%string then "audio/flac" else t
                                     | None => "audio/flac"
                                     end))
                              true (Some false) (Some true))) ;;
       let format := get "format" metadata in
       let common := get "common" metadata in
       ret (JObj [("bitDepth", js_or (get "bitsPerSample" format) JNull);
                  ("sampleRate", js_or (get "sampleRate" format) JNull);
                  ("bitDepthLabel",
                   if truthy (get "bitsPerSample" format)
                   then JStr (to_string (get "bitsPerSample" format) ++ "-bit")
                   else JNull);
                  ("sampleRateLabel",
                   if truthy (get "sampleRate" format)
                   then JStr (kHz (get "sampleRate" format) ++ "kHz")
                   else JNull);
                  ("date", js_or (get "date" common) JNull);
                  ("composer", js_or (get "composer" common) JNull);
                  ("lyrics", js_or (get "lyrics" common) JNull)]))
    (ret JNull).

Definition maxBytes : Z := 9500000.

Definition getAlbumArt (url : jsval) : M jsval :=
  try_catch
    (headResp <- fetchWithTimeout url (mkOptions HEAD None (Some 5000)) None ;;
     if negb (ok headResp) then throw
     else
       contentLength <- lift (content_length headResp) ;;
       let endByte := if contentLength <? maxBytes then contentLength - 1
                      else maxBytes in
       response <- fetchWithTimeout url
                     (mkOptions GET (Some (Some 0, Some endByte)) (Some 10000))
                     None ;;
       if negb (ok response) && negb (status response =? 206) then throw
       else
         buffer <- arrayBuffer response ;;
         metadata <- lift (parseBuffer buffer (mkParseOptions None false None None)) ;;
         let picture := FrontEnd.first_picture metadata in
         if negb (truthy picture) then ret JNull
         else ret (JObj [("format", get "format" picture);
                         ("data", get "data" picture);
                         ("description",
                          js_or (get "description" picture) (JStr "Album Art"))]))
    (ret JNull).

Definition ID3 : list byte := list_byte_of_string "ID3".
Definition APIC : list byte := list_byte_of_string "APIC".
Definition NUL : list byte := [x00].

(** Steps 3 to 5 of [getAlbumArtForDSD], on the fetched buffer: [None]
    when [readUInt32BE] raises, [Some JNull] when a marker is missing. *)
Definition scanBuffer (buffer : list byte) : option jsval :=
  let id3Index := indexOf buffer ID3 0 in
  if id3Index =? -1 then Some JNull
  else
    let apicIndex := indexOf buffer APIC id3Index in
    if apicIndex =? -1 then Some JNull
    else
      let offset := apicIndex + 4 in
      match readUInt32BE buffer offset with
      | None => None
      | Some size =>
          let offset := offset + 6 in
          let offset := offset + 1 in
          let mimeEnd := indexOf buffer NUL offset in
          let mimeType := string_of_list_byte (buf_toString buffer offset mimeEnd) in
          let offset := mimeEnd + 1 in
          let offset := offset + 1 in
          let descEnd := indexOf buffer NUL offset in
          let offset := descEnd + 1 in
          let imageBuffer := buf_slice buffer offset (apicIndex + size) in
          Some (JObj [("format",
                       JStr (if (mimeType =? "")%string then "image/jpeg" else mimeType));
                      ("data", JBuf imageBuffer);
                      ("description", JStr "Scanned Album Art")])
      end.

Definition chunkSize : Z := 150000.

Definition getAlbumArtForDSD (url : jsval) : M jsval :=
  try_catch
    (headResp <- fetchWithTimeout url (mkOptions HEAD None None) (Some 5000) ;;
     let fileSize := content_length headResp in
     let start := option_map (fun n => Z.max 0 (n - chunkSize)) fileSize in
     let end_ := option_map (fun n => n - 1) fileSize in
     response <- fetchWithTimeout url (mkOptions GET (Some (start, end_)) None) None ;;
     if negb (ok response) && negb (status response =? 206) then throw
     else
       buffer <- arrayBuffer response ;;
       lift (scanBuffer buffer))
    (ret JNull).

Definition getAlbumArtUnified (url : jsval) : M jsval :=
  standardResult <- getAlbumArt url ;;
  if truthy standardResult then ret standardResult
  else getAlbumArtForDSD url.

Context {U : Uri}.

Definition formatBitrate (bitrate : jsval) : jsval :=
  if negb (truthy bitrate) then JNull
  else match parseInt bitrate with
       | None => JNull
       | Some bitrateNum =>
           if 1000 <? bitrateNum
           then JStr (dec ((bitrateNum + 500) / 1000) ++ "kbps")
           else JStr (dec bitrateNum ++ "kbps")
       end.

Definition CONCURRENT_LIMIT : nat := 10.

Definition toContainer (c : jsval) : jsval :=
  JObj [("id", get "id" c);
        ("parentID", get "parentID" c);
        ("title", get "dc:title" c);
        ("class", get "upnp:class" c);
        ("childCount", get "childCount" c)].

Definition toRawItem (i : jsval) : jsval :=
  let resArr := ensureArray (get "res" i) in
  let res := js_or (first resArr) (JObj []) in
  JObj [("id", get "id" i);
        ("title", js_or (get "dc:title" i) (JStr "Unknown"));
        ("artist", js_or (get "upnp:artist" i) (JStr "Unknown"));
        ("album", js_or (get "upnp:album" i) (JStr "Unknown"));
        ("duration", js_or (get "duration" res) JNull);
        ("url", get "#text" res);
        ("genre", get "upnp:genre" i);
        ("bitrate", get "bitrate" res);
        ("nrAudioChannels", get "nrAudioChannels" res)].

(** The callback of [batch.map]: the probe of one item. *)
Definition enrich (item : jsval) : M jsval :=
  metadata <- getAudioMetadata (get "url" item) ;;
  encoded <- lift (encodeURIComponent (get "url" item)) ;;
  let out :=
    [("id", get "id" item);
     ("title", get "title" item);
     ("artist", get "artist" item);
     ("album", get "album" item);
     ("duration", get "duration" item);
     ("url", get "url" item);
     ("genre", get "genre" item);
     ("nrAudioChannels", get "nrAudioChannels" item);
     ("albumArtUrl",
      JStr ("http://localhost:" ++ to_string PORT ++ "/api/album-art/" ++ encoded))] in
  ret (JObj
         (if truthy metadata then
            let qualityInfo := classifyAudioQuality metadata (get "bitrate" item) in
            let out :=
              set_field "quality"
                (JObj [("encoding", get "encoding" qualityInfo);
                       ("label", get "label" qualityInfo);
                       ("tier", get "tier" qualityInfo);
                       ("bitDepth",
                        js_or (get "bitDepthLabel" metadata) (JStr "16-bit"));
                       ("sampleRate",
                        js_or (get "sampleRateLabel" metadata) (JStr "44.1kHz"));
                       ("bitrate", formatBitrate (get "bitrate" item))])
                out in
            FrontEnd.set_if "lyrics" (get "lyrics" metadata)
              (FrontEnd.set_if "composer" (get "composer" metadata)
                 (FrontEnd.set_if "date" (get "date" metadata) out))
          else out)).

(** The result stands for the object [{containers, items}]; the
    batches and their items run in order, as in the front end. *)
Definition transformDIDLData (didl : jsval) (includeMetadata : bool)
  : M (list jsval * list jsval) :=
  let containers :=
    map toContainer (ensureArray (get "container" (get "DIDL-Lite" didl))) in
  let rawItems :=
    map toRawItem (ensureArray (get "item" (get "DIDL-Lite" didl))) in
  if negb includeMetadata then ret (containers, rawItems)
  else
    batches <- mapM (mapM enrich) (chunks CONCURRENT_LIMIT rawItems) ;;
    ret (containers, List.concat batches).

(** The [/api/browse/:id] handler. *)
Definition browse (objectId : jsval) (includeMetadata : bool) : M jsval :=
  cachedData <- readDatabase ;;
  didlResult <- browseDLNA objectId ;;
  changed <- lift (hasChanges didlResult cachedData) ;;
  if negb changed then ret cachedData
  else
    newData <- transformDIDLData didlResult includeMetadata ;;
    let newData := JObj [("containers", JArr (fst newData));
                         ("items", JArr (snd newData))] in
    writeDatabase newData ;;
    ret newData.

(** [fileUrl.split('/').pop() || 'unknown']. *)
Definition filename_of (fileUrl : string) : string :=
  let seg := last (split_on "/" fileUrl) "" in
  if (seg =? "")%string then "unknown" else seg.

(** The entity tag: the file name followed by [-art], between double
    quotes. *)
Definition etag_of (filename : string) : string :=
  String dquote (filename ++ "-art" ++ String dquote "").

(** The [/api/album-art/:fileUrl] handler, with the [If-None-Match]
    header of the request. *)
Definition albumArt (param : string) (ifNoneMatch : jsval) : M reply :=
  fileUrl <- lift (decodeURIComponent param) ;;
  let filename := filename_of fileUrl in
  let etag := etag_of filename in
  if strict_eq ifNoneMatch (JStr etag) then ret (ReplyEnd 304)
  else
    albumArt <- getAlbumArtUnified (JStr fileUrl) ;;
    if negb (truthy albumArt) then
      ret (ReplyJson 404 (JObj [("error", JStr "No album art found");
                                ("filename", JStr filename)]))
    else
      ret (ReplySend [("Content-Type", get "format" albumArt);
                      ("Cache-Control", JStr "public, max-age=86400");
                      ("ETag", JStr etag)]
             (get "data" albumArt)).

End Program.
End BackEnd.

(* ================================================================= *)
(** * Vocabulary of the statements *)

(** The item of [l] that carries the id [k]: when several do, the last
    one, which is the one a [Map] built from [l] keeps. *)
Definition last_with_id (l : list jsval) (k : jsval) : option jsval :=
  find (fun c => same_value_zero (get "id" c) k) (rev l).

(** Every item of [l] has a primitive id, as every id read from an XML
    attribute or from the JSON file has. *)
Definition prim_ids (l : list jsval) : Prop :=
  Forall (fun c => is_prim (get "id" c) = true) l.


(** No item of [l] is [null] or [undefined]. *)
Definition readable (l : list jsval) : Prop :=
  Forall (fun c => c <> JNull /\ c <> JUndefined) l.


(** What the diff and the merge compute on a cache whose items are
    readable: the Map of the cache, the items to scan, the items to
    remove and the merged Map. *)
Definition id_map (C : list jsval) : jsmap :=
  map_of (map (fun i => (get "id" i, i)) C).

Definition scan_of (R C : list jsval) : list jsval :=
  filter (FrontEnd.changed (id_map C)) R.

Definition removed_of (R C : list jsval) : list jsval :=
  filter (fun i => negb (set_has (FrontEnd.dlnaIds R) (get "id" i))) C.

Definition merged_of (C removed new : list jsval) : jsmap :=
  fold_left (fun m item => map_set (get "id" item) item m) new
    (id_map
       (filter (fun i =>
                  negb (existsb (fun r => strict_eq (get "id" r) (get "id" i))
                          removed))
               C)).

(** The world after the events [evs] were added to its trace. *)
Definition logged (w : world) (evs : list event) : world :=
  mkWorld (db w) (art w) (ticks w) (trace w ++ evs).

(** The range, the options and the timeout of the two probes. *)
Definition probe_options_front : fetch_options :=
  mkOptions GET (Some (Some 0, Some 9000)) None.

Definition probe_options_back : fetch_options :=
  mkOptions GET (Some (Some 0, Some 4095)) (Some 5000).

Definition probe_timeout : Z := 5000.

Definition probe_parse_options (resp : response) : parse_options :=
  mkParseOptions
    (Some (match content_type resp with
           | Some t => if (t =? "")%string then "audio/flac" else t
           | None => "audio/flac"
           end))
    true (Some false) (Some true).

(** The tags the probe reads from a response, when it reads any. *)
Definition probe_tags `{Env} (r : option response) : option jsval :=
  match r with
  | None => None
  | Some resp =>
      if negb (ok resp) && negb (status resp =? 206) then None
      else match body resp with
           | None => None
           | Some buffer => parseBuffer buffer (probe_parse_options resp)
           end
  end.

Definition head_options_front : fetch_options := mkOptions HEAD None None.
Definition head_options_back : fetch_options := mkOptions HEAD None (Some 5000).

(** The end of the requested range, from the parsed content length. *)
Definition front_range_end (size : num) : Z :=
  match size with
  | None => FrontEnd.maxBytes
  | Some s => Z.min (s - 1) FrontEnd.maxBytes
  end.

Definition get_options_front (size : num) : fetch_options :=
  mkOptions GET (Some (Some 0, Some (front_range_end size))) None.

Definition front_art_timeout : Z := 1000.

(** The requests of [FrontEnd.getAlbumArt], in order. *)
Definition front_art_requests `{Env} (url : jsval) : list event :=
  EvFetch url head_options_front 5000 ::
  match net url head_options_front 5000 with
  | Some head =>
      if ok head
      then [EvFetch url (get_options_front (content_length head)) front_art_timeout]
      else []
  | None => []
  end.

(** The picture [getAlbumArt] builds from the first picture of the
    parsed tags. *)
Definition picture_of (meta : jsval) : jsval :=
  let picture := FrontEnd.first_picture meta in
  if truthy picture
  then JObj [("format", get "format" picture);
             ("data", get "data" picture);
             ("description", js_or (get "description" picture) (JStr "Album Art"))]
  else JNull.

(** The tags [FrontEnd.getAlbumArt] parses, when both requests and the
    parse succeed. *)
Definition front_art_tags `{Env} (url : jsval) : option jsval :=
  match net url head_options_front 5000 with
  | Some head =>
      if ok head then
        match net url (get_options_front (content_length head)) front_art_timeout with
        | Some resp =>
            if negb (ok resp) && negb (status resp =? 206) then None
            else match body resp with
                 | Some buffer =>
                     parseBuffer buffer (mkParseOptions None false None None)
                 | None => None
                 end
        | None => None
        end
      else None
  | None => None
  end.

(** The value a computation returns from a world, [d] if it raises. *)
Definition value_of {A} (c : M A) (w : world) (d : A) : A :=
  match fst (c w) with
  | Ok v => v
  | Throw => d
  end.

Definition empty_world : world := mkWorld None [] 0 [].

(** What [FrontEnd.getAudioMetadata] returns for a URL: it depends on
    the environment only. *)
Definition front_probe `{Env} (url : jsval) : jsval :=
  value_of (FrontEnd.getAudioMetadata url) empty_world JNull.

(** What [FrontEnd.getAlbumArt] returns for a URL. *)
Definition front_art `{Env} (url : jsval) : jsval :=
  match front_art_tags url with
  | Some meta => picture_of meta
  | None => JNull
  end.

(** The [quality] record of an enriched item. *)
Definition quality_of `{Env} (meta item : jsval) : jsval :=
  let q := classifyAudioQuality meta (get "bitrate" item) in
  JObj [("encoding", get "encoding" q);
        ("label", get "label" q);
        ("tier", get "tier" q);
        ("bitDepth", js_or (get "bitDepthLabel" meta) (JStr "16-bit"));
        ("sampleRate", js_or (get "sampleRateLabel" meta) (JStr "44.1kHz"));
        ("bitrate", FrontEnd.formatBitrate (get "bitrate" item))].

(** The file name under which the art of an item is kept. *)
Definition art_name `{Env} (item : jsval) : option string :=
  FrontEnd.createFileName (get "title" item)
    (js_or (get "date" (front_probe (get "url" item))) JNull)
    (get "artist" item).

(** No file of the album-art directory carries the name with one of
    the three extensions. *)
Definition art_missing (name : string) (w : world) : Prop :=
  forall ext, In ext ["jpg"; "jpeg"; "png"] ->
              existsb (String.eqb (name ++ "." ++ ext)) (art w) = false.

(** The enriched item: the raw item with its art reference and, when
    the probe returned tags, its quality record and the date, composer
    and lyrics that are present. *)
Definition enriched `{Env} (item artUrl : jsval) : jsval :=
  let meta := front_probe (get "url" item) in
  let out := set_field "albumArtUrl" artUrl (spread item) in
  JObj (if truthy meta
        then FrontEnd.set_if "lyrics" (get "lyrics" meta)
               (FrontEnd.set_if "composer" (get "composer" meta)
                  (FrontEnd.set_if "date" (get "date" meta)
                     (set_field "quality" (quality_of meta item) out)))
        else out).

Definition placeholder `{Env} : jsval := FrontEnd.art_url "/public/default.png".

(** A map from ids to items: every key is the primitive id of its
    value, and no key occurs twice. *)
Definition keyed (m : jsmap) : Prop :=
  Forall (fun e => fst e = get "id" (snd e) /\ is_prim (fst e) = true) m /\
  NoDup (map fst m).

(** The cached items whose id occurs in the remote listing. *)
Definition kept (R C : list jsval) : list jsval :=
  filter (fun c => set_has (FrontEnd.dlnaIds R) (get "id" c)) C.

(** The listing that the handler hands to [transformDIDLData]. *)
Definition filtered (lite : jsval) (scan : list jsval) : jsval :=
  JObj [("DIDL-Lite",
         JObj [("container", js_or (get "container" lite) (JArr []));
               ("item", JArr scan)])].

(** The snapshot that the handler answers with after a merge. *)
Definition merged_snapshot (lite cached : jsval) (items : list jsval)
  (t : string) : jsval :=
  JObj [("containers", FrontEnd.mergedContainers lite cached);
        ("items", JArr items);
        ("metadata",
         JObj [("lastUpdated", JStr t);
               ("totalContainers",
                js_length (FrontEnd.mergedContainers lite cached));
               ("totalItems", JNum (Z.of_nat (List.length items)))])].

(** The world after one reading of the clock. *)
Definition ticked (w : world) : world :=
  mkWorld (db w) (art w) (S (ticks w)) (trace w).

(** The document that [FrontEnd.writeDatabase] stores for the default
    snapshot at the time [t]. *)
Definition initial_document (t : string) : jsval :=
  JObj [("containers", JArr []); ("items", JArr []);
        ("metadata",
         JObj [("lastUpdated", JStr t);
               ("totalContainers", JNum 0);
               ("totalItems", JNum 0)])].

(** The counters of a stored document agree with its lists. *)
Definition counted (doc : jsval) : Prop :=
  get "totalItems" (get "metadata" doc) = js_length (get "items" doc) /\
  get "totalContainers" (get "metadata" doc) = js_length (get "containers" doc).

(** A value that is an array, or that [||] replaces by the empty
    array. *)
Definition array_or_falsy (v : jsval) : Prop :=
  (exists l, v = JArr l) \/ truthy v = false.

(** The fields that [JSON.stringify] keeps of an object. *)
Fixpoint json_fields (fs : list (string * jsval)) : list (string * jsval) :=
  match fs with
  | [] => []
  | (k, x) :: tl =>
      match x with
      | JUndefined => json_fields tl
      | _ => (k, json x) :: json_fields tl
      end
  end.

(** The document that [FrontEnd.writeDatabase] stores for [data] at
    the time [t]. *)
Definition stored (data : jsval) (t : string) : jsval :=
  JObj [("containers", json (js_or (get "containers" data) (JArr [])));
        ("items", json (js_or (get "items" data) (JArr [])));
        ("metadata",
         JObj [("lastUpdated", JStr t);
               ("totalContainers",
                json (js_or (js_length (get "containers" data)) (JNum 0)));
               ("totalItems",
                json (js_or (js_length (get "items" data)) (JNum 0)))])].

(** The requests of [getAlbumArtForDSD] once the HEAD request has
    answered. *)
Definition tail_options (fileSize : num) : fetch_options :=
  mkOptions GET
    (Some (option_map (fun n => Z.max 0 (n - BackEnd.chunkSize)) fileSize,
           option_map (fun n => n - 1) fileSize))
    None.

(** Each field of the probe's record comes from its own tag and is
    [null] exactly when that tag is missing or falsy. *)
Definition nullable_fields `{Env} (meta v : jsval) : Prop :=
  get "bitDepth" v = js_or (get "bitsPerSample" (get "format" meta)) JNull /\
  get "sampleRate" v = js_or (get "sampleRate" (get "format" meta)) JNull /\
  get "date" v = js_or (get "date" (get "common" meta)) JNull /\
  get "composer" v = js_or (get "composer" (get "common" meta)) JNull /\
  get "lyrics" v = js_or (get "lyrics" (get "common" meta)) JNull /\
  get "bitDepthLabel" v =
    (if truthy (get "bitsPerSample" (get "format" meta))
     then JStr (to_string (get "bitsPerSample" (get "format" meta)) ++ "-bit")
     else JNull) /\
  get "sampleRateLabel" v =
    (if truthy (get "sampleRate" (get "format" meta))
     then JStr (kHz (get "sampleRate" (get "format" meta)) ++ "kHz")
     else JNull).

(** A probe that sends one request with the given options: it
    returns [null] when the request fails, when the status is neither
    a success nor 206, when the body cannot be read and when the parse
    fails, and the record of nullable fields otherwise; it never
    raises. *)
Definition probe_contract `{Env} (probe : jsval -> M jsval)
  (options : fetch_options) : Prop :=
  forall (url : jsval) (w : world),
    let w' := logged w [EvFetch url options probe_timeout] in
    match net url options probe_timeout with
    | None => probe url w = (Ok JNull, w')
    | Some resp =>
        if negb (ok resp) && negb (status resp =? 206)
        then probe url w = (Ok JNull, w')
        else match body resp with
             | None => probe url w = (Ok JNull, w')
             | Some buffer =>
                 match parseBuffer buffer (probe_parse_options resp) with
                 | None => probe url w = (Ok JNull, w')
                 | Some meta =>
                     exists v, probe url w = (Ok v, w') /\ truthy v = true /\
                               nullable_fields meta v
                 end
             end
    end.

Definition get_options_back (contentLength : Z) : fetch_options :=
  mkOptions GET
    (Some (Some 0,
           Some (if contentLength <? BackEnd.maxBytes then contentLength - 1
                 else BackEnd.maxBytes)))
    (Some 10000).

(** A listing whose items have primitive ids, all different, a
    non-empty primitive title and a primitive URL. *)
Definition well_listed (R : list jsval) : Prop :=
  prim_ids R /\ NoDup (map (get "id") R) /\
  Forall (fun r => truthy (get "dc:title" r) = true /\
                   is_prim (get "dc:title" r) = true /\
                   is_prim (FrontEnd.newUrl r) = true) R.

(** Cached items as [JSON.parse] yields them, with primitive ids. *)
Definition well_cached (C : list jsval) : Prop :=
  prim_ids C /\ Forall (fun c => json c = c) C.

(** Writing [x] to the file and reading it back keeps its primitive
    fields. *)
Definition stable (x : jsval) : Prop :=
  forall k, is_prim (get k x) = true -> get k (json x) = get k x.

(** Every character of [s] satisfies [p]. *)
Fixpoint every_char (p : ascii -> bool) (s : string) : bool :=
  match s with
  | EmptyString => true
  | String c tl => p c && every_char p tl
  end.

(** The blanks of [s] are plain spaces, no two of them are adjacent,
    and [s] does not start with one when [after_blank] is set. *)
Fixpoint single_spaced (after_blank : bool) (s : string) : bool :=
  match s with
  | EmptyString => true
  | String c tl =>
      if is_space c
      then negb after_blank && Ascii.eqb c " " && single_spaced true tl
      else single_spaced false tl
  end.

(** No address of the interface is an external IPv4 address. *)
Definition no_external (iface : list jsval) : Prop :=
  forall info, In info iface -> FrontEnd.external_ipv4 info = false.

(* ================================================================= *)
(** * Data of the concrete runs *)

(** A clock whose n-th reading is the string T followed by n, a
    [parseInt] that knows numbers only, and the answer of the
    classifier. *)
Definition readings (n : nat) : string := "T" ++ dec (Z.of_nat n).

Definition integer_of (v : jsval) : num :=
  match v with
  | JNum n => Some n
  | _ => None
  end.

Definition studio : jsval :=
  JObj [("encoding", JStr "FLAC"); ("label", JStr "Studio"); ("tier", JNum 3)].

(** A media server that lists [didl] under every id, with media files
    that cannot be fetched: every probe and every art extraction
    fails. *)
Definition unreachable (didl : jsval) : Env :=
  mkEnv (JStr "http://10.0.0.2") (JStr "5000")
    (fun _ _ _ => None) (fun _ => Some didl) (fun _ _ => None)
    (fun _ _ => studio) (fun _ => "96.0") integer_of readings.

(** The same server with media files of 100 bytes that are served in
    full and whose tags give the bit depth, the date and no picture. *)
Definition tags : jsval :=
  JObj [("format", JObj [("bitsPerSample", JNum 24)]);
        ("common", JObj [("date", JStr "2020")])].

Definition reachable (didl : jsval) : Env :=
  mkEnv (JStr "http://10.0.0.2") (JStr "5000")
    (fun _ _ _ => Some (mkResponse 206 (Some 100) (Some "audio/flac") (Some [x66])))
    (fun _ => Some didl) (fun _ _ => Some tags)
    (fun _ _ => studio) (fun _ => "96.0") integer_of readings.

(** Nodes of a decoded listing: a track, the same track without its
    title, a folder, and the listing that holds given fields. *)
Definition track_a : jsval :=
  JObj [("id", JStr "1"); ("dc:title", JStr "A");
        ("res", JObj [("#text", JStr "http://x/a.flac")])].


Definition track_untitled : jsval :=
  JObj [("id", JStr "1"); ("res", JObj [("#text", JStr "http://x/a.flac")])].

Definition folder : jsval :=
  JObj [("id", JStr "64"); ("parentID", JStr "0"); ("dc:title", JStr "Music");
        ("upnp:class", JStr "object.container"); ("childCount", JNum 3)].

Definition listing (fields : list (string * jsval)) : jsval :=
  JObj [("DIDL-Lite", JObj fields)].

Definition root : jsval := JStr "0".

(** Two items as a snapshot stores them. *)
Definition cached_a : jsval :=
  JObj [("id", JStr "1"); ("title", JStr "A"); ("url", JStr "http://x/a.flac")].

Definition cached_b : jsval :=
  JObj [("id", JStr "2"); ("title", JStr "B"); ("url", JStr "http://x/b.flac")].

(** A database file that holds the two tracks. *)
Definition two_tracks : world :=
  mkWorld
    (Some (Json (JObj [("containers", JArr []);
                       ("items", JArr [cached_a; cached_b]);
                       ("metadata",
                        JObj [("lastUpdated", JStr "T0");
                              ("totalContainers", JNum 0);
                              ("totalItems", JNum 2)])])))
    [] 1 [].

(** A database file that holds the first track and no container. *)
Definition first_track_only : world :=
  mkWorld
    (Some (Json (JObj [("containers", JArr []);
                       ("items", JArr [cached_a]);
                       ("metadata",
                        JObj [("lastUpdated", JStr "T0");
                              ("totalContainers", JNum 0);
                              ("totalItems", JNum 1)])])))
    [] 1 [].

(** The tail of a file: an ID3 tag whose APIC frame declares 27 bytes
    (the encoding, the type a/b, the picture type, an empty
    description and a picture of 20 bytes), followed by four bytes. *)
Definition picture : list byte := list_byte_of_string "0123456789abcdefghij".

Definition frame : list byte :=
  list_byte_of_string "..ID3...APIC" ++ [x00; x00; x00; x1b; x00; x00; x00]
  ++ list_byte_of_string "a/b" ++ [x00; x03; x00] ++ picture
  ++ list_byte_of_string "TAIL".

(** A media server that does not answer the Browse request. *)
Definition offline : Env :=
  mkEnv (JStr "http://10.0.0.2") (JStr "5000")
    (fun _ _ _ => None) (fun _ => None) (fun _ _ => None)
    (fun _ _ => studio) (fun _ => "96.0") integer_of readings.

(** URI builtins that leave every text as it is. *)
Definition plain : Uri :=
  mkUri (fun v => Some (to_string v)) (fun s => Some s).

(** A database file of the back end that holds the first track, and
    one of the front end that holds a track with a stored picture. *)
Definition one_track : world :=
  mkWorld
    (Some (Json (JObj [("containers", JArr []); ("items", JArr [cached_a]);
                       ("lastUpdated", JStr "T0")])))
    [] 1 [].

Definition with_picture : world :=
  mkWorld
    (Some (Json (JObj [("containers", JArr []);
                       ("items",
                        JArr [JObj [("id", JStr "1"); ("title", JStr "A");
                                    ("url", JStr "http://x/a.flac");
                                    ("albumArtUrl",
                                     JStr "http://10.0.0.2:5000/public/album-art/A.gif")]]);
                       ("metadata",
                        JObj [("lastUpdated", JStr "T0");
                              ("totalContainers", JNum 0);
                              ("totalItems", JNum 1)])])))
    ["A.gif"] 1 [].

(** Runs the monad of a goal down to the oracles of the environment. *)
Ltac run :=
  cbv beta iota zeta delta
    [try_catch bind fetchWithTimeout arrayBuffer browseDLNA log lift ret
     throw logged];
  cbn [negb andb orb db art ticks trace fst snd].

(* ================================================================= *)
(** * Properties of values, objects and maps *)

Lemma strict_eq_true (a b : jsval) :
  strict_eq a b = true <-> a = b /\ is_prim a = true.
Proof.
  split.
  - destruct a, b; simpl; intros H; try discriminate; auto.
    + apply Bool.eqb_prop in H. subst. auto.
    + apply Z.eqb_eq in H. subst. auto.
    + apply String.eqb_eq in H. subst. auto.
  - intros [<- Hp]. destruct a; simpl in *; try discriminate; auto.
    + apply Bool.eqb_reflx.
    + apply Z.eqb_refl.
    + apply String.eqb_refl.
Qed.

Lemma strict_eq_refl (a : jsval) : is_prim a = true -> strict_eq a a = true.
Proof. intros H. apply strict_eq_true. auto. Qed.

Lemma strict_eq_sym (a b : jsval) : strict_eq a b = strict_eq b a.
Proof.
  destruct (strict_eq a b) eqn:H1, (strict_eq b a) eqn:H2; try reflexivity.
  - apply strict_eq_true in H1 as [-> Hp]. rewrite strict_eq_refl in H2; auto.
  - apply strict_eq_true in H2 as [-> Hp]. rewrite strict_eq_refl in H1; auto.
Qed.

Lemma strict_eq_prim_false (a b : jsval) :
  is_prim a = true -> strict_eq a b = false -> a <> b.
Proof. intros Hp H ->. rewrite strict_eq_refl in H; auto. discriminate. Qed.

Lemma assoc_set_field_same (k : string) (v : jsval) fs :
  assoc k (set_field k v fs) = v.
Proof.
  induction fs as [|[k' v'] fs IH]; simpl.
  - now rewrite String.eqb_refl.
  - destruct (k =? k')%string eqn:Hk; simpl; rewrite Hk; auto.
Qed.

Lemma assoc_set_field_other (k k' : string) (v : jsval) fs :
  k <> k' -> assoc k' (set_field k v fs) = assoc k' fs.
Proof.
  intros Hne. induction fs as [|[k0 v0] fs IH]; simpl.
  - destruct (k' =? k)%string eqn:Hk; auto.
    apply String.eqb_eq in Hk. congruence.
  - destruct (k =? k0)%string eqn:Hk; simpl.
    + apply String.eqb_eq in Hk. subst k0.
      destruct (k' =? k)%string eqn:Hk'; auto.
      apply String.eqb_eq in Hk'. congruence.
    + rewrite IH. reflexivity.
Qed.


Lemma find_app {A} (p : A -> bool) (l1 l2 : list A) :
  find p (l1 ++ l2) = match find p l1 with
                      | Some x => Some x
                      | None => find p l2
                      end.
Proof.
  induction l1 as [|x l1 IH]; simpl; auto. destruct (p x); auto.
Qed.

Lemma fold_left_map_entries {A B C} (f : A -> B -> A) (g : C -> B) l a :
  fold_left f (map g l) a = fold_left (fun a x => f a (g x)) l a.
Proof. revert a. induction l as [|x l IH]; simpl; auto. Qed.

Lemma map_get_set (k k' v : jsval) (m : jsmap) :
  map_get k (map_set k' v m) = if same_value_zero k' k then v else map_get k m.
Proof.
  induction m as [|[k0 v0] m IH]; simpl.
  - destruct (same_value_zero k' k); reflexivity.
  - destruct (same_value_zero k0 k') eqn:H1; simpl.
    + apply strict_eq_true in H1 as [-> _].
      destruct (same_value_zero k' k); reflexivity.
    + rewrite IH.
      destruct (same_value_zero k0 k) eqn:H2, (same_value_zero k' k) eqn:H3;
        try reflexivity.
      apply strict_eq_true in H2 as [-> Hp]. apply strict_eq_true in H3 as [-> _].
      unfold same_value_zero in H1. rewrite strict_eq_refl in H1; auto.
      discriminate.
Qed.

Lemma last_with_id_cons (a : jsval) (l : list jsval) (k : jsval) :
  last_with_id (a :: l) k =
  match last_with_id l k with
  | Some c => Some c
  | None => if same_value_zero (get "id" a) k then Some a else None
  end.
Proof.
  unfold last_with_id. simpl. rewrite find_app. simpl.
  destruct (find _ (rev l)); auto.
Qed.

Lemma map_get_fold_set (l : list jsval) (m : jsmap) (k : jsval) :
  map_get k (fold_left (fun m i => map_set (get "id" i) i m) l m) =
  match last_with_id l k with
  | Some c => c
  | None => map_get k m
  end.
Proof.
  revert m. induction l as [|a l IH]; intros m; simpl; auto.
  rewrite IH, last_with_id_cons, map_get_set.
  destruct (last_with_id l k); auto.
  destruct (same_value_zero (get "id" a) k); auto.
Qed.

Lemma map_get_map_of (l : list jsval) (k : jsval) :
  map_get k (map_of (map (fun i => (get "id" i, i)) l)) =
  match last_with_id l k with
  | Some c => c
  | None => JUndefined
  end.
Proof.
  unfold map_of. rewrite fold_left_map_entries. simpl.
  apply (map_get_fold_set l [] k).
Qed.

Lemma last_with_id_In (l : list jsval) (k c : jsval) :
  last_with_id l k = Some c ->
  In c l /\ get "id" c = k /\ is_prim k = true.
Proof.
  unfold last_with_id. intros H. apply find_some in H as [Hin Hk].
  apply in_rev in Hin. apply strict_eq_true in Hk as [Hk Hp].
  subst k. auto.
Qed.

Lemma last_with_id_None (l : list jsval) (k : jsval) :
  last_with_id l k = None <->
  forall c, In c l -> same_value_zero (get "id" c) k = false.
Proof.
  unfold last_with_id. split.
  - intros H c Hin. apply (find_none _ _ H). now apply in_rev in Hin.
  - intros H. destruct (find _ (rev l)) eqn:Hf; auto.
    apply find_some in Hf as [Hin Hk]. apply in_rev in Hin.
    rewrite (H _ Hin) in Hk. discriminate.
Qed.

(* ================================================================= *)
(** * The catalog diff *)

(** Reads and callbacks that may raise. *)
Lemma read_readable (k : string) (v : jsval) :
  v <> JNull /\ v <> JUndefined -> read k v = Some (get k v).
Proof. intros [H1 H2]. destruct v; try reflexivity; congruence. Qed.

Lemma read_raises (k : string) (v : jsval) :
  read k v = None <-> v = JNull \/ v = JUndefined.
Proof.
  destruct v; cbn; split; intros H; try discriminate; auto;
    destruct H; discriminate.
Qed.

Lemma readable_or_not (l : list jsval) :
  readable l \/ exists c, In c l /\ (c = JNull \/ c = JUndefined).
Proof.
  induction l as [|x l [IH|[c [Hc Hn]]]].
  - left. constructor.
  - destruct x.
    1, 2: right; eexists; split; [left; reflexivity|auto].
    all: left; constructor; [split; discriminate|exact IH].
  - right. exists c. split; [now right|exact Hn].
Qed.

Lemma readable_In (l : list jsval) (c : jsval) :
  readable l -> In c l -> c <> JNull /\ c <> JUndefined.
Proof. unfold readable. rewrite Forall_forall. auto. Qed.

Lemma readable_filter (keep : jsval -> bool) (l : list jsval) :
  readable l -> readable (filter keep l).
Proof.
  unfold readable. rewrite !Forall_forall. intros H x Hx.
  apply filter_In in Hx as [Hx _]. auto.
Qed.

Lemma map_raising_returns {A B} (f : A -> option B) (g : A -> B) (l : list A) :
  (forall x, In x l -> f x = Some (g x)) -> map_raising f l = Some (map g l).
Proof.
  induction l as [|x l IH]; intros H; cbn; [reflexivity|].
  rewrite (H x) by (now left). rewrite IH; [reflexivity|].
  intros y Hy. apply H. now right.
Qed.

Lemma map_raising_raises {A B} (f : A -> option B) (l : list A) (x : A) :
  In x l -> f x = None -> map_raising f l = None.
Proof.
  induction l as [|y l IH]; intros Hin Hx; [destruct Hin|]. cbn.
  destruct Hin as [->|Hin].
  - now rewrite Hx.
  - rewrite (IH Hin Hx). now destruct (f y).
Qed.

Lemma filter_raising_returns {A} (p : A -> option bool) (q : A -> bool)
  (l : list A) :
  (forall x, In x l -> p x = Some (q x)) ->
  filter_raising p l = Some (filter q l).
Proof.
  induction l as [|x l IH]; intros H; cbn; [reflexivity|].
  rewrite (H x) by (now left). rewrite IH; [reflexivity|].
  intros y Hy. apply H. now right.
Qed.

Lemma filter_raising_raises {A} (p : A -> option bool) (l : list A) (x : A) :
  In x l -> p x = None -> filter_raising p l = None.
Proof.
  induction l as [|y l IH]; intros Hin Hx; [destruct Hin|]. cbn.
  destruct Hin as [->|Hin].
  - now rewrite Hx.
  - rewrite (IH Hin Hx). now destruct (p y).
Qed.

Lemma some_raising_returns {A} (p : A -> option bool) (q : A -> bool)
  (l : list A) :
  (forall x, In x l -> p x = Some (q x)) ->
  some_raising p l = Some (existsb q l).
Proof.
  induction l as [|x l IH]; intros H; cbn; [reflexivity|].
  rewrite (H x) by (now left). destruct (q x); [reflexivity|].
  apply IH. intros y Hy. apply H. now right.
Qed.

(** The diff and the merge return on a readable cache, and the diff
    raises on any other. *)
Lemma id_entry_readable (i : jsval) :
  i <> JNull /\ i <> JUndefined -> FrontEnd.id_entry i = Some (get "id" i, i).
Proof.
  intros H. unfold FrontEnd.id_entry. now rewrite (read_readable "id" i H).
Qed.

Lemma cachedMap_readable (C : list jsval) :
  readable C -> FrontEnd.cachedMap C = Some (id_map C).
Proof.
  intros HC. unfold FrontEnd.cachedMap, id_map.
  rewrite (map_raising_returns FrontEnd.id_entry (fun i => (get "id" i, i)));
    [reflexivity|].
  intros x Hx. apply id_entry_readable. exact (readable_In C x HC Hx).
Qed.

Lemma cachedMap_raises (C : list jsval) (c : jsval) :
  In c C -> c = JNull \/ c = JUndefined -> FrontEnd.cachedMap C = None.
Proof.
  intros Hc Hn. unfold FrontEnd.cachedMap.
  rewrite (map_raising_raises FrontEnd.id_entry C c Hc); [reflexivity|].
  unfold FrontEnd.id_entry. now rewrite (proj2 (read_raises "id" c) Hn).
Qed.

Lemma itemsToScan_readable (R C : list jsval) :
  readable C -> FrontEnd.itemsToScan R C = Some (scan_of R C).
Proof.
  intros HC. unfold FrontEnd.itemsToScan. now rewrite cachedMap_readable.
Qed.

Lemma itemsToScan_raises (R C : list jsval) :
  FrontEnd.itemsToScan R C = None <->
  exists c, In c C /\ (c = JNull \/ c = JUndefined).
Proof.
  split.
  - intros H. destruct (readable_or_not C) as [HC|Hn]; [|exact Hn].
    rewrite itemsToScan_readable in H by assumption. discriminate.
  - intros [c [Hc Hn]]. unfold FrontEnd.itemsToScan.
    now rewrite (cachedMap_raises C c Hc Hn).
Qed.

Lemma itemsToScan_returns (R C scan : list jsval) :
  FrontEnd.itemsToScan R C = Some scan -> readable C /\ scan = scan_of R C.
Proof.
  intros H. destruct (readable_or_not C) as [HC|Hn].
  - rewrite itemsToScan_readable in H by assumption. injection H as <-. auto.
  - apply (proj2 (itemsToScan_raises R C)) in Hn. congruence.
Qed.

Lemma toRemove_readable (R C : list jsval) :
  readable C -> FrontEnd.toRemove R C = Some (removed_of R C).
Proof.
  intros HC. unfold FrontEnd.toRemove, removed_of.
  apply filter_raising_returns. intros x Hx.
  now rewrite (read_readable "id" x (readable_In C x HC Hx)).
Qed.

Lemma toRemove_returns (R C removed : list jsval) :
  FrontEnd.toRemove R C = Some removed -> readable C /\ removed = removed_of R C.
Proof.
  intros H. destruct (readable_or_not C) as [HC|[c [Hc Hn]]].
  - rewrite toRemove_readable in H by assumption. injection H as <-. auto.
  - unfold FrontEnd.toRemove in H.
    rewrite (filter_raising_raises _ C c Hc) in H; [discriminate|].
    now rewrite (proj2 (read_raises "id" c) Hn).
Qed.

Lemma mergedMap_readable (C removed new : list jsval) :
  readable C -> readable removed ->
  FrontEnd.mergedMap C removed new = Some (merged_of C removed new).
Proof.
  intros HC Hr. unfold FrontEnd.mergedMap, merged_of.
  rewrite (filter_raising_returns _
             (fun i => negb (existsb (fun r => strict_eq (get "id" r) (get "id" i))
                               removed))).
  - rewrite (map_raising_returns FrontEnd.id_entry (fun i => (get "id" i, i)));
      [reflexivity|].
    intros x Hx. apply id_entry_readable.
    apply filter_In in Hx as [Hx _]. exact (readable_In C x HC Hx).
  - intros i Hi.
    rewrite (some_raising_returns _
               (fun r => strict_eq (get "id" r) (get "id" i))); [reflexivity|].
    intros r Hin. unfold FrontEnd.same_id.
    now rewrite (read_readable "id" r (readable_In removed r Hr Hin)),
      (read_readable "id" i (readable_In C i HC Hi)).
Qed.


(** What the callback of [itemsToScan] answers on one item. *)
Lemma itemsToScan_In (R C : list jsval) (r : jsval) :
  In r (scan_of R C) <->
  In r R /\
  (truthy (map_get (get "id" r) (id_map C)) = false \/
   strict_eq (get "dc:title" r)
     (get "title" (map_get (get "id" r) (id_map C))) = false \/
   strict_eq (FrontEnd.newUrl r)
     (get "url" (map_get (get "id" r) (id_map C))) = false).
Proof.
  unfold scan_of, FrontEnd.changed. rewrite filter_In.
  set (c := map_get (get "id" r) (id_map C)).
  split; intros [Hin H]; split; auto.
  - destruct (truthy c); simpl in H; auto.
    apply orb_true_iff in H as [H|H]; apply negb_true_iff in H; auto.
  - destruct (truthy c); simpl; auto.
    destruct H as [H|[H|H]]; try discriminate; rewrite H; simpl; auto.
    apply orb_true_r.
Qed.

Lemma cachedMap_get (C : list jsval) (k : jsval) :
  map_get k (id_map C) =
  match last_with_id C k with
  | Some c => c
  | None => JUndefined
  end.
Proof. apply map_get_map_of. Qed.




(** The coarser diff of [back-end/server.js]: a changed title with the
    same ids is no change for [hasChanges]. *)
Example hasChanges_ignores_titles :
  BackEnd.hasChanges
    (JObj [("DIDL-Lite",
            JObj [("item", JObj [("id", JNum 1); ("dc:title", JStr "B")])])])
    (JObj [("items", JArr [JObj [("id", JNum 1); ("title", JStr "A")]])])
  = Some false.
Proof. reflexivity. Qed.

(* ================================================================= *)
(** * The media probe *)

Section ProbeFacts.
Context {E : Env}.

Lemma logged_nil (w : world) : logged w [] = w.
Proof. destruct w. unfold logged. simpl. now rewrite app_nil_r. Qed.

Lemma logged_app (w : world) (e1 e2 : list event) :
  logged (logged w e1) e2 = logged w (e1 ++ e2).
Proof. unfold logged. simpl. now rewrite app_assoc. Qed.

(** The probe issues one request and never raises; its value is
    [null] unless tags were read. *)
Lemma front_getAudioMetadata_run (url : jsval) (w : world) :
  exists v,
    FrontEnd.getAudioMetadata url w =
      (Ok v, logged w [EvFetch url probe_options_front probe_timeout]) /\
    match probe_tags (net url probe_options_front probe_timeout) with
    | None => v = JNull
    | Some meta =>
        v = JObj [("bitDepth", js_or (get "bitsPerSample" (get "format" meta)) JNull);
                  ("sampleRate", js_or (get "sampleRate" (get "format" meta)) JNull);
                  ("bitDepthLabel",
                   if truthy (get "bitsPerSample" (get "format" meta))
                   then JStr (to_string (get "bitsPerSample" (get "format" meta)) ++ "-bit")
                   else JNull);
                  ("sampleRateLabel",
                   if truthy (get "sampleRate" (get "format" meta))
                   then JStr (kHz (get "sampleRate" (get "format" meta)) ++ "kHz")
                   else JNull);
                  ("date", js_or (get "date" (get "common" meta)) JNull);
                  ("composer", js_or (get "composer" (get "common" meta)) JNull);
                  ("lyrics", js_or (get "lyrics" (get "common" meta)) JNull)]
    end.
Proof.
  unfold FrontEnd.getAudioMetadata, probe_tags, probe_options_front, probe_timeout.
  run.
  destruct (net url _ 5000) as [resp|]; run; [|eauto].
  destruct (negb (ok resp) && negb (status resp =? 206)); run; [eauto|].
  destruct (body resp) as [buffer|]; run; [|eauto].
  fold (probe_parse_options resp).
  destruct (parseBuffer buffer (probe_parse_options resp)) as [meta|]; run; eauto.
Qed.

Lemma back_getAudioMetadata_run (url : jsval) (w : world) :
  exists v,
    BackEnd.getAudioMetadata url w =
      (Ok v, logged w [EvFetch url probe_options_back probe_timeout]) /\
    match probe_tags (net url probe_options_back probe_timeout) with
    | None => v = JNull
    | Some meta =>
        v = JObj [("bitDepth", js_or (get "bitsPerSample" (get "format" meta)) JNull);
                  ("sampleRate", js_or (get "sampleRate" (get "format" meta)) JNull);
                  ("bitDepthLabel",
                   if truthy (get "bitsPerSample" (get "format" meta))
                   then JStr (to_string (get "bitsPerSample" (get "format" meta)) ++ "-bit")
                   else JNull);
                  ("sampleRateLabel",
                   if truthy (get "sampleRate" (get "format" meta))
                   then JStr (kHz (get "sampleRate" (get "format" meta)) ++ "kHz")
                   else JNull);
                  ("date", js_or (get "date" (get "common" meta)) JNull);
                  ("composer", js_or (get "composer" (get "common" meta)) JNull);
                  ("lyrics", js_or (get "lyrics" (get "common" meta)) JNull)]
    end.
Proof.
  unfold BackEnd.getAudioMetadata, probe_tags, probe_options_back, probe_timeout.
  run.
  destruct (net url _ 5000) as [resp|]; run; [|eauto].
  destruct (negb (ok resp) && negb (status resp =? 206)); run; [eauto|].
  destruct (body resp) as [buffer|]; run; [|eauto].
  fold (probe_parse_options resp).
  destruct (parseBuffer buffer (probe_parse_options resp)) as [meta|]; run; eauto.
Qed.

End ProbeFacts.

(* ================================================================= *)
(** * The prefix art extraction *)

Section ArtFacts.
Context {E : Env}.

Lemma front_getAlbumArt_run (url : jsval) (w : world) :
  FrontEnd.getAlbumArt url w =
    (Ok (match front_art_tags url with
         | Some meta => picture_of meta
         | None => JNull
         end),
     logged w (front_art_requests url)).
Proof.
  unfold FrontEnd.getAlbumArt, front_art_tags, front_art_requests,
    get_options_front, front_range_end, head_options_front, front_art_timeout,
    picture_of.
  run.
  destruct (net url (mkOptions HEAD None None) 5000) as [head|]; run; auto.
  destruct (ok head); run; auto.
  rewrite <- !app_assoc; simpl.
  destruct (net url _ 1000) as [resp|]; run; auto.
  destruct (negb (ok resp) && negb (status resp =? 206)); run; auto.
  destruct (body resp) as [buffer|]; run; auto.
  destruct (parseBuffer buffer _) as [meta|]; run; auto.
Qed.

Lemma picture_of_shape (meta : jsval) :
  picture_of meta = JNull \/ truthy (picture_of meta) = true.
Proof.
  unfold picture_of. destruct (truthy (FrontEnd.first_picture meta)); simpl; auto.
Qed.

End ArtFacts.

(* ================================================================= *)
(** * The enrichment of one item *)

Section EnrichFacts.
Context {E : Env}.

Lemma bind_run {A B} (c : M A) (k : A -> M B) (w w1 : world) (a : A) :
  c w = (Ok a, w1) -> bind c k w = k a w1.
Proof. intros H. unfold bind. now rewrite H. Qed.

Lemma bind_throw {A B} (c : M A) (k : A -> M B) (w w1 : world) :
  c w = (Throw, w1) -> bind c k w = (Throw, w1).
Proof. intros H. unfold bind. now rewrite H. Qed.

Lemma bind_Ok_inv {A B} (c : M A) (k : A -> M B) (w w' : world) (b : B) :
  bind c k w = (Ok b, w') ->
  exists a w1, c w = (Ok a, w1) /\ k a w1 = (Ok b, w').
Proof.
  unfold bind. destruct (c w) as [[a|] w1]; intros H; [eauto|discriminate].
Qed.

Lemma front_probe_run (url : jsval) (w : world) :
  FrontEnd.getAudioMetadata url w =
    (Ok (front_probe url), logged w [EvFetch url probe_options_front probe_timeout]).
Proof.
  destruct (front_getAudioMetadata_run url w) as [v [H Hv]].
  destruct (front_getAudioMetadata_run url empty_world) as [v0 [H0 Hv0]].
  unfold front_probe, value_of. rewrite H0, H. simpl.
  destruct (probe_tags _); congruence.
Qed.

Lemma truthy_JStr_app (a : string) (c : ascii) (b : string) :
  truthy (JStr (a ++ String c b)) = true.
Proof. destruct a; reflexivity. Qed.

Lemma art_url_truthy (p : string) : truthy (FrontEnd.art_url p) = true.
Proof. unfold FrontEnd.art_url. apply (truthy_JStr_app (to_string IP) ":"). Qed.

Lemma first_cached_run (name : string) (exts : list string) (w : world) :
  exists v,
    FrontEnd.first_cached name exts w = (Ok v, w) /\
    (v = JNull \/ exists p, v = FrontEnd.art_url p) /\
    ((forall ext, In ext exts ->
                  existsb (String.eqb (name ++ "." ++ ext)) (art w) = false) ->
     v = JNull).
Proof.
  induction exts as [|ext exts IH]; simpl.
  - exists JNull. auto.
  - unfold bind, existsSync_art.
    match goal with |- context [existsb ?p (art w)] =>
      destruct (existsb p (art w)) eqn:Hx end.
    + eexists. split; [reflexivity|]. split; [eauto|].
      intros H. specialize (H ext (or_introl eq_refl)). simpl in H. congruence.
    + destruct IH as [v [H1 [H2 H3]]]. exists v. repeat split; auto.
      intros H. apply H3. intros e He. apply H. now right.
Qed.

Lemma saveAlbumArtToFile_run (albumArt : jsval) (file : string) (w : world) :
  exists v w',
    FrontEnd.saveAlbumArtToFile albumArt file w = (Ok v, w') /\
    (v = JNull \/ truthy v = true /\ exists s, v = JStr s) /\
    db w' = db w /\ ticks w' = ticks w.
Proof.
  unfold FrontEnd.saveAlbumArtToFile.
  destruct (get "format" albumArt); run;
    try (exists JNull, w; repeat split; auto; fail).
  unfold existsSync_art, writeFileSync_art.
  match goal with |- context [existsb ?p (art w)] =>
    destruct (existsb p (art w)) end; run;
    [do 2 eexists; split; [reflexivity|]; repeat split; auto;
     right; split; [reflexivity|eauto]|].
  destruct (get "data" albumArt); run;
    try (exists JNull, w; repeat split; auto; fail);
    (do 2 eexists; split; [reflexivity|]; repeat split; auto;
     right; split; [reflexivity|eauto]).
Qed.

End EnrichFacts.

Section EnrichRun.
Context {E : Env}.

Lemma enrich_run (item : jsval) (w : world) :
  match art_name item with
  | None => exists w', FrontEnd.enrich item w = (Throw, w')
  | Some name =>
      exists (artUrl : string) (w' : world),
        FrontEnd.enrich item w = (Ok (enriched item (JStr artUrl)), w') /\
        db w' = db w /\ ticks w' = ticks w /\
        (art_missing name w -> truthy (front_art (get "url" item)) = false ->
         JStr artUrl = placeholder)
  end.
Proof.
  unfold art_name, FrontEnd.enrich.
  rewrite (bind_run _ _ _ _ _ (front_probe_run (get "url" item) w)).
  set (meta := front_probe (get "url" item)).
  set (w1 := logged w _).
  unfold FrontEnd.checkAlbumArtCache.
  destruct (FrontEnd.createFileName _ _ _) as [name|] eqn:Hname.
  - destruct (first_cached_run name ["jpg"; "jpeg"; "png"] w1)
      as [cu [Hcu [Hshape Hmiss]]].
    match goal with
    | |- exists _ _, bind ?c _ w1 = _ /\ _ =>
        assert (Hfirst : c w1 = (Ok cu, w1)) by (run; exact Hcu)
    end.
    rewrite (bind_run _ _ _ _ _ Hfirst).
    match goal with
    | |- exists _ _, bind ?c _ w1 = _ /\ _ =>
        assert (Hart : exists a w',
                   c w1 = (Ok a, w') /\ db w' = db w /\ ticks w' = ticks w /\
                   (a = JNull \/ exists p, a = FrontEnd.art_url p) /\
                   (cu = JNull -> truthy (front_art (get "url" item)) = false ->
                    a = JNull))
    end.
    { destruct Hshape as [-> | [p ->]].
      - cbn [truthy negb]. unfold try_catch.
        rewrite (bind_run _ _ _ _ _ (front_getAlbumArt_run (get "url" item) w1)).
        fold (front_art (get "url" item)).
        destruct (truthy (front_art (get "url" item))) eqn:Ht.
        + run.
          destruct (saveAlbumArtToFile_run (front_art (get "url" item)) name
                      (logged w1 (front_art_requests (get "url" item))))
            as [saved [w2 [Hs [Hsh [Hdb Htk]]]]].
          unfold logged in Hs. rewrite Hs.
          destruct Hsh as [-> | [Hts _]].
          * cbn [truthy]. exists JNull, w2. repeat split; auto.
          * rewrite Hts. eexists _, w2. split; [reflexivity|].
            repeat split; eauto. discriminate.
        + run. eexists JNull, _. split; [reflexivity|]. repeat split; auto.
      - rewrite art_url_truthy. cbn [negb]. run.
        eexists _, _. split; [reflexivity|]. repeat split; eauto. }
    destruct Hart as [a [w' [Ha [Hdb [Htk [Hsh Hdef]]]]]].
    rewrite (bind_run _ _ _ _ _ Ha).
    assert (Hstr : exists s, (if negb (truthy a)
                              then FrontEnd.art_url "/public/default.png"
                              else a) = JStr s /\
                             (a = JNull -> JStr s = placeholder)).
    { destruct Hsh as [-> | [p ->]].
      - cbn [truthy negb]. eexists. split; [reflexivity|]. auto.
      - rewrite art_url_truthy. cbn [negb]. eexists. split; [reflexivity|].
        intros Hp. pose proof (art_url_truthy p) as Ht. rewrite Hp in Ht.
        discriminate. }
    destruct Hstr as [s [Hs Hph]]. exists s, w'.
    unfold ret. rewrite Hs. split; [reflexivity|]. repeat split; auto.
  - run. eauto.
Qed.

End EnrichRun.

(* ================================================================= *)
(** * The transformation of a listing *)

Lemma chunks_fuel_concat {A} (n : nat) (fuel : nat) (l : list A) :
  (0 < n)%nat -> (List.length l <= fuel)%nat ->
  List.concat (chunks_fuel fuel n l) = l.
Proof.
  intros Hn. revert l. induction fuel as [|fuel IH]; intros l Hl.
  - destruct l; [reflexivity|simpl in Hl; lia].
  - destruct l as [|x l]; [reflexivity|].
    cbn [chunks_fuel List.concat]. rewrite IH.
    + apply firstn_skipn.
    + rewrite length_skipn. cbn [List.length] in *. lia.
Qed.

Lemma concat_chunks {A} (n : nat) (l : list A) :
  (0 < n)%nat -> List.concat (chunks n l) = l.
Proof. intros Hn. apply chunks_fuel_concat; auto. Qed.

(** Each result of [mapM] comes from a run of the callback on the
    element at the same place. *)
Lemma mapM_Ok {A B} (f : A -> M B) (l : list A) (w w' : world) (ys : list B) :
  mapM f l w = (Ok ys, w') ->
  Forall2 (fun x y => exists w1 w2, f x w1 = (Ok y, w2)) l ys.
Proof.
  revert w ys. induction l as [|x l IH]; intros w ys H; simpl in H.
  - injection H as <- <-. constructor.
  - unfold bind in H. destruct (f x w) as [[y|] w1] eqn:Hx; [|discriminate].
    destruct (mapM f l w1) as [[ys'|] w2] eqn:Hl; [|discriminate].
    injection H as <- <-. constructor; eauto.
Qed.

Lemma Forall2_concat {A B} (P : A -> B -> Prop) (ls : list (list A))
  (ys : list (list B)) :
  Forall2 (Forall2 P) ls ys -> Forall2 P (List.concat ls) (List.concat ys).
Proof.
  induction 1; simpl; [constructor|]. apply Forall2_app; auto.
Qed.

Section TransformFacts.
Context {E : Env}.

Lemma enrich_Ok (item out : jsval) (w w' : world) :
  FrontEnd.enrich item w = (Ok out, w') ->
  exists s, out = enriched item (JStr s).
Proof.
  intros H. pose proof (enrich_run item w) as Hr.
  destruct (art_name item).
  - destruct Hr as [u [w2 [Hr _]]]. rewrite Hr in H. injection H as <- <-. eauto.
  - destruct Hr as [w2 Hr]. rewrite Hr in H. discriminate.
Qed.

(** The items of the result stand for the items of the listing, place
    by place: rebuilt, and enriched when the metadata is asked for. *)
Lemma transformDIDLData_items (didl : jsval) (flag : bool) (w w' : world)
  (cs items : list jsval) :
  FrontEnd.transformDIDLData didl flag w = (Ok (cs, items), w') ->
  cs = map FrontEnd.toContainer
         (FrontEnd.ensureArray (get "container" (get "DIDL-Lite" didl))) /\
  Forall2 (fun i y =>
             if flag then exists s, y = enriched (FrontEnd.toRawItem i) (JStr s)
             else y = FrontEnd.toRawItem i)
          (FrontEnd.ensureArray (get "item" (get "DIDL-Lite" didl))) items.
Proof.
  unfold FrontEnd.transformDIDLData. destruct flag; cbn [negb].
  - intros H. apply bind_Ok_inv in H as [batches [w1 [Hb H]]].
    unfold ret in H. injection H as <- <- <-. split; auto.
    apply mapM_Ok in Hb.
    set (raw := map FrontEnd.toRawItem _) in *.
    assert (Hc : Forall2 (fun x y => exists s, y = enriched x (JStr s))
                   (List.concat (chunks FrontEnd.LIMIT raw)) (List.concat batches)).
    { apply Forall2_concat. eapply Forall2_impl; [|exact Hb].
      intros xs ys [w2 [w3 Hxs]]. apply mapM_Ok in Hxs.
      eapply Forall2_impl; [|exact Hxs].
      intros x y [w4 [w5 Hx]]. eapply enrich_Ok; eauto. }
    rewrite concat_chunks in Hc by (unfold FrontEnd.LIMIT; lia).
    unfold raw in Hc. clear -Hc.
    remember (map FrontEnd.toRawItem _) as l eqn:Hl.
    revert Hl. generalize (FrontEnd.ensureArray (get "item" (get "DIDL-Lite" didl))).
    induction Hc; intros l0 Hl; destruct l0; simpl in Hl; try discriminate.
    + constructor.
    + injection Hl as -> ->. constructor; auto.
  - unfold ret. intros H. injection H as <- <- <-. split; auto.
    induction (FrontEnd.ensureArray _); simpl; constructor; auto.
Qed.

End TransformFacts.

(* ================================================================= *)
(** * The merge *)

Lemma assoc_spread (k : string) (o : jsval) : assoc k (spread o) = get k o.
Proof. destruct o; reflexivity. Qed.

Lemma assoc_set_if_other (k k' : string) (v : jsval) fs :
  k <> k' -> assoc k' (FrontEnd.set_if k v fs) = assoc k' fs.
Proof.
  intros H. unfold FrontEnd.set_if. destruct (truthy v); auto.
  now apply assoc_set_field_other.
Qed.

Section MergeFacts.
Context {E : Env}.

(** Enriching an item leaves every field of the raw item in place,
    apart from the five that it writes. *)
Lemma get_enriched (item a : jsval) (k : string) :
  k <> "albumArtUrl" -> k <> "quality" -> k <> "date" -> k <> "composer" ->
  k <> "lyrics" ->
  get k (enriched item a) = get k item.
Proof.
  intros H1 H2 H3 H4 H5. unfold enriched. cbn [get].
  destruct (truthy (front_probe (get "url" item))).
  - rewrite !assoc_set_if_other, !assoc_set_field_other by congruence.
    apply assoc_spread.
  - rewrite assoc_set_field_other by congruence. apply assoc_spread.
Qed.

Lemma get_enriched_art (item a : jsval) :
  get "albumArtUrl" (enriched item a) = a.
Proof.
  unfold enriched. cbn [get].
  destruct (truthy (front_probe (get "url" item))).
  - rewrite !assoc_set_if_other, assoc_set_field_other by discriminate.
    apply assoc_set_field_same.
  - apply assoc_set_field_same.
Qed.

Lemma get_enriched_quality (item a : jsval) :
  get "quality" (enriched item a) =
  if truthy (front_probe (get "url" item))
  then quality_of (front_probe (get "url" item)) item
  else get "quality" item.
Proof.
  unfold enriched. cbn [get].
  destruct (truthy (front_probe (get "url" item))).
  - rewrite !assoc_set_if_other by discriminate. apply assoc_set_field_same.
  - rewrite assoc_set_field_other by discriminate. apply assoc_spread.
Qed.

End MergeFacts.

Lemma set_has_true (xs : list jsval) (k : jsval) :
  set_has xs k = true <-> In k xs /\ is_prim k = true.
Proof.
  unfold set_has. rewrite existsb_exists. split.
  - intros [x [Hin Hx]]. apply strict_eq_true in Hx as [-> Hp]. auto.
  - intros [Hin Hp]. exists k. split; auto. now apply strict_eq_refl.
Qed.

Lemma keyed_nil : keyed [].
Proof. split; constructor. Qed.

Lemma map_set_keys (k v : jsval) (m : jsmap) (k0 : jsval) :
  In k0 (map fst (map_set k v m)) <-> k0 = k \/ In k0 (map fst m).
Proof.
  induction m as [|[k1 v1] m IH]; simpl.
  - intuition congruence.
  - destruct (same_value_zero k1 k) eqn:Hk; simpl.
    + apply strict_eq_true in Hk as [-> _]. intuition congruence.
    + rewrite IH. intuition congruence.
Qed.

Lemma map_set_keyed (v : jsval) (m : jsmap) :
  is_prim (get "id" v) = true -> keyed m -> keyed (map_set (get "id" v) v m).
Proof.
  intros Hp [Hk Hn]. induction m as [|[k1 v1] m IH]; simpl.
  - split; repeat constructor; auto.
  - inversion Hk as [|? ? [Hk1 Hp1] Hk']; subst. inversion Hn as [|? ? Hnin Hn']; subst.
    simpl in *. destruct (same_value_zero k1 (get "id" v)) eqn:Hs.
    + apply strict_eq_true in Hs as [Hs _]. split.
      * constructor; [simpl; split; congruence|auto].
      * simpl. constructor; auto.
    + destruct (IH Hk' Hn') as [IH1 IH2]. split.
      * constructor; auto.
      * simpl. constructor; auto. rewrite map_set_keys. intros [->|Hin]; auto.
        unfold same_value_zero in Hs. rewrite strict_eq_refl in Hs; auto.
        discriminate.
Qed.

Lemma In_values_map_set (v : jsval) (m : jsmap) (x : jsval) :
  is_prim (get "id" v) = true -> keyed m ->
  In x (map_values (map_set (get "id" v) v m)) <->
  x = v \/ (In x (map_values m) /\ get "id" x <> get "id" v).
Proof.
  intros Hp [Hk Hn]. unfold map_values. induction m as [|[k1 v1] m IH]; simpl.
  - split; [intros [<-|[]]; auto|intros [->|[[] _]]; auto].
  - inversion Hk as [|? ? [Hk1 Hp1] Hk']; subst. inversion Hn as [|? ? Hnin Hn']; subst.
    simpl in *. destruct (same_value_zero k1 (get "id" v)) eqn:Hs; simpl.
    + apply strict_eq_true in Hs as [Hs _]. split.
      * intros [<-|Hin]; auto. right. split; auto.
        intros Hx. apply Hnin. rewrite Hs, <- Hx.
        rewrite Forall_forall in Hk'. apply in_map_iff in Hin as [[k2 v2] [<- Hin]].
        apply in_map_iff. exists (k2, v2). split; auto.
        destruct (Hk' _ Hin) as [Hq _]. simpl in *. auto.
      * intros [->|[[<-|Hin] Hne]]; auto. congruence.
    + specialize (IH Hk' Hn'). rewrite IH. split.
      * intros [<-|[->|[Hin Hne]]]; auto. right. split; auto.
        intros Hx. unfold same_value_zero in Hs. rewrite Hk1, Hx in Hs.
        rewrite strict_eq_refl in Hs; auto. discriminate.
      * intros [->|[[<-|Hin] Hne]]; auto.
Qed.

Lemma fold_set_keyed (l : list jsval) (m : jsmap) :
  prim_ids l -> keyed m ->
  keyed (fold_left (fun m i => map_set (get "id" i) i m) l m).
Proof.
  intros Hl. revert m. induction Hl as [|a l Ha Hl IH]; intros m Hm; simpl; auto.
  apply IH. now apply map_set_keyed.
Qed.

Lemma In_values_fold_set (l : list jsval) (m : jsmap) (x : jsval) :
  prim_ids l -> keyed m ->
  In x (map_values (fold_left (fun m i => map_set (get "id" i) i m) l m)) <->
  last_with_id l (get "id" x) = Some x \/
  (last_with_id l (get "id" x) = None /\ In x (map_values m)).
Proof.
  intros Hl. revert m. induction Hl as [|a l Ha Hl IH]; intros m Hm.
  - simpl. unfold last_with_id. simpl. intuition discriminate.
  - cbn [fold_left]. rewrite IH by now apply map_set_keyed.
    rewrite last_with_id_cons, In_values_map_set by auto.
    destruct (last_with_id l (get "id" x)) as [c|]; [intuition discriminate|].
    destruct (same_value_zero (get "id" a) (get "id" x)) eqn:Hs.
    + apply strict_eq_true in Hs as [Hs _]. split.
      * intros [H|[_ [->|[_ H]]]]; [discriminate|auto|congruence].
      * intros [H|[H _]]; [|discriminate]. injection H as ->. auto.
    + apply strict_eq_prim_false in Hs; auto. split.
      * intros [H|[_ [->|[H _]]]]; [discriminate|congruence|auto].
      * intros [H|[_ H]]; [discriminate|]. right. split; auto.
Qed.

Lemma kept_eq (R C : list jsval) :
  prim_ids C ->
  filter (fun i =>
            negb (existsb (fun r => strict_eq (get "id" r) (get "id" i))
                    (removed_of R C))) C
  = kept R C.
Proof.
  intros Hp. unfold kept. apply filter_ext_in. intros i Hi.
  unfold prim_ids in Hp. rewrite Forall_forall in Hp.
  destruct (set_has (FrontEnd.dlnaIds R) (get "id" i)) eqn:Hs.
  - apply negb_true_iff. apply not_true_is_false. intros Hx.
    apply existsb_exists in Hx as [r [Hr Hx]].
    apply strict_eq_true in Hx as [Hx _].
    unfold removed_of in Hr. apply filter_In in Hr as [_ Hr].
    rewrite Hx, Hs in Hr. discriminate.
  - apply negb_false_iff. apply existsb_exists. exists i. split.
    + unfold removed_of. apply filter_In. rewrite Hs. auto.
    + apply strict_eq_refl. auto.
Qed.

Lemma prim_ids_filter (p : jsval -> bool) (l : list jsval) :
  prim_ids l -> prim_ids (filter p l).
Proof.
  unfold prim_ids. rewrite !Forall_forall. intros H x Hx.
  apply filter_In in Hx as [Hx _]. auto.
Qed.

(** The merged items are the enriched records, the last one for each
    id, and the kept cached records whose id no enriched record has. *)
Lemma mergedMap_In (R C new : list jsval) (x : jsval) :
  prim_ids C -> prim_ids new ->
  In x (map_values (merged_of C (removed_of R C) new)) <->
  last_with_id new (get "id" x) = Some x \/
  (last_with_id new (get "id" x) = None /\
   last_with_id (kept R C) (get "id" x) = Some x).
Proof.
  intros HC Hnew. unfold merged_of, id_map. rewrite kept_eq by auto.
  unfold map_of. rewrite fold_left_map_entries. cbn [fst snd].
  assert (Hk : prim_ids (kept R C)) by now apply prim_ids_filter.
  rewrite In_values_fold_set by (auto using fold_set_keyed, keyed_nil).
  rewrite In_values_fold_set by (auto using keyed_nil).
  simpl. intuition.
Qed.

Lemma mergedMap_keyed (R C new : list jsval) :
  prim_ids C -> prim_ids new ->
  keyed (merged_of C (removed_of R C) new).
Proof.
  intros HC Hnew. unfold merged_of, id_map. rewrite kept_eq by auto.
  unfold map_of. rewrite fold_left_map_entries. cbn [fst snd].
  apply fold_set_keyed; auto. apply fold_set_keyed; auto using keyed_nil.
  now apply prim_ids_filter.
Qed.

(* ================================================================= *)
(** * The browse handler *)

Lemma diff_not_empty (R C : list jsval) :
  readable C ->
  FrontEnd.itemsToScan R C <> Some [] \/ FrontEnd.toRemove R C <> Some [] ->
  scan_of R C <> [] \/ removed_of R C <> [].
Proof.
  intros HC. rewrite (itemsToScan_readable R C HC), (toRemove_readable R C HC).
  intros [H|H]; [left|right]; intros Hnil; apply H; now rewrite Hnil.
Qed.

Section BrowseFacts.
Context {E : Env}.

Lemma browse_short (id : jsval) (flag : bool) (w w1 : world)
  (cached didl : jsval) (C : list jsval) :
  FrontEnd.readDatabase w = (Ok cached, w1) ->
  dlna id = Some didl ->
  as_array (get "items" cached) = Some C ->
  FrontEnd.itemsToScan
    (FrontEnd.ensureArray (get "item" (get "DIDL-Lite" didl))) C = Some [] ->
  FrontEnd.toRemove
    (FrontEnd.ensureArray (get "item" (get "DIDL-Lite" didl))) C = Some [] ->
  FrontEnd.browse id flag w = (Ok cached, logged w1 [EvBrowse id]).
Proof.
  intros Hread Hdlna Hitems Hscan Hrem. unfold FrontEnd.browse.
  rewrite (bind_run _ _ _ _ _ Hread). run.
  rewrite Hdlna, Hitems. cbn match. rewrite Hscan. cbn match. rewrite Hrem.
  reflexivity.
Qed.

(** A handler that returns has read the id of every cached item. *)
Lemma browse_readable (id : jsval) (flag : bool) (w w1 w' : world)
  (cached didl out : jsval) (C : list jsval) :
  FrontEnd.readDatabase w = (Ok cached, w1) ->
  dlna id = Some didl ->
  as_array (get "items" cached) = Some C ->
  FrontEnd.browse id flag w = (Ok out, w') ->
  readable C.
Proof.
  intros Hread Hdlna Hitems Hrun. unfold FrontEnd.browse in Hrun.
  rewrite (bind_run _ _ _ _ _ Hread) in Hrun. revert Hrun. run.
  rewrite Hdlna, Hitems. cbn match.
  destruct (FrontEnd.itemsToScan _ C) as [scan|] eqn:Hscan; [|discriminate].
  intros _. now apply itemsToScan_returns in Hscan as [HC _].
Qed.

Lemma browse_long (id : jsval) (flag : bool) (w w1 w' : world)
  (cached didl out : jsval) (C : list jsval) :
  FrontEnd.readDatabase w = (Ok cached, w1) ->
  dlna id = Some didl ->
  as_array (get "items" cached) = Some C ->
  scan_of (FrontEnd.ensureArray (get "item" (get "DIDL-Lite" didl))) C <> [] \/
  removed_of (FrontEnd.ensureArray (get "item" (get "DIDL-Lite" didl))) C <> [] ->
  FrontEnd.browse id flag w = (Ok out, w') ->
  let R := FrontEnd.ensureArray (get "item" (get "DIDL-Lite" didl)) in
  let lite := get "DIDL-Lite" didl in
  exists cs new w2,
    FrontEnd.transformDIDLData (filtered lite (scan_of R C)) flag
      (logged w1 [EvBrowse id]) = (Ok (cs, new), w2) /\
    out = merged_snapshot lite cached
            (map_values (merged_of C (removed_of R C) new))
            (clock (ticks w2)) /\
    FrontEnd.writeDatabase out (ticked w2) = (Ok tt, w').
Proof.
  intros Hread Hdlna Hitems Hdiff Hrun R lite.
  pose proof (browse_readable id flag w w1 w' cached didl out C Hread Hdlna
                Hitems Hrun) as HC.
  unfold FrontEnd.browse in Hrun.
  rewrite (bind_run _ _ _ _ _ Hread) in Hrun. revert Hrun. run.
  rewrite Hdlna, Hitems. cbn match. fold R.
  rewrite (itemsToScan_readable R C HC). cbn match.
  rewrite (toRemove_readable R C HC). cbn match.
  assert (Htest : ((List.length (scan_of R C) =? 0)%nat &&
                   (List.length (removed_of R C) =? 0)%nat) = false).
  { apply andb_false_iff. fold R in Hdiff.
    destruct Hdiff as [H|H]; [left|right]; apply Nat.eqb_neq;
      intros H0; apply H; now apply length_zero_iff_nil. }
  rewrite Htest. fold lite.
  destruct (FrontEnd.non_nullish lite) as [l|] eqn:Hl; [|discriminate].
  assert (l = lite) by (destruct lite; simpl in Hl; congruence). subst l.
  fold (filtered lite (scan_of R C)).
  destruct (FrontEnd.transformDIDLData _ flag _) as [[[cs new]|] w2] eqn:Ht;
    [|discriminate].
  cbn [snd].
  rewrite (mergedMap_readable C (removed_of R C) new HC)
    by (apply readable_filter; exact HC).
  cbn match. unfold now. cbn [snd ticks].
  destruct (FrontEnd.non_nullish (FrontEnd.mergedContainers lite cached));
    [|discriminate].
  unfold map_size.
  destruct (FrontEnd.writeDatabase _ _) as [[[]|] w3] eqn:Hw; [|discriminate].
  intros H. injection H as <- <-. exists cs, new, w2.
  split; auto. split.
  - unfold merged_snapshot, map_values. now rewrite List.length_map.
  - exact Hw.
Qed.

End BrowseFacts.

Section MergeTheorem.
Context {E : Env}.

Lemma toRawItem_id (i : jsval) : get "id" (FrontEnd.toRawItem i) = get "id" i.
Proof. reflexivity. Qed.

(** The fresh items of a sync pass carry the ids of the scanned items. *)
Lemma fresh_ids (flag : bool) (scan new : list jsval) :
  Forall2 (fun i y =>
             if flag then exists s, y = enriched (FrontEnd.toRawItem i) (JStr s)
             else y = FrontEnd.toRawItem i) scan new ->
  map (get "id") new = map (get "id") scan.
Proof.
  induction 1 as [|i y scan new Hy Hrest IH]; simpl; auto.
  f_equal; auto. destruct flag.
  - destruct Hy as [s ->]. rewrite get_enriched by discriminate.
    apply toRawItem_id.
  - subst y. apply toRawItem_id.
Qed.

Lemma prim_ids_map (l l' : list jsval) :
  map (get "id") l' = map (get "id") l -> prim_ids l -> prim_ids l'.
Proof.
  unfold prim_ids. rewrite !Forall_forall. intros Hm H x Hx.
  assert (Hin : In (get "id" x) (map (get "id") l)).
  { rewrite <- Hm. now apply in_map. }
  apply in_map_iff in Hin as [y [<- Hy]]. auto.
Qed.

(** C3, as the code has it.  A sync pass that returns has computed the
    items to scan and the items to remove, the cached items whose id
    the remote listing lacks.  When both lists are empty the answer is
    the cached snapshot as it is, containers included, whatever
    containers the listing carries.  Otherwise the pass merges: the
    items of its answer are the cached items whose id occurs in the
    remote listing, overlaid by id with the fresh items, a fresh item
    winning over a cached one; so no item of the answer carries the id
    of a cached item that the remote listing lacks.  The containers of
    a merged answer are those of the remote listing as decoded, or the
    cached ones when the listing carries none. *)
Theorem merge_overlays_fresh_items_on_kept_ones (id : jsval) (flag : bool)
  (w w1 w' : world) (cached didl out : jsval) (C : list jsval)
  (Hread : FrontEnd.readDatabase w = (Ok cached, w1))
  (Hdlna : dlna id = Some didl)
  (Hitems : as_array (get "items" cached) = Some C)
  (HC : prim_ids C)
  (HR : prim_ids (FrontEnd.ensureArray (get "item" (get "DIDL-Lite" didl))))
  (Hrun : FrontEnd.browse id flag w = (Ok out, w')) :
  let R := FrontEnd.ensureArray (get "item" (get "DIDL-Lite" didl)) in
  exists scan removed,
    FrontEnd.itemsToScan R C = Some scan /\
    FrontEnd.toRemove R C = Some removed /\
    (forall c,
       In c removed <->
       In c C /\ set_has (FrontEnd.dlnaIds R) (get "id" c) = false) /\
    (scan = [] -> removed = [] ->
     out = cached /\ w' = logged w1 [EvBrowse id]) /\
    (scan <> [] \/ removed <> [] ->
     exists new merged,
       Forall2 (fun i y =>
                  if flag then exists s, y = enriched (FrontEnd.toRawItem i) (JStr s)
                  else y = FrontEnd.toRawItem i)
               scan new /\
       get "items" out = JArr merged /\
       (forall x,
          In x merged <->
          last_with_id new (get "id" x) = Some x \/
          (last_with_id new (get "id" x) = None /\
           last_with_id (kept R C) (get "id" x) = Some x)) /\
       (forall c x,
          In c C -> set_has (FrontEnd.dlnaIds R) (get "id" c) = false ->
          In x merged -> get "id" x <> get "id" c) /\
       get "containers" out =
         js_or (get "container" (get "DIDL-Lite" didl)) (get "containers" cached)).
Proof.
  intros R.
  pose proof (browse_readable id flag w w1 w' cached didl out C Hread Hdlna
                Hitems Hrun) as Hreadable.
  exists (scan_of R C), (removed_of R C).
  split; [now apply itemsToScan_readable|].
  split; [now apply toRemove_readable|]. split; [|split].
  - intros c. unfold removed_of. rewrite filter_In, negb_true_iff. tauto.
  - intros Hscan Hrem.
    assert (S1 : FrontEnd.itemsToScan R C = Some [])
      by (rewrite (itemsToScan_readable R C Hreadable); now rewrite Hscan).
    assert (S2 : FrontEnd.toRemove R C = Some [])
      by (rewrite (toRemove_readable R C Hreadable); now rewrite Hrem).
    rewrite (browse_short id flag w w1 cached didl C Hread Hdlna Hitems S1 S2)
      in Hrun.
    injection Hrun as <- <-. auto.
  - intros Hdiff.
    destruct (browse_long id flag w w1 w' cached didl out C Hread Hdlna Hitems
                Hdiff Hrun) as [cs [new [w2 [Ht [Hout _]]]]].
    fold R in Ht, Hout.
    apply transformDIDLData_items in Ht as [_ Hnew]. cbn in Hnew.
    assert (Hids : map (get "id") new = map (get "id") (scan_of R C))
      by (eapply fresh_ids; eauto).
    assert (Hscan : prim_ids (scan_of R C))
      by (apply prim_ids_filter; exact HR).
    assert (Hpn : prim_ids new) by (eapply prim_ids_map; eauto).
    assert (Hin : forall x,
              In x (map_values (merged_of C (removed_of R C) new)) <->
              last_with_id new (get "id" x) = Some x \/
              (last_with_id new (get "id" x) = None /\
               last_with_id (kept R C) (get "id" x) = Some x))
      by (intros x; apply mergedMap_In; auto).
    exists new, (map_values (merged_of C (removed_of R C) new)).
    split; [exact Hnew|]. split; [subst out; reflexivity|].
    split; [exact Hin|]. split; [|subst out; reflexivity].
    intros c x Hc Hgone Hx Heq.
    assert (Hhas : set_has (FrontEnd.dlnaIds R) (get "id" x) = true).
    { apply Hin in Hx as [Hx|[_ Hx]]; apply last_with_id_In in Hx as [Hx [_ Hp]].
      - apply set_has_true. split; auto.
        assert (Hi : In (get "id" x) (map (get "id") (scan_of R C))).
        { rewrite <- Hids. now apply in_map. }
        apply in_map_iff in Hi as [r [<- Hr]].
        unfold scan_of in Hr. apply filter_In in Hr as [Hr _].
        unfold FrontEnd.dlnaIds. now apply in_map.
      - unfold kept in Hx. apply filter_In in Hx as [_ Hx]. exact Hx. }
    rewrite Heq, Hgone in Hhas. discriminate.
Qed.

End MergeTheorem.

(* ================================================================= *)
(** * The database helpers *)

Lemma json_obj (fs : list (string * jsval)) :
  json (JObj fs) = JObj (json_fields fs).
Proof. reflexivity. Qed.

Lemma json_fields_defined (k : string) (x : jsval) fs :
  x <> JUndefined -> json_fields ((k, x) :: fs) = (k, json x) :: json_fields fs.
Proof. intros H. destruct x; try reflexivity. congruence. Qed.

Lemma js_or_defined (a b : jsval) : b <> JUndefined -> js_or a b <> JUndefined.
Proof.
  intros Hb. unfold js_or. destruct (truthy a) eqn:Ha; auto.
  intros ->. discriminate.
Qed.

Section DatabaseFacts.
Context {E : Env}.

(** C9.  When the database file is absent, and when it exists but
    holds only blanks, [readDatabase] returns the empty snapshot, with
    empty lists of containers and of items, without raising, and
    writes the initial document to the file. *)
Theorem readDatabase_initialises_absent_or_blank_file
  (files : list string) (n : nat) (tr : list event) :
  FrontEnd.readDatabase (mkWorld None files n tr) =
    (Ok FrontEnd.defaultData,
     mkWorld (Some (Json (initial_document (clock n)))) files (S n)
       (tr ++ [EvDbWrite (initial_document (clock n))])) /\
  FrontEnd.readDatabase (mkWorld (Some Whitespace) files n tr) =
    (Ok FrontEnd.defaultData,
     mkWorld (Some (Json (initial_document (clock n)))) files (S n)
       (tr ++ [EvDbWrite (initial_document (clock n))])) /\
  get "containers" FrontEnd.defaultData = JArr [] /\
  get "items" FrontEnd.defaultData = JArr [].
Proof. repeat split. Qed.

(** X3.  The back end differs: it returns an empty snapshot for an absent
    file without creating it, and raises on a blank one. *)
Lemma back_readDatabase_absent_or_blank
  (files : list string) (n : nat) (tr : list event) :
  BackEnd.readDatabase (mkWorld None files n tr) =
    (Ok (JObj [("containers", JArr []); ("items", JArr []); ("lastUpdated", JNull)]),
     mkWorld None files n tr) /\
  BackEnd.readDatabase (mkWorld (Some Whitespace) files n tr) =
    (Throw, mkWorld (Some Whitespace) files n tr).
Proof. split; reflexivity. Qed.

(** A file that holds a JSON text is read without being written. *)
Lemma readDatabase_json (w : world) (doc : jsval) :
  db w = Some (Json doc) ->
  doc <> JNull ->
  FrontEnd.readDatabase w =
    (Ok (if truthy (get "lastUpdated" doc) && negb (truthy (get "metadata" doc))
         then JObj [("containers", js_or (get "containers" doc) (JArr []));
                    ("items", js_or (get "items" doc) (JArr []));
                    ("metadata", JObj [("lastUpdated", get "lastUpdated" doc)])]
         else doc), w).
Proof.
  intros Hdb Hnull. destruct w as [d a n tr]. simpl in Hdb. subst d.
  unfold FrontEnd.readDatabase, bind, existsSync_db, readFileSync_db.
  cbn [db negb].
  destruct doc; try congruence;
    destruct (truthy _ && negb (truthy _)); reflexivity.
Qed.

(** What [readDatabase] leaves in the file is a JSON text, and it
    consumes at most the clock. *)
Lemma readDatabase_Ok (w w1 : world) (cached : jsval) :
  FrontEnd.readDatabase w = (Ok cached, w1) ->
  (exists doc, db w = Some (Json doc) /\ doc <> JNull /\ w1 = w) \/
  ((db w = None \/ db w = Some Whitespace) /\
   cached = FrontEnd.defaultData /\
   w1 = mkWorld (Some (Json (initial_document (clock (ticks w))))) (art w)
          (S (ticks w))
          (trace w ++ [EvDbWrite (initial_document (clock (ticks w)))])).
Proof.
  destruct w as [d a n tr]. destruct d as [[|doc|]|]; intros H.
  - right. injection H as <- <-. auto.
  - left. exists doc. split; auto.
    assert (Hn : doc <> JNull) by (intros ->; discriminate).
    rewrite (readDatabase_json (mkWorld (Some (Json doc)) a n tr) doc eq_refl Hn)
      in H.
    injection H as _ <-. auto.
  - discriminate.
  - right. injection H as <- <-. auto.
Qed.

Lemma writeDatabase_run (data : jsval) (w : world) :
  data <> JNull /\ data <> JUndefined ->
  FrontEnd.writeDatabase data w =
    (Ok tt,
     mkWorld (Some (Json (stored data (clock (ticks w))))) (art w) (S (ticks w))
       (trace w ++ [EvDbWrite (stored data (clock (ticks w)))])).
Proof.
  intros Hdata. unfold FrontEnd.writeDatabase.
  rewrite !(read_readable _ data Hdata). cbn [lift].
  unfold ret, bind, now, writeFileSync_db. cbn [db art ticks trace].
  rewrite json_obj. rewrite !json_fields_defined by (apply js_or_defined; discriminate).
  cbn [json_fields]. rewrite json_obj.
  rewrite !json_fields_defined
    by (try (apply js_or_defined; discriminate); discriminate).
  reflexivity.
Qed.

(** The counters that [writeDatabase] stores agree with the stored
    lists whenever [containers] and [items] are arrays or are
    replaced by the empty array. *)
Lemma writeDatabase_counted (data : jsval) (t : string) :
  array_or_falsy (get "containers" data) ->
  array_or_falsy (get "items" data) ->
  counted (stored data t).
Proof.
  assert (H : forall v, array_or_falsy v ->
            json (js_or (js_length v) (JNum 0)) =
            js_length (json (js_or v (JArr [])))).
  { intros v [[l ->]|Hv].
    - unfold js_or. cbn [js_length truthy json]. rewrite List.length_map.
      destruct (Z.of_nat (List.length l) =? 0) eqn:Hl; cbn [negb json]; auto.
      apply Z.eqb_eq in Hl. now rewrite Hl.
    - unfold js_or. rewrite Hv.
      destruct v as [| |b|n|s|bs|l|fs]; simpl in *; try discriminate; auto.
      destruct s; [reflexivity|discriminate]. }
  intros Hc Hi. unfold counted, stored. cbn [get assoc String.eqb Ascii.eqb Bool.eqb].
  split; apply H; auto.
Qed.

End DatabaseFacts.

(* ================================================================= *)
(** * The trailing scan for an APIC frame *)

Lemma starts_with_length (pat l : list byte) :
  starts_with pat l = true -> (List.length pat <= List.length l)%nat.
Proof.
  revert l. induction pat as [|p pat IH]; intros l H; simpl; [lia|].
  destruct l as [|x l]; simpl in *; [discriminate|].
  apply andb_true_iff in H as [_ H]. apply IH in H. lia.
Qed.

Lemma find_first_bound (pat l : list byte) (k : nat) :
  find_first pat l = Some k -> (k + List.length pat <= List.length l)%nat.
Proof.
  revert k. induction l as [|x l IH]; intros k H; simpl in H.
  - destruct (starts_with pat []) eqn:Hs; [|discriminate].
    injection H as <-. apply starts_with_length in Hs. simpl in *. lia.
  - destruct (starts_with pat (x :: l)) eqn:Hs.
    + injection H as <-. apply starts_with_length in Hs. lia.
    + destruct (find_first pat l) as [k'|]; [|discriminate].
      injection H as <-. specialize (IH k' eq_refl). simpl. lia.
Qed.

(** A found marker lies inside the buffer, at or after the offset. *)
Lemma indexOf_found (buf pat : list byte) (from : Z) :
  0 <= from -> (0 < List.length pat)%nat ->
  indexOf buf pat from <> -1 ->
  from <= indexOf buf pat from /\
  indexOf buf pat from + Z.of_nat (List.length pat) <= Z.of_nat (List.length buf).
Proof.
  intros Hfrom Hpat. unfold indexOf.
  destruct (from <? 0) eqn:Hneg; [apply Z.ltb_lt in Hneg; lia|].
  destruct (find_first pat (skipn (Z.to_nat from) buf)) as [k|] eqn:Hf;
    [|intros H; congruence].
  intros _. apply find_first_bound in Hf. rewrite length_skipn in Hf. lia.
Qed.

Lemma readUInt32BE_bounds (buf : list byte) (offset size : Z) :
  readUInt32BE buf offset = Some size -> 0 <= size.
Proof.
  unfold readUInt32BE. destruct (_ || _); [discriminate|].
  destruct (skipn _ buf) as [|b0 [|b1 [|b2 [|b3 tl]]]]; try discriminate.
  intros H. injection H as <-. unfold byte_val. lia.
Qed.

Lemma buf_slice_length (buf : list byte) (start end_ : Z) :
  0 <= start <= Z.of_nat (List.length buf) -> 0 <= end_ ->
  Z.of_nat (List.length (buf_slice buf start end_)) =
  Z.max 0 (Z.min end_ (Z.of_nat (List.length buf)) - start).
Proof.
  intros Hs He. unfold buf_slice.
  destruct (start <? 0) eqn:H1; [apply Z.ltb_lt in H1; lia|].
  destruct (end_ <? 0) eqn:H2; [apply Z.ltb_lt in H2; lia|].
  rewrite length_firstn, length_skipn. lia.
Qed.

Lemma buf_slice_nth (buf : list byte) (start end_ : Z) (i : nat) :
  0 <= start <= Z.of_nat (List.length buf) -> 0 <= end_ ->
  (i < List.length (buf_slice buf start end_))%nat ->
  nth_error (buf_slice buf start end_) i = nth_error buf (Z.to_nat start + i).
Proof.
  intros Hs He Hi. pose proof (buf_slice_length buf start end_ Hs He) as Hl.
  unfold buf_slice in *.
  destruct (start <? 0) eqn:H1; [apply Z.ltb_lt in H1; lia|].
  destruct (end_ <? 0) eqn:H2; [apply Z.ltb_lt in H2; lia|].
  rewrite nth_error_firstn, nth_error_skipn.
  replace (Z.to_nat (Z.min start (Z.of_nat (List.length buf)))) with (Z.to_nat start)
    by lia.
  destruct (i <? _)%nat eqn:Hlt; auto.
  apply Nat.ltb_ge in Hlt. rewrite length_firstn, length_skipn in Hi. lia.
Qed.

Section ScanFacts.
Context {E : Env}.

(** [getAlbumArtForDSD] never raises. *)
Lemma getAlbumArtForDSD_total (url : jsval) (w : world) :
  exists v evs, BackEnd.getAlbumArtForDSD url w = (Ok v, logged w evs).
Proof.
  unfold BackEnd.getAlbumArtForDSD. run.
  destruct (net url (mkOptions HEAD None None) 5000) as [head|]; run;
    [|eexists _, _; reflexivity].
  destruct (net url _ 5000) as [resp|]; run;
    [|eexists _, [_; _]; rewrite <- app_assoc; reflexivity].
  destruct (negb (ok resp) && negb (status resp =? 206)); run;
    [eexists _, [_; _]; rewrite <- app_assoc; reflexivity|].
  destruct (body resp) as [buffer|]; run;
    [|eexists _, [_; _]; rewrite <- app_assoc; reflexivity].
  destruct (BackEnd.scanBuffer buffer) as [picture|]; run;
    eexists _, [_; _]; rewrite <- app_assoc; reflexivity.
Qed.

(** It answers the scan of the fetched trailing bytes, and [null]
    when the read of the size field raises. *)
Lemma getAlbumArtForDSD_scan (url : jsval) (w : world) (head resp : response)
  (buffer : list byte) :
  net url (mkOptions HEAD None None) 5000 = Some head ->
  net url (tail_options (content_length head)) 5000 = Some resp ->
  negb (ok resp) && negb (status resp =? 206) = false ->
  body resp = Some buffer ->
  BackEnd.getAlbumArtForDSD url w =
    (Ok (match BackEnd.scanBuffer buffer with
         | Some picture => picture
         | None => JNull
         end),
     logged w [EvFetch url (mkOptions HEAD None None) 5000;
               EvFetch url (tail_options (content_length head)) 5000]).
Proof.
  intros H1 H2 H3 H4. unfold BackEnd.getAlbumArtForDSD, tail_options in *. run.
  rewrite H1. run. rewrite H2. run. rewrite H3. run. rewrite H4. run.
  rewrite <- app_assoc.
  destruct (BackEnd.scanBuffer buffer); reflexivity.
Qed.

(** The trailing scan, as the code has it.  On a buffer that holds the marker ID3,
    after it the marker APIC with four readable size bytes, and a NUL
    after the MIME type and after the description, the scan returns a
    picture whose payload starts just past the NUL of the description
    and stops at the offset of the APIC marker plus the declared size
    (or at the end of the buffer): its length is that difference, not
    the declared size.  On a buffer that lacks one of the two markers
    the scan returns [null]; and [getAlbumArtForDSD] never raises. *)
Theorem scanBuffer_payload_stops_at_marker_plus_size (buffer : list byte) :
  let id3 := indexOf buffer BackEnd.ID3 0 in
  let apic := indexOf buffer BackEnd.APIC id3 in
  let mimeEnd := indexOf buffer BackEnd.NUL (apic + 11) in
  let descEnd := indexOf buffer BackEnd.NUL (mimeEnd + 2) in
  (forall size,
     id3 <> -1 -> apic <> -1 ->
     readUInt32BE buffer (apic + 4) = Some size ->
     mimeEnd <> -1 -> descEnd <> -1 ->
     exists format data,
       BackEnd.scanBuffer buffer =
         Some (JObj [("format", JStr format); ("data", JBuf data);
                     ("description", JStr "Scanned Album Art")]) /\
       data = buf_slice buffer (descEnd + 1) (apic + size) /\
       Z.of_nat (List.length data) =
         Z.max 0 (Z.min (apic + size) (Z.of_nat (List.length buffer))
                  - (descEnd + 1)) /\
       (forall i, (i < List.length data)%nat ->
                  nth_error data i = nth_error buffer (Z.to_nat (descEnd + 1) + i)) /\
       Z.of_nat (List.length data) <= Z.max 0 (size - 14)) /\
  (id3 = -1 \/ apic = -1 -> BackEnd.scanBuffer buffer = Some JNull) /\
  (forall url w, exists v w', BackEnd.getAlbumArtForDSD url w = (Ok v, w')).
Proof.
  intros id3 apic mimeEnd descEnd. split; [|split].
  - intros size Hid3 Hapic Hsize Hmime Hdesc.
    assert (B1 : 0 <= id3 /\ id3 + 3 <= Z.of_nat (List.length buffer))
      by (apply (indexOf_found buffer BackEnd.ID3 0); simpl; auto; lia).
    assert (B2 : id3 <= apic /\ apic + 4 <= Z.of_nat (List.length buffer))
      by (apply (indexOf_found buffer BackEnd.APIC id3); simpl; auto; lia).
    assert (B3 : apic + 11 <= mimeEnd /\ mimeEnd + 1 <= Z.of_nat (List.length buffer))
      by (apply (indexOf_found buffer BackEnd.NUL (apic + 11)); simpl; auto; lia).
    assert (B4 : mimeEnd + 2 <= descEnd /\ descEnd + 1 <= Z.of_nat (List.length buffer))
      by (apply (indexOf_found buffer BackEnd.NUL (mimeEnd + 2)); simpl; auto; lia).
    pose proof (readUInt32BE_bounds _ _ _ Hsize) as B5.
    unfold BackEnd.scanBuffer. fold id3.
    destruct (id3 =? -1) eqn:H1; [apply Z.eqb_eq in H1; contradiction|].
    fold apic.
    destruct (apic =? -1) eqn:H2; [apply Z.eqb_eq in H2; contradiction|].
    rewrite Hsize. cbv zeta.
    replace (apic + 4 + 6 + 1) with (apic + 11) by lia. fold mimeEnd.
    replace (mimeEnd + 1 + 1) with (mimeEnd + 2) by lia. fold descEnd.
    eexists _, _. split; [reflexivity|]. split; [reflexivity|].
    assert (Hlen : Z.of_nat (List.length (buf_slice buffer (descEnd + 1) (apic + size))) =
                   Z.max 0 (Z.min (apic + size) (Z.of_nat (List.length buffer))
                            - (descEnd + 1)))
      by (apply buf_slice_length; lia).
    split; [exact Hlen|]. split; [|lia].
    intros i Hi. apply buf_slice_nth; auto; lia.
  - unfold BackEnd.scanBuffer. fold id3. intros [H|H].
    + rewrite H. reflexivity.
    + destruct (id3 =? -1); auto. fold apic. rewrite H. reflexivity.
  - intros url w. destruct (getAlbumArtForDSD_total url w) as [v [evs H]]. eauto.
Qed.

End ScanFacts.

(* ================================================================= *)
(** * The contract of the probe *)

Section ProbeContract.
Context {E : Env} {U : Uri}.

(** C6, as the code has it.  In both programs [getAudioMetadata]
    returns [null], and does not raise, when the prefix fetch fails,
    when the status is neither a success nor 206, and when the tag
    parse fails; on success each of bitDepth, sampleRate, date,
    composer and lyrics is [null] or not on its own.  The enrichment
    of both programs writes a quality only for an item whose probe
    returned a record: it then carries the labels of the record, and
    ["16-bit"] and ["44.1kHz"] in place of a missing label.  For an
    item whose probe returned [null] no quality is written, hence no
    default label either. *)
Theorem getAudioMetadata_null_on_failure_and_default_labels :
  probe_contract FrontEnd.getAudioMetadata probe_options_front /\
  probe_contract BackEnd.getAudioMetadata probe_options_back /\
  (forall item out w w',
     FrontEnd.enrich item w = (Ok out, w') ->
     let meta := front_probe (get "url" item) in
     FrontEnd.getAudioMetadata (get "url" item) w =
       (Ok meta, logged w [EvFetch (get "url" item) probe_options_front probe_timeout]) /\
     (truthy meta = true ->
      get "bitDepth" (get "quality" out) =
        js_or (get "bitDepthLabel" meta) (JStr "16-bit") /\
      get "sampleRate" (get "quality" out) =
        js_or (get "sampleRateLabel" meta) (JStr "44.1kHz") /\
      (get "bitDepthLabel" meta = JNull ->
       get "bitDepth" (get "quality" out) = JStr "16-bit") /\
      (get "sampleRateLabel" meta = JNull ->
       get "sampleRate" (get "quality" out) = JStr "44.1kHz")) /\
     (truthy meta = false -> get "quality" out = get "quality" item)) /\
  (forall item out w w',
     BackEnd.enrich item w = (Ok out, w') ->
     exists meta,
       BackEnd.getAudioMetadata (get "url" item) w =
         (Ok meta,
          logged w [EvFetch (get "url" item) probe_options_back probe_timeout]) /\
       (truthy meta = true ->
        get "bitDepth" (get "quality" out) =
          js_or (get "bitDepthLabel" meta) (JStr "16-bit") /\
        get "sampleRate" (get "quality" out) =
          js_or (get "sampleRateLabel" meta) (JStr "44.1kHz")) /\
       (truthy meta = false -> get "quality" out = JUndefined)).
Proof.
  split; [|split; [|split]].
  - intros url w. simpl.
    destruct (front_getAudioMetadata_run url w) as [v [Hrun Hv]].
    unfold probe_tags in Hv.
    destruct (net url probe_options_front probe_timeout) as [resp|];
      [|subst v; exact Hrun].
    destruct (negb (ok resp) && negb (status resp =? 206)); [subst v; exact Hrun|].
    destruct (body resp) as [buffer|]; [|subst v; exact Hrun].
    destruct (parseBuffer buffer (probe_parse_options resp)) as [meta|];
      [|subst v; exact Hrun].
    exists v. split; [exact Hrun|]. subst v. repeat split.
  - intros url w. simpl.
    destruct (back_getAudioMetadata_run url w) as [v [Hrun Hv]].
    unfold probe_tags in Hv.
    destruct (net url probe_options_back probe_timeout) as [resp|];
      [|subst v; exact Hrun].
    destruct (negb (ok resp) && negb (status resp =? 206)); [subst v; exact Hrun|].
    destruct (body resp) as [buffer|]; [|subst v; exact Hrun].
    destruct (parseBuffer buffer (probe_parse_options resp)) as [meta|];
      [|subst v; exact Hrun].
    exists v. split; [exact Hrun|]. subst v. repeat split.
  - intros item out w w' Hrun meta. split; [apply front_probe_run|].
    apply enrich_Ok in Hrun as [s ->].
    rewrite get_enriched_quality. fold meta. split; intros Hmeta; rewrite Hmeta.
    + unfold quality_of. cbn [get assoc String.eqb Ascii.eqb Bool.eqb].
      repeat split; auto; intros ->; reflexivity.
    + reflexivity.
  - intros item out w w' Hrun. unfold BackEnd.enrich in Hrun.
    destruct (back_getAudioMetadata_run (get "url" item) w) as [meta [Hm _]].
    rewrite (bind_run _ _ _ _ _ Hm) in Hrun.
    destruct (encodeURIComponent (get "url" item)) as [encoded|]; [|discriminate].
    cbn [lift] in Hrun. unfold ret at 1, bind at 1 in Hrun. unfold ret in Hrun.
    cbv zeta in Hrun. injection Hrun as <- _.
    exists meta. split; [exact Hm|]. split; intros Hmeta; rewrite Hmeta.
    + cbn [get]. rewrite !assoc_set_if_other by discriminate.
      cbn [get assoc String.eqb Ascii.eqb Bool.eqb]. split; reflexivity.
    + reflexivity.
Qed.

End ProbeContract.

(* ================================================================= *)
(** * The requests of the prefix art extraction *)

Section ArtRequests.
Context {E : Env}.

(** X1.  The requests of the prefix extraction.  [FrontEnd.getAlbumArt]
    first sends a HEAD request, then, when it succeeds, a GET for the
    bytes from 0 to the smaller of the size minus one and the cap of
    14505936, and returns the first picture of the parsed tags or
    [null]; the GET is aborted after 1000 ms, which is less than the
    5000 ms of the probe. *)
Theorem getAlbumArt_head_then_ranged_get (url : jsval) (w : world) :
  FrontEnd.getAlbumArt url w =
    (Ok (front_art url), logged w (front_art_requests url)) /\
  (forall head,
     net url head_options_front 5000 = Some head -> ok head = true ->
     front_art_requests url =
       [EvFetch url head_options_front 5000;
        EvFetch url
          (mkOptions GET
             (Some (Some 0,
                    Some (match content_length head with
                          | Some size => Z.min (size - 1) FrontEnd.maxBytes
                          | None => FrontEnd.maxBytes
                          end)))
             None)
          front_art_timeout]) /\
  (forall meta,
     front_art_tags url = Some meta ->
     front_art url =
       (if truthy (FrontEnd.first_picture meta)
        then JObj [("format", get "format" (FrontEnd.first_picture meta));
                   ("data", get "data" (FrontEnd.first_picture meta));
                   ("description",
                    js_or (get "description" (FrontEnd.first_picture meta))
                      (JStr "Album Art"))]
        else JNull)) /\
  FrontEnd.maxBytes = 14505936 /\
  front_art_timeout = 1000 /\ probe_timeout = 5000 /\
  front_art_timeout < probe_timeout.
Proof.
  split; [apply front_getAlbumArt_run|]. split; [|split].
  - intros head Hhead Hok. unfold front_art_requests. rewrite Hhead, Hok.
    reflexivity.
  - intros meta Hmeta. unfold front_art. rewrite Hmeta. reflexivity.
  - repeat split.
Qed.

(** The back end passes 10000 as a [timeout] property of the options,
    where [fetchWithTimeout] does not read it: the GET is aborted
    after the default 5000 ms, the timeout of the probe.  Its range
    ends at the cap, not at the size minus one, for a file of exactly
    [maxBytes] bytes. *)
Lemma back_getAlbumArt_requests (url : jsval) (w : world) (head : response)
  (contentLength : Z) :
  net url head_options_back 5000 = Some head -> ok head = true ->
  content_length head = Some contentLength ->
  exists v,
    BackEnd.getAlbumArt url w =
      (Ok v, logged w [EvFetch url head_options_back 5000;
                       EvFetch url (get_options_back contentLength) 5000]).
Proof.
  intros Hhead Hok Hlen. unfold BackEnd.getAlbumArt, head_options_back,
    get_options_back in *. run.
  rewrite Hhead. run. rewrite Hok. run. rewrite Hlen. run.
  rewrite <- app_assoc. cbn [app].
  match goal with
  | |- context [net url ?o 5000] => destruct (net url o 5000) as [resp|]
  end; run; eauto.
  destruct (negb (ok resp) && negb (status resp =? 206)); run; eauto.
  destruct (body resp) as [buffer|]; run; eauto.
  match goal with
  | |- context [parseBuffer buffer ?o] =>
      destruct (parseBuffer buffer o) as [meta|]
  end; run; eauto.
  destruct (negb (truthy (FrontEnd.first_picture meta))); run; eauto.
Qed.

End ArtRequests.

(* ================================================================= *)
(** * The normalisation of decoded XML *)

Section EnsureArrayFacts.
Context {E : Env}.

(** C10.  [ensureArray] is a total function that returns an array
    unchanged, the empty list for a falsy value (among them [null],
    [undefined], the empty string and 0) and the one-element list for
    any other value; both programs define the same function.  Hence a
    listing whose container, or whose item, was decoded as a lone
    object is transformed as the listing that holds it in a
    one-element array. *)
Theorem ensureArray_wraps_lone_values :
  (forall l, FrontEnd.ensureArray (JArr l) = l) /\
  (forall v, truthy v = false -> FrontEnd.ensureArray v = []) /\
  (FrontEnd.ensureArray JNull = [] /\ FrontEnd.ensureArray JUndefined = [] /\
   FrontEnd.ensureArray (JStr "") = [] /\ FrontEnd.ensureArray (JNum 0) = []) /\
  (forall v, truthy v = true -> (forall l, v <> JArr l) ->
             FrontEnd.ensureArray v = [v]) /\
  (forall v, BackEnd.ensureArray v = FrontEnd.ensureArray v) /\
  (forall fields c x flag,
     truthy c = true -> (forall l, c <> JArr l) ->
     truthy x = true -> (forall l, x <> JArr l) ->
     FrontEnd.transformDIDLData
       (JObj [("DIDL-Lite",
               JObj (set_field "item" x (set_field "container" c fields)))]) flag
     = FrontEnd.transformDIDLData
         (JObj [("DIDL-Lite",
                 JObj (set_field "item" (JArr [x])
                         (set_field "container" (JArr [c]) fields)))]) flag).
Proof.
  assert (Hlone : forall v, truthy v = true -> (forall l, v <> JArr l) ->
                            FrontEnd.ensureArray v = [v]).
  { intros v Hv Hn. unfold FrontEnd.ensureArray. rewrite Hv.
    destruct v; auto. now destruct (Hn elems). }
  split; [reflexivity|]. split.
  { intros v Hv. unfold FrontEnd.ensureArray. rewrite Hv.
    destruct v; auto. discriminate. }
  split; [repeat split|]. split; [exact Hlone|]. split.
  { intros v. unfold BackEnd.ensureArray, FrontEnd.ensureArray.
    destruct v as [| |b|n|s|bs|l|fs]; simpl; auto;
      [destruct b|destruct (n =? 0)|destruct (s =? "")%string]; reflexivity. }
  intros fields c x flag Hc Hnc Hx Hnx. unfold FrontEnd.transformDIDLData.
  cbn [get assoc String.eqb Ascii.eqb Bool.eqb].
  rewrite !assoc_set_field_same.
  rewrite !(assoc_set_field_other "item" "container") by discriminate.
  rewrite !assoc_set_field_same.
  rewrite (Hlone c Hc Hnc), (Hlone x Hx Hnx). reflexivity.
Qed.

End EnsureArrayFacts.

(* ================================================================= *)
(** * The first sync of a listing with one item *)

Section FirstSync.
Context {E : Env}.

Lemma createFileName_string (title : string) (date artist : jsval) :
  exists name, FrontEnd.createFileName (JStr title) date artist = Some name.
Proof.
  unfold FrontEnd.createFileName.
  destruct (truthy artist && negb (strict_eq artist (JStr "Unknown")));
    destruct (truthy date); eauto.
Qed.

Lemma readDatabase_art (w w1 : world) (cached : jsval) :
  FrontEnd.readDatabase w = (Ok cached, w1) -> art w1 = art w.
Proof.
  intros H. apply readDatabase_Ok in H as [[doc [_ [_ ->]]]|[_ [_ ->]]]; auto.
Qed.

(** C7, as the code has it.  The sync of a listing that holds one
    item, whose title is a string, against a cache without items and
    with the metadata asked for answers one item.  Its [albumArtUrl]
    is a string: the placeholder when no art file exists under the
    item's name and the prefix extraction returns no picture.  Its
    quality is present exactly when the probe returned a record, and
    then carries the label of the classifier. *)
Theorem first_sync_of_one_item (id : jsval) (w w1 : world)
  (cached didl i : jsval) (title : string)
  (Hread : FrontEnd.readDatabase w = (Ok cached, w1))
  (Hempty : get "items" cached = JArr [])
  (Hcontainers : truthy (get "containers" cached) = true)
  (Hdlna : dlna id = Some didl)
  (Hone : FrontEnd.ensureArray (get "item" (get "DIDL-Lite" didl)) = [i])
  (Htitle : get "dc:title" i = JStr title) :
  let item := FrontEnd.toRawItem i in
  let meta := front_probe (get "url" item) in
  exists out w' x art_ref,
    FrontEnd.browse id true w = (Ok out, w') /\
    get "items" out = JArr [x] /\
    get "albumArtUrl" x = JStr art_ref /\
    (forall name,
       art_name item = Some name -> art_missing name w ->
       truthy (front_art (get "url" item)) = false ->
       JStr art_ref = placeholder) /\
    (truthy meta = true ->
     get "label" (get "quality" x) =
       get "label" (classifyAudioQuality meta (get "bitrate" item))) /\
    (truthy meta = false -> get "quality" x = JUndefined).
Proof.
  intros item meta.
  assert (Hname : exists name, art_name item = Some name).
  { unfold art_name, item. cbn [FrontEnd.toRawItem get assoc String.eqb
      Ascii.eqb Bool.eqb]. rewrite Htitle.
    assert (Hjs : exists t, js_or (JStr title) (JStr "Unknown") = JStr t)
      by (unfold js_or; destruct (truthy (JStr title)); eauto).
    destruct Hjs as [t ->]. apply createFileName_string. }
  destruct Hname as [name Hname].
  pose proof (enrich_run item (logged w1 [EvBrowse id])) as Hen.
  rewrite Hname in Hen. destruct Hen as [s [w2 [Hen [_ [_ Hph]]]]].
  assert (Hlite : FrontEnd.non_nullish (get "DIDL-Lite" didl)
                  = Some (get "DIDL-Lite" didl)).
  { destruct (get "DIDL-Lite" didl); try reflexivity; discriminate. }
  assert (Hmc : FrontEnd.non_nullish
                  (FrontEnd.mergedContainers (get "DIDL-Lite" didl) cached) <> None).
  { unfold FrontEnd.mergedContainers, js_or.
    destruct (truthy (get "container" (get "DIDL-Lite" didl))) eqn:Hc.
    - destruct (get "container" _); try discriminate.
    - destruct (get "containers" cached); try discriminate. }
  unfold FrontEnd.browse. rewrite (bind_run _ _ _ _ _ Hread). run.
  rewrite Hdlna, Hone, Hempty. cbn [as_array]. run.
  change (FrontEnd.itemsToScan [i] []) with (Some [i]).
  change (FrontEnd.toRemove [i] []) with (Some (@nil jsval)).
  cbn [List.length Nat.eqb andb]. run.
  rewrite Hlite. run.
  unfold FrontEnd.transformDIDLData.
  cbn [get assoc String.eqb Ascii.eqb Bool.eqb FrontEnd.ensureArray map negb].
  fold item. unfold chunks, FrontEnd.LIMIT.
  cbn [List.length chunks_fuel firstn skipn mapM]. run.
  unfold logged in Hen. rewrite Hen. run. cbn [snd List.concat app].
  change (FrontEnd.mergedMap [] [] [enriched item (JStr s)])
    with (Some [(get "id" (enriched item (JStr s)), enriched item (JStr s))]).
  run. unfold now. cbn [ticks snd List.concat app].
  destruct (FrontEnd.non_nullish (FrontEnd.mergedContainers _ cached)) as [c|];
    [|congruence].
  rewrite writeDatabase_run by (split; discriminate). run.
  eexists _, _, (enriched item (JStr s)), s. split; [reflexivity|].
  split; [reflexivity|]. split; [apply get_enriched_art|].
  split.
  - intros name' Hn Hm Hf. rewrite Hname in Hn. injection Hn as <-.
    apply Hph; auto. unfold art_missing in *. cbn [logged art].
    rewrite (readDatabase_art _ _ _ Hread). exact Hm.
  - rewrite get_enriched_quality. fold meta. split; intros Hmeta; rewrite Hmeta.
    + reflexivity.
    + reflexivity.
Qed.

End FirstSync.

(* ================================================================= *)
(** * A second sync of an unchanged listing *)

Lemma truthy_json (x : jsval) : truthy (json x) = truthy x.
Proof. destruct x; reflexivity. Qed.

Lemma json_prim (v : jsval) : is_prim v = true -> v <> JUndefined -> json v = v.
Proof. destruct v; simpl; try discriminate; auto. congruence. Qed.

Lemma assoc_notin (k : string) fs :
  ~ In k (map fst fs) -> assoc k fs = JUndefined.
Proof.
  induction fs as [|[k0 v] fs IH]; simpl; auto. intros H.
  destruct (k =? k0)%string eqn:Hk.
  - apply String.eqb_eq in Hk. subst. tauto.
  - apply IH. tauto.
Qed.

Lemma json_fields_keys (k : string) fs :
  In k (map fst (json_fields fs)) -> In k (map fst fs).
Proof.
  induction fs as [|[k0 v] fs IH]; simpl; auto.
  destruct v; simpl; tauto.
Qed.

Lemma assoc_json_fields (k : string) fs :
  NoDup (map fst fs) -> is_prim (assoc k fs) = true ->
  assoc k (json_fields fs) = assoc k fs.
Proof.
  induction fs as [|[k0 v] fs IH]; simpl; auto. intros Hn Hp.
  inversion Hn as [|? ? Hnin Hn']; subst.
  destruct (k =? k0)%string eqn:Hk.
  - apply String.eqb_eq in Hk. subst k0.
    destruct v; simpl in *; try discriminate; try rewrite String.eqb_refl; auto.
    apply assoc_notin. intros H. apply Hnin. now apply json_fields_keys.
  - destruct v; simpl; try rewrite Hk; auto.
Qed.

Lemma stable_obj fs : NoDup (map fst fs) -> stable (JObj fs).
Proof.
  intros Hn k Hp. rewrite json_obj. cbn [get] in *. now apply assoc_json_fields.
Qed.

Lemma stable_fixed (c : jsval) : json c = c -> stable c.
Proof. intros H k _. now rewrite H. Qed.

Lemma set_field_keys (k : string) (v : jsval) fs (k' : string) :
  In k' (map fst (set_field k v fs)) <-> k' = k \/ In k' (map fst fs).
Proof.
  induction fs as [|[k0 v0] fs IH]; simpl.
  - intuition congruence.
  - destruct (k =? k0)%string eqn:Hk; simpl.
    + apply String.eqb_eq in Hk. subst. intuition congruence.
    + rewrite IH. intuition congruence.
Qed.

Lemma set_field_NoDup (k : string) (v : jsval) fs :
  NoDup (map fst fs) -> NoDup (map fst (set_field k v fs)).
Proof.
  induction fs as [|[k0 v0] fs IH]; simpl; intros Hn.
  - repeat constructor. auto.
  - inversion Hn as [|? ? Hnin Hn']; subst.
    destruct (k =? k0)%string eqn:Hk; simpl.
    + constructor; auto.
    + constructor; auto. rewrite set_field_keys. intros [->|H]; auto.
      rewrite String.eqb_refl in Hk. discriminate.
Qed.

Lemma set_if_NoDup (k : string) (v : jsval) fs :
  NoDup (map fst fs) -> NoDup (map fst (FrontEnd.set_if k v fs)).
Proof.
  unfold FrontEnd.set_if. destruct (truthy v); auto using set_field_NoDup.
Qed.

Lemma get_js_or_empty (k : string) (a : jsval) :
  get k (js_or a (JObj [])) = get k a.
Proof.
  unfold js_or. destruct (truthy a) eqn:Ha; auto.
  destruct a; simpl in *; auto; discriminate.
Qed.

Lemma filter_nil {A} (p : A -> bool) (l : list A) :
  (forall x, In x l -> p x = false) -> filter p l = [].
Proof.
  induction l as [|x l IH]; simpl; auto. intros H.
  rewrite (H x) by auto. apply IH. auto.
Qed.

(** Filtering a list of items with distinct ids leaves distinct ids. *)
Lemma distinct_ids_filter (keep : jsval -> bool) (items : list jsval)
  (Hdistinct : NoDup (map (get "id") items)) :
  NoDup (map (get "id") (filter keep items)).
Proof.
  induction items as [|i items IH]; cbn [filter map] in *; [constructor|].
  apply NoDup_cons_iff in Hdistinct as [Hfresh Hrest].
  destruct (keep i); cbn [map]; [|now apply IH].
  apply NoDup_cons; [|now apply IH].
  rewrite in_map_iff. intros [j [Hid Hj]]. apply Hfresh.
  rewrite in_map_iff. exists j. split; [exact Hid|].
  now apply filter_In in Hj.
Qed.

Lemma NoDup_map_inj {A B} (f : A -> B) (l : list A) (x y : A) :
  NoDup (map f l) -> In x l -> In y l -> f x = f y -> x = y.
Proof.
  induction l as [|a l IH]; simpl; [tauto|]. intros Hn Hx Hy Hf.
  inversion Hn as [|? ? Hnin Hn']; subst.
  destruct Hx as [->|Hx], Hy as [->|Hy]; auto.
  - exfalso. apply Hnin. rewrite Hf. now apply in_map.
  - exfalso. apply Hnin. rewrite <- Hf. now apply in_map.
Qed.

Lemma find_filter {A} (q p : A -> bool) (l : list A) (c : A) :
  find q l = Some c -> p c = true -> find q (filter p l) = Some c.
Proof.
  induction l as [|x l IH]; simpl; [discriminate|]. intros Hf Hp.
  destruct (q x) eqn:Hq.
  - injection Hf as ->. rewrite Hp. simpl. now rewrite Hq.
  - destruct (p x); simpl; auto. rewrite Hq. auto.
Qed.

Lemma filter_rev_comm {A} (p : A -> bool) (l : list A) :
  rev (filter p l) = filter p (rev l).
Proof.
  induction l as [|x l IH]; simpl; auto.
  rewrite filter_app. simpl. destruct (p x); simpl; rewrite IH; auto.
  now rewrite app_nil_r.
Qed.

Lemma last_with_id_filter (p : jsval -> bool) (l : list jsval) (k c : jsval) :
  last_with_id l k = Some c -> p c = true ->
  last_with_id (filter p l) k = Some c.
Proof.
  unfold last_with_id. intros H Hp. rewrite filter_rev_comm.
  now apply find_filter.
Qed.

(** In a list without two items of the same id, an item is the one
    found under its id. *)
Lemma last_with_id_unique (l : list jsval) (x : jsval) :
  NoDup (map (get "id") l) -> In x l -> is_prim (get "id" x) = true ->
  last_with_id l (get "id" x) = Some x.
Proof.
  intros Hn Hin Hp.
  destruct (last_with_id l (get "id" x)) as [c|] eqn:Hc.
  - apply last_with_id_In in Hc as [Hc [Hid _]]. f_equal.
    eapply NoDup_map_inj; eauto.
  - rewrite last_with_id_None in Hc. specialize (Hc x Hin).
    unfold same_value_zero in Hc. rewrite strict_eq_refl in Hc; auto.
    discriminate.
Qed.

(** The diff of a listing against stored items that cover it is empty. *)
Lemma covered_listing_has_empty_diff (R M : list jsval) :
  NoDup (map (get "id") M) -> prim_ids M ->
  (forall x, In x M -> stable x) ->
  (forall x, In x M -> set_has (FrontEnd.dlnaIds R) (get "id" x) = true) ->
  (forall r, In r R ->
     exists x, In x M /\ get "id" x = get "id" r /\ truthy x = true /\
               strict_eq (get "dc:title" r) (get "title" x) = true /\
               strict_eq (FrontEnd.newUrl r) (get "url" x) = true) ->
  scan_of R (map json M) = [] /\
  removed_of R (map json M) = [].
Proof.
  intros Hn Hp Hst Hhas Hcov.
  unfold prim_ids in Hp. rewrite Forall_forall in Hp.
  assert (Hid : forall x, In x M -> get "id" (json x) = get "id" x)
    by (intros x Hx; apply Hst; auto).
  assert (Hids : map (get "id") (map json M) = map (get "id") M).
  { rewrite map_map. apply map_ext_in. exact Hid. }
  split.
  - unfold scan_of. apply filter_nil. intros r Hr. unfold FrontEnd.changed.
    destruct (Hcov r Hr) as [x [Hx [Hxid [Htr [Ht Hu]]]]].
    rewrite cachedMap_get.
    assert (Hl : last_with_id (map json M) (get "id" r) = Some (json x)).
    { rewrite <- Hxid, <- (Hid x Hx). apply last_with_id_unique.
      - now rewrite Hids.
      - now apply in_map.
      - rewrite Hid; auto. }
    rewrite Hl, truthy_json, Htr. cbn [negb].
    apply strict_eq_true in Ht as [Ht Hpt]. apply strict_eq_true in Hu as [Hu Hpu].
    rewrite !(Hst x Hx) by congruence.
    rewrite <- Ht, <- Hu, !strict_eq_refl; auto.
  - unfold removed_of. apply filter_nil. intros y Hy.
    apply in_map_iff in Hy as [x [<- Hx]]. rewrite Hid, Hhas; auto.
Qed.

Section FreshItems.
Context {E : Env}.

Lemma toRawItem_keys (i : jsval) :
  exists fs, FrontEnd.toRawItem i = JObj fs /\ NoDup (map fst fs).
Proof.
  eexists. split; [reflexivity|]. simpl.
  repeat (constructor; [simpl; intuition discriminate|]). constructor.
Qed.

Lemma enriched_keys (item a : jsval) :
  NoDup (map fst (spread item)) ->
  exists fs, enriched item a = JObj fs /\ NoDup (map fst fs).
Proof.
  intros Hn. unfold enriched. eexists. split; [reflexivity|].
  destruct (truthy (front_probe (get "url" item)));
    repeat (apply set_if_NoDup || apply set_field_NoDup); exact Hn.
Qed.

(** What a fresh item keeps of the listed item it was built from. *)
Lemma fresh_item (flag : bool) (i y : jsval) :
  (if flag then exists s, y = enriched (FrontEnd.toRawItem i) (JStr s)
   else y = FrontEnd.toRawItem i) ->
  stable y /\ truthy y = true /\
  get "id" y = get "id" i /\
  get "title" y = js_or (get "dc:title" i) (JStr "Unknown") /\
  get "url" y = FrontEnd.newUrl i.
Proof.
  intros Hy. destruct (toRawItem_keys i) as [fs [Hfs Hn]].
  assert (Hurl : get "url" (FrontEnd.toRawItem i) = FrontEnd.newUrl i)
    by (unfold FrontEnd.newUrl; cbn [FrontEnd.toRawItem get assoc String.eqb
          Ascii.eqb Bool.eqb]; apply (get_js_or_empty "#text")).
  destruct flag.
  - destruct Hy as [s ->].
    destruct (enriched_keys (FrontEnd.toRawItem i) (JStr s)) as [fs' [Hfs' Hn']].
    { rewrite Hfs. exact Hn. }
    rewrite !get_enriched by discriminate. rewrite Hfs'.
    split; [now apply stable_obj|]. repeat split; auto.
  - subst y. rewrite Hfs at 1 2. rewrite <- Hurl.
    split; [now apply stable_obj|]. repeat split; auto.
Qed.

End FreshItems.

Lemma Forall2_In_l {A B} (P : A -> B -> Prop) (l : list A) (l' : list B) (x : A) :
  Forall2 P l l' -> In x l -> exists y, In y l' /\ P x y.
Proof.
  induction 1 as [|a b l l' Hab Hrest IH]; simpl; [tauto|].
  intros [->|Hx]; [eauto|]. destruct (IH Hx) as [y [Hy Hp]]. eauto.
Qed.

Lemma Forall2_In_r {A B} (P : A -> B -> Prop) (l : list A) (l' : list B) (y : B) :
  Forall2 P l l' -> In y l' -> exists x, In x l /\ P x y.
Proof.
  induction 1 as [|a b l l' Hab Hrest IH]; simpl; [tauto|].
  intros [->|Hy]; [eauto|]. destruct (IH Hy) as [x [Hx Hp]]. eauto.
Qed.

Lemma keyed_values (m : jsmap) :
  keyed m ->
  NoDup (map (get "id") (map_values m)) /\ prim_ids (map_values m).
Proof.
  intros [Hk Hn]. unfold map_values, prim_ids.
  assert (Hids : map (get "id") (map snd m) = map fst m).
  { rewrite map_map. apply map_ext_in. intros e He.
    rewrite Forall_forall in Hk. destruct (Hk e He) as [-> _]. reflexivity. }
  split; [now rewrite Hids|].
  rewrite Forall_forall. intros x Hx. apply in_map_iff in Hx as [e [<- He]].
  rewrite Forall_forall in Hk. destruct (Hk e He) as [<- Hp]. auto.
Qed.

Section SecondSync.
Context {E : Env}.

(** After a merge, the stored items cover the listing: each listed
    item finds under its id a stored item with its title and URL, and
    no stored item has an id that the listing lacks. *)
Lemma merged_covers_listing (flag : bool) (R C new : list jsval) :
  well_listed R -> well_cached C ->
  Forall2 (fun i y =>
             if flag then exists s, y = enriched (FrontEnd.toRawItem i) (JStr s)
             else y = FrontEnd.toRawItem i)
          (scan_of R C) new ->
  let M := map_values (merged_of C (removed_of R C) new) in
  NoDup (map (get "id") M) /\ prim_ids M /\
  (forall x, In x M -> stable x) /\
  (forall x, In x M -> set_has (FrontEnd.dlnaIds R) (get "id" x) = true) /\
  (forall r, In r R ->
     exists x, In x M /\ get "id" x = get "id" r /\ truthy x = true /\
               strict_eq (get "dc:title" r) (get "title" x) = true /\
               strict_eq (FrontEnd.newUrl r) (get "url" x) = true).
Proof.
  intros [HR [HnR HtR]] [HC HjC] Hnew M.
  assert (Hids : map (get "id") new = map (get "id") (scan_of R C))
    by (eapply fresh_ids; eauto).
  assert (Hscan : prim_ids (scan_of R C))
    by (apply prim_ids_filter; exact HR).
  assert (Hpn : prim_ids new) by (eapply prim_ids_map; eauto).
  assert (Hnn : NoDup (map (get "id") new)).
  { rewrite Hids. unfold scan_of. now apply distinct_ids_filter. }
  assert (Hin : forall x,
            In x M <->
            last_with_id new (get "id" x) = Some x \/
            (last_with_id new (get "id" x) = None /\
             last_with_id (kept R C) (get "id" x) = Some x))
    by (intros x; apply mergedMap_In; auto).
  assert (HRp : forall r, In r R -> is_prim (get "id" r) = true).
  { unfold prim_ids in HR. rewrite Forall_forall in HR. exact HR. }
  assert (Hlisted : forall r, In r R ->
            set_has (FrontEnd.dlnaIds R) (get "id" r) = true).
  { intros r Hr. apply set_has_true. split; auto.
    unfold FrontEnd.dlnaIds. now apply in_map. }
  assert (Hsub : forall r, In r (scan_of R C) -> In r R).
  { intros r Hr. unfold scan_of in Hr.
    now apply filter_In in Hr as [Hr _]. }
  destruct (keyed_values _ (mergedMap_keyed R C new HC Hpn)) as [K1 K2].
  split; [exact K1|]. split; [exact K2|]. split; [|split].
  - intros x Hx. apply Hin in Hx as [Hx|[_ Hx]];
      apply last_with_id_In in Hx as [Hx _].
    + destruct (Forall2_In_r _ _ _ _ Hnew Hx) as [i [_ Hi]].
      now apply (fresh_item flag i x).
    + unfold kept in Hx. apply filter_In in Hx as [Hx _].
      rewrite Forall_forall in HjC. apply stable_fixed. auto.
  - intros x Hx. apply Hin in Hx as [Hx|[_ Hx]];
      apply last_with_id_In in Hx as [Hx _].
    + destruct (Forall2_In_r _ _ _ _ Hnew Hx) as [i [Hi Hf]].
      destruct (fresh_item flag i x Hf) as [_ [_ [-> _]]]. auto.
    + unfold kept in Hx. now apply filter_In in Hx as [_ Hx].
  - intros r Hr. rewrite Forall_forall in HtR.
    destruct (HtR r Hr) as [Htt [Htp Hup]].
    set (c := map_get (get "id" r) (id_map C)).
    destruct (if negb (truthy c) then true
              else negb (strict_eq (get "dc:title" r) (get "title" c))
                   || negb (strict_eq (FrontEnd.newUrl r) (get "url" c)))
      eqn:Hpred.
    + assert (Hrs : In r (scan_of R C)).
      { unfold scan_of. apply filter_In. split; auto. }
      destruct (Forall2_In_l _ _ _ _ Hnew Hrs) as [y [Hy Hf]].
      destruct (fresh_item flag r y Hf) as [_ [Hty [Hid [Htitle Hurl]]]].
      exists y. split; [|split; [exact Hid|split; [exact Hty|]]].
      * apply Hin. left. apply last_with_id_unique; auto.
        rewrite Hid. auto.
      * rewrite Htitle, Hurl. unfold js_or. rewrite Htt.
        split; apply strict_eq_refl; auto.
    + destruct (truthy c) eqn:Htc; [|discriminate]. cbn [negb] in Hpred.
      apply orb_false_iff in Hpred as [Ht Hu].
      apply negb_false_iff in Ht. apply negb_false_iff in Hu.
      unfold c in Htc, Ht, Hu. rewrite cachedMap_get in Htc, Ht, Hu.
      destruct (last_with_id C (get "id" r)) as [c0|] eqn:Hc0; [|discriminate].
      pose proof (last_with_id_In _ _ _ Hc0) as [Hc0in [Hc0id _]].
      exists c0. split; [|auto].
      apply Hin. right. rewrite Hc0id. split.
      * apply last_with_id_None. intros y Hy.
        destruct (same_value_zero (get "id" y) (get "id" r)) eqn:Hs; auto.
        exfalso. apply strict_eq_true in Hs as [Hs _].
        destruct (Forall2_In_r _ _ _ _ Hnew Hy) as [r' [Hr' Hf]].
        destruct (fresh_item flag r' y Hf) as [_ [_ [Hid' _]]].
        assert (r' = r).
        { eapply (NoDup_map_inj (get "id") R); eauto. congruence. }
        subst r'. unfold scan_of in Hr'.
        apply filter_In in Hr' as [_ Hr']. unfold FrontEnd.changed in Hr'.
        fold c in Hr'.
        unfold c in Hr'. rewrite cachedMap_get, Hc0, Htc in Hr'.
        cbn [negb] in Hr'. rewrite Ht, Hu in Hr'. discriminate.
      * apply last_with_id_filter; auto. rewrite Hc0id. auto.
Qed.

Lemma json_readable (x : jsval) :
  x <> JNull /\ x <> JUndefined -> json x <> JNull /\ json x <> JUndefined.
Proof.
  intros [H1 H2]. destruct x; cbn; try (split; discriminate); congruence.
Qed.

Lemma truthy_readable (x : jsval) :
  truthy x = true -> x <> JNull /\ x <> JUndefined.
Proof. intros H. split; intros ->; discriminate. Qed.

(** The merged items are readable when the cached ones are, also once
    they were written to the file and read back. *)
Lemma merged_readable (flag : bool) (R C new : list jsval) :
  prim_ids C -> prim_ids R -> readable C ->
  Forall2 (fun i y =>
             if flag then exists s, y = enriched (FrontEnd.toRawItem i) (JStr s)
             else y = FrontEnd.toRawItem i)
          (scan_of R C) new ->
  readable (map json (map_values (merged_of C (removed_of R C) new))).
Proof.
  intros HC HR Hread Hnew.
  assert (Hids : map (get "id") new = map (get "id") (scan_of R C))
    by (eapply fresh_ids; eauto).
  assert (Hpn : prim_ids new).
  { eapply prim_ids_map; eauto. now apply prim_ids_filter. }
  unfold readable. rewrite Forall_forall. intros y Hy.
  apply in_map_iff in Hy as [x [<- Hx]]. apply json_readable.
  apply (mergedMap_In R C new x HC Hpn) in Hx as [Hx|[_ Hx]];
    apply last_with_id_In in Hx as [Hx _].
  - destruct (Forall2_In_r _ _ _ _ Hnew Hx) as [i [_ Hi]].
    destruct (fresh_item flag i x Hi) as [_ [Ht _]]. now apply truthy_readable.
  - unfold kept in Hx. apply filter_In in Hx as [Hx _].
    exact (readable_In C x Hread Hx).
Qed.

End SecondSync.

Section Idempotence.
Context {E : Env}.

Lemma itemsToScan_empty_cache (R : list jsval) : scan_of R [] = R.
Proof.
  unfold scan_of. induction R as [|r R IH]; simpl; auto.
  f_equal. exact IH.
Qed.

Lemma readDatabase_stored (data : jsval) (t : string) (w : world) :
  db w = Some (Json (stored data t)) ->
  FrontEnd.readDatabase w = (Ok (stored data t), w).
Proof.
  intros Hdb. rewrite (readDatabase_json w (stored data t) Hdb) by discriminate.
  reflexivity.
Qed.

(** The part of C2 that the handler keeps.  When a sync finds nothing
    to scan and nothing to remove, the handler answers with the
    snapshot that [readDatabase] returned, sends no request besides
    the Browse one and writes nothing after [readDatabase], which
    itself writes only to initialise an absent or blank file; a file
    that holds a JSON text is left as it is.  For a listing whose
    items have distinct primitive ids, non-empty titles and primitive
    URLs, and a cache of items with primitive ids, a sync that follows
    a successful sync of the same listing finds both sets empty: it
    sends the Browse request only and leaves the database file, the
    art files and the clock untouched. *)
Lemma unchanged_listing_is_answered_from_cache (id : jsval) (flag : bool)
  (w w0 : world) (cached didl : jsval) (C : list jsval)
  (Hread : FrontEnd.readDatabase w = (Ok cached, w0))
  (Hdlna : dlna id = Some didl)
  (Hitems : as_array (get "items" cached) = Some C) :
  let R := FrontEnd.ensureArray (get "item" (get "DIDL-Lite" didl)) in
  (FrontEnd.itemsToScan R C = Some [] -> FrontEnd.toRemove R C = Some [] ->
   FrontEnd.browse id flag w = (Ok cached, logged w0 [EvBrowse id]) /\
   (forall doc, db w = Some (Json doc) -> w0 = w)) /\
  (well_listed R -> well_cached C ->
   forall out1 w1,
     FrontEnd.browse id flag w = (Ok out1, w1) ->
     exists out2,
       FrontEnd.browse id flag w1 = (Ok out2, logged w1 [EvBrowse id])).
Proof.
  intros R. split.
  - intros Hscan Hrem. split; [now apply (browse_short id flag w w0 cached didl C)|].
    intros doc Hdoc.
    apply readDatabase_Ok in Hread as [[doc' [_ [_ ->]]]|[[Hn|Hn] _]];
      congruence.
  - intros HR HC out1 w1 Hrun.
    pose proof (browse_readable id flag w w0 w1 cached didl out1 C Hread Hdlna
                  Hitems Hrun) as Hreadable.
    assert (Hafter : forall new,
              Forall2 (fun i y =>
                         if flag
                         then exists s, y = enriched (FrontEnd.toRawItem i) (JStr s)
                         else y = FrontEnd.toRawItem i)
                      (scan_of R C) new ->
              let M := map_values (merged_of C (removed_of R C) new) in
              FrontEnd.itemsToScan R (map json M) = Some [] /\
              FrontEnd.toRemove R (map json M) = Some []).
    { intros new Hnew M.
      destruct (merged_covers_listing flag R C new HR HC Hnew)
        as [M1 [M2 [M3 [M4 M5]]]].
      destruct (covered_listing_has_empty_diff R _ M1 M2 M3 M4 M5) as [D1 D2].
      assert (HM : readable (map json M)).
      { destruct HR as [HR _]. destruct HC as [HC _].
        now apply (merged_readable flag R C new). }
      rewrite (itemsToScan_readable R _ HM), (toRemove_readable R _ HM).
      fold M in D1, D2. now rewrite D1, D2. }
    assert (Hcases : (scan_of R C = [] /\ removed_of R C = []) \/
                     (scan_of R C <> [] \/ removed_of R C <> [])).
    { destruct (scan_of R C); [destruct (removed_of R C)|];
        [left; auto|right; right; discriminate|right; left; discriminate]. }
    destruct Hcases as [[Hscan Hrem]|Hdiff].
    + (* the first sync was answered from the cache *)
      assert (S1 : FrontEnd.itemsToScan R C = Some [])
        by (rewrite (itemsToScan_readable R C Hreadable); now rewrite Hscan).
      assert (S2 : FrontEnd.toRemove R C = Some [])
        by (rewrite (toRemove_readable R C Hreadable); now rewrite Hrem).
      rewrite (browse_short id flag w w0 cached didl C Hread Hdlna Hitems
                 S1 S2) in Hrun.
      injection Hrun as <- <-.
      pose proof Hread as Hr0.
      apply readDatabase_Ok in Hr0 as [[doc [Hdb [Hnull ->]]]|[_ [-> ->]]].
      * exists cached.
        apply (browse_short id flag _ (logged w [EvBrowse id]) cached didl C);
          auto.
        rewrite (readDatabase_json w doc Hdb Hnull) in Hread.
        injection Hread as <-.
        now rewrite (readDatabase_json (logged w [EvBrowse id]) doc Hdb Hnull).
      * cbn in Hitems. injection Hitems as <-.
        eexists. eapply (browse_short id flag _ _ _ didl []); eauto;
          try (apply (readDatabase_stored FrontEnd.defaultData); reflexivity);
          try reflexivity.
    + (* the first sync merged *)
      destruct (browse_long id flag w w0 w1 cached didl out1 C Hread Hdlna
                  Hitems Hdiff Hrun) as [cs [new [w2 [Ht [Hout Hw]]]]].
      fold R in Ht, Hout.
      rewrite writeDatabase_run in Hw by (rewrite Hout; split; discriminate).
      injection Hw as <-.
      apply transformDIDLData_items in Ht as [_ Hnew]. cbn in Hnew.
      destruct (Hafter new Hnew) as [D1 D2].
      eexists. refine (browse_short id flag _ _ _ didl _ _ Hdlna _ D1 D2).
      * apply (readDatabase_stored out1). reflexivity.
      * rewrite Hout. reflexivity.
Qed.

End Idempotence.

(* ================================================================= *)
(** * Concrete runs *)


(** A titled track: its second sync is answered from the cache. *)
Lemma second_sync_of_a_titled_track_writes_nothing :
  exists out1 w1 out2,
    @FrontEnd.browse (reachable (listing [("item", track_a)])) root true
      empty_world = (Ok out1, w1) /\
    @FrontEnd.browse (reachable (listing [("item", track_a)])) root true w1 =
      (Ok out2, logged w1 [EvBrowse root]).
Proof.
  eassert (Hread : @FrontEnd.readDatabase (reachable (listing [("item", track_a)]))
                     empty_world = (Ok _, _)) by (vm_compute; reflexivity).
  eassert (Hrun : @FrontEnd.browse (reachable (listing [("item", track_a)])) root true
                    empty_world = (Ok _, _)) by (vm_compute; reflexivity).
  pose proof (@unchanged_listing_is_answered_from_cache
                (reachable (listing [("item", track_a)])) root true empty_world
                _ _ _ [] Hread eq_refl eq_refl) as [_ H].
  assert (HR : well_listed [track_a]).
  { split; [|split]; repeat constructor; simpl; tauto. }
  assert (HC : well_cached []) by (split; constructor).
  destruct (H HR HC _ _ Hrun) as [out2 H2].
  eexists _, _, out2. split; [exact Hrun|exact H2].
Defined.

(** C2 fails on a listing that holds an item without a title.  Its
    first sync stores the item under the title Unknown; the second
    sync of the same listing compares the missing title with the
    stored one, finds the item to scan, merges, and writes the file
    again: the stored items are the same and the time is another. *)
Example untitled_item_is_scanned_at_every_sync :
  exists out1 w1 doc1 C1 out2 w2 doc2,
    @FrontEnd.browse (unreachable (listing [("item", track_untitled)])) root false
      empty_world = (Ok out1, w1) /\
    db w1 = Some (Json doc1) /\
    get "items" doc1 = JArr C1 /\
    FrontEnd.itemsToScan [track_untitled] C1 = Some [track_untitled] /\
    FrontEnd.toRemove [track_untitled] C1 = Some [] /\
    @FrontEnd.browse (unreachable (listing [("item", track_untitled)])) root false
      w1 = (Ok out2, w2) /\
    db w2 = Some (Json doc2) /\
    get "items" doc2 = get "items" doc1 /\
    get "lastUpdated" (get "metadata" doc1) = JStr "T2" /\
    get "lastUpdated" (get "metadata" doc2) = JStr "T4" /\
    trace w2 = trace w1 ++ [EvBrowse root; EvDbWrite doc2].
Proof.
  eexists _, _, _, _, _, _, _.
  (split; [vm_compute; reflexivity|]).
  (split; [reflexivity|]). (split; [reflexivity|]).
  (split; [reflexivity|]). (split; [reflexivity|]).
  (split; [vm_compute; reflexivity|]).
  repeat split.
Qed.

(** C3 on two cached tracks: the one that the listing no longer holds
    is removed. *)
Lemma merge_overlays_fresh_items_on_kept_ones_witness :
  exists out w' merged,
    @FrontEnd.browse (unreachable (listing [("item", track_a)])) root false
      two_tracks = (Ok out, w') /\
    get "items" out = JArr merged /\
    ~ In (get "id" cached_b) (map (get "id") merged).
Proof.
  assert (HC : prim_ids [cached_a; cached_b]) by (repeat constructor).
  assert (HR : prim_ids [track_a]) by (repeat constructor).
  eassert (Hread : @FrontEnd.readDatabase (unreachable (listing [("item", track_a)]))
                     two_tracks = (Ok _, _)) by (vm_compute; reflexivity).
  eassert (Hrun : @FrontEnd.browse (unreachable (listing [("item", track_a)])) root
                    false two_tracks = (Ok _, _)) by (vm_compute; reflexivity).
  destruct (@merge_overlays_fresh_items_on_kept_ones
              (unreachable (listing [("item", track_a)])) root false two_tracks
              _ _ _ _ _ [cached_a; cached_b] Hread eq_refl eq_refl HC HR Hrun)
    as [scan [removed [_ [Hrem [_ [_ Hmerge]]]]]].
  injection Hrem as <-.
  destruct Hmerge as [new [merged [_ [Hitems [_ [Hgone _]]]]]];
    [right; discriminate|].
  eexists _, _, merged. split; [exact Hrun|]. split; [exact Hitems|].
  intros Hin. apply in_map_iff in Hin as [x [Hid Hx]].
  apply (Hgone cached_b x); simpl; auto.
Defined.

(** C3 as stated fails on a pass that finds nothing to scan and
    nothing to remove: the listing carries a folder and the one
    cached track, the cache holds the track and no container, and the
    answer is the cached snapshot, without the folder. *)
Lemma new_folder_is_not_answered_while_the_items_are_unchanged :
  FrontEnd.itemsToScan [track_a] [cached_a] = Some [] /\
  FrontEnd.toRemove [track_a] [cached_a] = Some [] /\
  get "container"
    (get "DIDL-Lite" (listing [("container", folder); ("item", track_a)]))
    = folder /\
  exists out w',
    @FrontEnd.browse
      (unreachable (listing [("container", folder); ("item", track_a)]))
      root false first_track_only = (Ok out, w') /\
    get "containers" out = JArr [] /\
    db w' = db first_track_only.
Proof.
  split; [reflexivity|]. split; [reflexivity|]. split; [reflexivity|].
  eexists _, _. split; [vm_compute; reflexivity|]. split; reflexivity.
Qed.

(** C5 fails on every well-formed frame, and here on one that
    declares 27 bytes and carries a picture of 20 bytes just past the
    NUL of the description: the frame ends 10 bytes after its size,
    at the offset of the marker plus 10 plus 27, and the scan stops at
    the offset of the marker plus 27, so that it returns the first 10
    bytes of the picture. *)
Example scan_returns_ten_of_twenty_bytes :
  indexOf frame BackEnd.ID3 0 = 2 /\
  indexOf frame BackEnd.APIC 2 = 8 /\
  readUInt32BE frame (8 + 4) = Some 27 /\
  indexOf frame BackEnd.NUL (8 + 11) = 22 /\
  indexOf frame BackEnd.NUL (22 + 2) = 24 /\
  buf_slice frame (24 + 1) (8 + 10 + 27) = picture /\
  List.length picture = 20%nat /\
  BackEnd.scanBuffer frame =
    Some (JObj [("format", JStr "a/b");
                ("data", JBuf (list_byte_of_string "0123456789"));
                ("description", JStr "Scanned Album Art")]) /\
  List.length (list_byte_of_string "0123456789") = 10%nat.
Proof. repeat split. Qed.

(** The frame above: the payload stops 10 bytes after its start. *)
Lemma scanBuffer_payload_stops_at_marker_plus_size_witness :
  exists format data,
    BackEnd.scanBuffer frame =
      Some (JObj [("format", JStr format); ("data", JBuf data);
                  ("description", JStr "Scanned Album Art")]) /\
    Z.of_nat (List.length data) = 10.
Proof.
  destruct (proj1 (@scanBuffer_payload_stops_at_marker_plus_size
                     (unreachable (listing [])) frame) 27)
    as [format [data [Hscan [_ [Hlen _]]]]];
    try (vm_compute; discriminate); try reflexivity.
  exists format, data. split; [exact Hscan|]. rewrite Hlen. reflexivity.
Defined.

(** C6 on tags with a bit depth and no sample rate: the label of the
    record and the default label. *)
Lemma getAudioMetadata_null_on_failure_and_default_labels_witness :
  exists out w',
    @FrontEnd.enrich (reachable (listing [("item", track_a)]))
      (FrontEnd.toRawItem track_a) empty_world = (Ok out, w') /\
    get "bitDepth" (get "quality" out) = JStr "24-bit" /\
    get "sampleRate" (get "quality" out) = JStr "44.1kHz".
Proof.
  eassert (Hrun : @FrontEnd.enrich (reachable (listing [("item", track_a)]))
                    (FrontEnd.toRawItem track_a) empty_world = (Ok _, _))
    by (vm_compute; reflexivity).
  destruct (proj1 (proj2 (proj2
              (@getAudioMetadata_null_on_failure_and_default_labels
                 (reachable (listing [("item", track_a)])) plain))) _ _ _ _ Hrun)
    as [_ [H _]].
  destruct (H eq_refl) as [Hb [_ [_ Hs]]].
  eexists _, _. split; [exact Hrun|]. split; [exact Hb|]. apply Hs. reflexivity.
Defined.

(** C6 as stated fails when the probe fails: both labels are missing
    and the enrichment substitutes neither default, the item being
    left without a quality. *)
Lemma unprobed_item_gets_no_default_label :
  @front_probe (unreachable (listing [("item", track_a)]))
    (get "url" (FrontEnd.toRawItem track_a)) = JNull /\
  exists out w',
    @FrontEnd.enrich (unreachable (listing [("item", track_a)]))
      (FrontEnd.toRawItem track_a) empty_world = (Ok out, w') /\
    get "quality" out = JUndefined /\
    get "bitDepth" (get "quality" out) = JUndefined /\
    get "sampleRate" (get "quality" out) = JUndefined.
Proof.
  split; [reflexivity|].
  eexists _, _. split; [vm_compute; reflexivity|]. repeat split.
Qed.

(** C7 as stated fails: when the media file cannot be fetched, the
    one item of the answer has the placeholder as its art and no
    quality at all, hence no label. *)
Lemma first_sync_unreachable_item_has_no_quality :
  exists out w' x,
    @FrontEnd.browse (unreachable (listing [("item", track_a)])) root true
      empty_world = (Ok out, w') /\
    get "items" out = JArr [x] /\
    get "albumArtUrl" x = JStr "http://10.0.0.2:5000/public/default.png" /\
    get "quality" x = JUndefined /\
    get "label" (get "quality" x) = JUndefined.
Proof.
  eexists _, _, _. split; [vm_compute; reflexivity|]. repeat split.
Qed.

(** C7 on one track whose file can be fetched. *)
Lemma first_sync_of_one_item_witness :
  exists out w' x art_ref,
    @FrontEnd.browse (reachable (listing [("item", track_a)])) root true
      empty_world = (Ok out, w') /\
    get "items" out = JArr [x] /\
    get "albumArtUrl" x = JStr art_ref /\
    get "label" (get "quality" x) = JStr "Studio".
Proof.
  eassert (Hread : @FrontEnd.readDatabase (reachable (listing [("item", track_a)]))
                     empty_world = (Ok _, _)) by (vm_compute; reflexivity).
  destruct (@first_sync_of_one_item (reachable (listing [("item", track_a)])) root
              empty_world _ _ _ track_a "A" Hread eq_refl eq_refl eq_refl eq_refl
              eq_refl)
    as [out [w' [x [art_ref [Hrun [Hitems [Hart [_ [Hq _]]]]]]]]].
  exists out, w', x, art_ref. split; [exact Hrun|]. split; [exact Hitems|].
  split; [exact Hart|]. apply Hq. reflexivity.
Defined.

(** C10 on a lone decoded item. *)
Lemma ensureArray_wraps_lone_values_witness :
  truthy track_a = true /\ FrontEnd.ensureArray track_a = [track_a].
Proof.
  split; [reflexivity|].
  apply (proj1 (proj2 (proj2 (proj2 (@ensureArray_wraps_lone_values
                                       (unreachable (listing [])))))));
    [reflexivity|discriminate].
Defined.

(** C4 fails on a listing with exactly one container: the handler
    stores the lone decoded object as [containers], which has no
    length, next to the count 0. *)
Example lone_container_is_stored_with_count_zero :
  exists out w' doc,
    @FrontEnd.browse (unreachable (listing [("container", folder); ("item", track_a)]))
      root false empty_world = (Ok out, w') /\
    db w' = Some (Json doc) /\
    get "containers" doc = folder /\
    js_length (get "containers" doc) = JUndefined /\
    get "totalContainers" (get "metadata" doc) = JNum 0.
Proof.
  eexists _, _, _. split; [vm_compute; reflexivity|]. repeat split.
Qed.

(** C8 fails on every URL whose HEAD request succeeds: the ranged
    GET of [FrontEnd.getAlbumArt] is aborted after 1000 ms, the fetch
    of the probe after 5000 ms. *)
Example art_request_is_aborted_before_the_probe_would_be :
  exists v w' m w'',
    @FrontEnd.getAlbumArt (reachable (listing [])) (JStr "http://x/a.flac")
      empty_world = (Ok v, w') /\
    trace w' =
      [EvFetch (JStr "http://x/a.flac") (mkOptions HEAD None None) 5000;
       EvFetch (JStr "http://x/a.flac")
         (mkOptions GET (Some (Some 0, Some 99)) None) 1000] /\
    @FrontEnd.getAudioMetadata (reachable (listing [])) (JStr "http://x/a.flac")
      empty_world = (Ok m, w'') /\
    trace w'' =
      [EvFetch (JStr "http://x/a.flac")
         (mkOptions GET (Some (Some 0, Some 9000)) None) 5000] /\
    1000 < 5000.
Proof.
  eexists _, _, _, _. split; [vm_compute; reflexivity|].
  split; [reflexivity|]. split; [vm_compute; reflexivity|].
  split; reflexivity.
Qed.

(* ================================================================= *)
(** * The address of the host *)

Lemma scan_interface_none (hostIP : jsval) (iface : list jsval) :
  no_external iface -> FrontEnd.scan_interface hostIP iface = hostIP.
Proof.
  induction iface as [|info tl IH]; intros H; simpl; auto.
  rewrite (H info) by (now left). apply IH. intros x Hx. apply H. now right.
Qed.

Lemma scan_interface_first (hostIP info : jsval) (a b : list jsval) :
  no_external a -> FrontEnd.external_ipv4 info = true ->
  FrontEnd.scan_interface hostIP (a ++ info :: b) = get "address" info.
Proof.
  induction a as [|x a IH]; intros Ha Hi; simpl.
  - now rewrite Hi.
  - rewrite (Ha x) by (now left). apply IH; auto.
    intros y Hy. apply Ha. now right.
Qed.

Lemma hostIP_skips (h : jsval) (post : list (list jsval)) :
  Forall no_external post -> fold_left FrontEnd.scan_interface post h = h.
Proof.
  revert h. induction post as [|iface post IH]; intros h H; simpl; auto.
  inversion H; subst. rewrite scan_interface_none by assumption. now apply IH.
Qed.

(** X4.  The host address is that of the last interface which has an
    external IPv4 address, and there the first such address: the
    [break] leaves the inner loop only.  It stays 0.0.0.0 when no
    interface has one. *)
Theorem hostIP_is_the_first_external_address_of_the_last_interface
  (pre post : list (list jsval)) (a b : list jsval) (info : jsval)
  (Ha : no_external a)
  (Hinfo : FrontEnd.external_ipv4 info = true)
  (Hpost : Forall no_external post) :
  FrontEnd.hostIP (pre ++ (a ++ info :: b) :: post) = get "address" info /\
  FrontEnd.hostIP post = JStr "0.0.0.0".
Proof.
  unfold FrontEnd.hostIP. split; [|now apply hostIP_skips].
  rewrite fold_left_app. cbn [fold_left].
  rewrite scan_interface_first by assumption. now apply hostIP_skips.
Qed.

(** Two interfaces with an external address each: the second one
    gives the host address. *)
Lemma hostIP_is_the_first_external_address_of_the_last_interface_witness :
  FrontEnd.hostIP
    [[JObj [("family", JStr "IPv4"); ("internal", JBool false);
            ("address", JStr "192.168.1.5")]];
     [JObj [("family", JStr "IPv6"); ("internal", JBool false);
            ("address", JStr "fe80::1")];
      JObj [("family", JStr "IPv4"); ("internal", JBool false);
            ("address", JStr "10.8.0.2")]];
     [JObj [("family", JStr "IPv4"); ("internal", JBool true);
            ("address", JStr "127.0.0.1")]]]
  = JStr "10.8.0.2".
Proof.
  assert (Ha : no_external
                 [JObj [("family", JStr "IPv6"); ("internal", JBool false);
                        ("address", JStr "fe80::1")]])
    by (intros x [<-|[]]; reflexivity).
  assert (Hpost : Forall no_external
                    [[JObj [("family", JStr "IPv4"); ("internal", JBool true);
                            ("address", JStr "127.0.0.1")]]])
    by (repeat constructor; intros x [<-|[]]; reflexivity).
  exact (proj1 (hostIP_is_the_first_external_address_of_the_last_interface
                  [[JObj [("family", JStr "IPv4"); ("internal", JBool false);
                          ("address", JStr "192.168.1.5")]]]
                  _ _ []
                  (JObj [("family", JStr "IPv4"); ("internal", JBool false);
                         ("address", JStr "10.8.0.2")])
                  Ha eq_refl Hpost)).
Defined.

(* ================================================================= *)
(** * The label of a bit rate *)

Section BitrateFacts.
Context {E : Env}.

(** X5.  [formatBitrate] answers [null] for a falsy bit rate and for one
    that [parseInt] does not read.  A reading up to 1000 is printed
    as it is; a larger one is printed in thousands, rounded to the
    nearest with the halves up, so that 1000 reads 1000kbps and 1001
    reads 1kbps.  Both programs define the same function. *)
Theorem formatBitrate_prints_readings_above_1000_in_thousands
  (bitrate : jsval) :
  (truthy bitrate = false -> FrontEnd.formatBitrate bitrate = JNull) /\
  (parseInt bitrate = None -> FrontEnd.formatBitrate bitrate = JNull) /\
  (forall n,
     truthy bitrate = true -> parseInt bitrate = Some n ->
     (n <= 1000 -> FrontEnd.formatBitrate bitrate = JStr (dec n ++ "kbps")) /\
     (1000 < n ->
      exists k,
        FrontEnd.formatBitrate bitrate = JStr (dec k ++ "kbps") /\
        1000 * k - 500 <= n < 1000 * k + 500 /\ 1 <= k <= n / 1000 + 1)) /\
  BackEnd.formatBitrate bitrate = FrontEnd.formatBitrate bitrate.
Proof.
  unfold FrontEnd.formatBitrate, BackEnd.formatBitrate.
  split; [intros ->; reflexivity|].
  split; [intros ->; now destruct (truthy bitrate)|].
  split; [|reflexivity].
  intros n -> ->. cbn [negb]. split; intros Hn.
  - destruct (1000 <? n) eqn:Hlt; [apply Z.ltb_lt in Hlt; lia|reflexivity].
  - destruct (1000 <? n) eqn:Hlt; [|apply Z.ltb_ge in Hlt; lia].
    exists ((n + 500) / 1000). split; [reflexivity|].
    pose proof (Z.div_mod (n + 500) 1000 ltac:(lia)) as Hd.
    pose proof (Z.mod_pos_bound (n + 500) 1000 ltac:(lia)) as Hm.
    pose proof (Z.div_mod n 1000 ltac:(lia)) as Hd'.
    pose proof (Z.mod_pos_bound n 1000 ltac:(lia)) as Hm'.
    repeat split; lia.
Qed.

End BitrateFacts.

(* ================================================================= *)
(** * The name of an art file *)

Lemma every_char_app (p : ascii -> bool) (a b : string) :
  every_char p (a ++ b) = every_char p a && every_char p b.
Proof.
  induction a as [|c a IH]; simpl; auto. rewrite IH. now rewrite andb_assoc.
Qed.

Lemma every_char_remove (p : ascii -> bool) (s : string) :
  every_char (fun c => negb (p c)) (remove_chars p s) = true.
Proof.
  induction s as [|c s IH]; simpl; auto.
  destruct (p c) eqn:Hc; simpl; auto. now rewrite Hc.
Qed.

Lemma every_char_squeeze (p : ascii -> bool) (b : bool) (s : string) :
  p " "%char = true -> every_char p s = true -> every_char p (squeeze b s) = true.
Proof.
  intros Hsp. revert b. induction s as [|c s IH]; intros b H; simpl in *; auto.
  apply andb_true_iff in H as [Hc Hs].
  destruct (is_space c); [destruct b|]; simpl; rewrite ?Hsp, ?Hc; simpl; auto.
Qed.

Lemma trim_start_suffix (s : string) : exists a, s = (a ++ trim_start s)%string.
Proof.
  induction s as [|c s [a IH]]; simpl.
  - now exists "".
  - destruct (is_space c).
    + exists (String c a). simpl. now f_equal.
    + now exists "".
Qed.

Lemma list_ascii_app (a b : string) :
  list_ascii_of_string (a ++ b) = list_ascii_of_string a ++ list_ascii_of_string b.
Proof. induction a as [|c a IH]; simpl; auto. now rewrite IH. Qed.

Lemma string_of_list_app (a b : list ascii) :
  string_of_list_ascii (a ++ b) =
  (string_of_list_ascii a ++ string_of_list_ascii b)%string.
Proof. induction a as [|c a IH]; simpl; auto. now rewrite IH. Qed.

Lemma rev_string_app (a b : string) :
  rev_string (a ++ b) = (rev_string b ++ rev_string a)%string.
Proof.
  unfold rev_string. now rewrite list_ascii_app, rev_app_distr, string_of_list_app.
Qed.

Lemma rev_string_involutive (s : string) : rev_string (rev_string s) = s.
Proof.
  unfold rev_string.
  now rewrite list_ascii_of_string_of_list_ascii, rev_involutive,
    string_of_list_ascii_of_string.
Qed.

(** [trim] keeps a part of the string: what it drops is in front and
    behind. *)
Lemma trim_infix (s : string) : exists a b, s = (a ++ trim s ++ b)%string.
Proof.
  unfold trim. destruct (trim_start_suffix s) as [a Ha].
  destruct (trim_start_suffix (rev_string (trim_start s))) as [b Hb].
  exists a, (rev_string b).
  rewrite <- rev_string_app, <- Hb, rev_string_involutive. exact Ha.
Qed.

Lemma substring_prefix (n : nat) (s : string) : exists b, s = (substring 0 n s ++ b)%string.
Proof.
  revert s. induction n as [|n IH]; intros s.
  - exists s. now destruct s.
  - destruct s as [|c s]; simpl; [now exists ""|].
    destruct (IH s) as [b Hb]. exists b. now f_equal.
Qed.

Lemma substring_length_le (n : nat) (s : string) :
  (String.length (substring 0 n s) <= n)%nat.
Proof.
  revert s. induction n as [|n IH]; intros s.
  - destruct s; simpl; lia.
  - destruct s as [|c s]; simpl; [lia|]. specialize (IH s). lia.
Qed.

Lemma single_spaced_squeeze (b : bool) (s : string) :
  single_spaced b (squeeze b s) = true.
Proof.
  revert b. induction s as [|c s IH]; intros b; simpl; auto.
  destruct (is_space c) eqn:Hc.
  - destruct b; [apply IH|]. simpl. apply IH.
  - simpl. rewrite Hc. apply IH.
Qed.

Lemma single_spaced_weaken (b : bool) (s : string) :
  single_spaced b s = true -> single_spaced false s = true.
Proof.
  destruct s as [|c s]; simpl; auto.
  destruct (is_space c); auto. destruct b; simpl; auto. discriminate.
Qed.

Lemma single_spaced_suffix (b : bool) (a s : string) :
  single_spaced b (a ++ s) = true -> single_spaced false s = true.
Proof.
  revert b. induction a as [|c a IH]; intros b; simpl.
  - apply single_spaced_weaken.
  - destruct (is_space c).
    + intros H. apply andb_true_iff in H as [_ H]. eapply IH; eauto.
    + apply IH.
Qed.

Lemma single_spaced_prefix (b : bool) (s z : string) :
  single_spaced b (s ++ z) = true -> single_spaced b s = true.
Proof.
  revert b. induction s as [|c s IH]; intros b; simpl; auto.
  destruct (is_space c).
  - intros H. apply andb_true_iff in H as [H1 H2]. rewrite H1. simpl. eauto.
  - apply IH.
Qed.

Lemma trim_start_no_blank (s : string) :
  single_spaced false (trim_start s) = true ->
  single_spaced true (trim_start s) = true.
Proof.
  induction s as [|c s IH]; simpl; auto.
  destruct (is_space c) eqn:Hc; auto. simpl. now rewrite Hc.
Qed.

Lemma single_spaced_trim (s : string) :
  single_spaced false s = true -> single_spaced true (trim s) = true.
Proof.
  intros H. unfold trim.
  destruct (trim_start_suffix s) as [a Ha].
  assert (H1 : single_spaced true (trim_start s) = true).
  { apply trim_start_no_blank. rewrite Ha in H.
    eapply single_spaced_suffix; eauto. }
  destruct (trim_start_suffix (rev_string (trim_start s))) as [b Hb].
  apply (f_equal rev_string) in Hb.
  rewrite rev_string_involutive, rev_string_app in Hb.
  rewrite Hb in H1. eapply single_spaced_prefix; eauto.
Qed.

Section FileNameFacts.
Context {E : Env}.

(** X6.  The name that [createFileName] returns has at most 200
    characters and none of the characters that the first [replace]
    removes; its blanks are plain spaces, no two of them are
    adjacent, and it does not start with one.  (It may end with one:
    the name is trimmed before it is cut.) *)
Theorem createFileName_returns_a_short_clean_name
  (title date artist : jsval) (name : string)
  (Hname : FrontEnd.createFileName title date artist = Some name) :
  (String.length name <= 200)%nat /\
  every_char (fun c => negb (unsafe_char c)) name = true /\
  single_spaced true name = true.
Proof.
  unfold FrontEnd.createFileName in Hname.
  match type of Hname with
  | match ?n with _ => _ end = _ => destruct n as [| | | |s| | |]; try discriminate
  end.
  injection Hname as <-.
  set (clean := squeeze false (remove_chars unsafe_char s)).
  destruct (substring_prefix 200 (trim clean)) as [z Hz].
  split; [apply substring_length_le|]. split.
  - assert (Hc : every_char (fun c => negb (unsafe_char c)) clean = true)
      by (apply every_char_squeeze; [reflexivity|apply every_char_remove]).
    destruct (trim_infix clean) as [a [b Hab]].
    rewrite Hab, !every_char_app in Hc.
    apply andb_true_iff in Hc as [_ Hc]. apply andb_true_iff in Hc as [Hc _].
    rewrite Hz, every_char_app in Hc. now apply andb_true_iff in Hc as [Hc _].
  - assert (Hs : single_spaced true (trim clean) = true)
      by (apply single_spaced_trim, single_spaced_squeeze).
    rewrite Hz in Hs. eapply single_spaced_prefix; eauto.
Qed.

End FileNameFacts.

(** A clean name for a title with forbidden characters and blanks. *)
Lemma createFileName_returns_a_short_clean_name_witness :
  exists name,
    FrontEnd.createFileName (JStr "What?   A/B ") (JStr "2020") (JStr "AC/DC")
      = Some name /\
    name = "ACDC - What AB (2020)" /\
    every_char (fun c => negb (unsafe_char c)) name = true /\
    single_spaced true name = true.
Proof.
  eexists. split; [reflexivity|]. split; [reflexivity|].
  exact (proj2 (createFileName_returns_a_short_clean_name
                  (JStr "What?   A/B ") (JStr "2020") (JStr "AC/DC") _ eq_refl)).
Defined.

(* ================================================================= *)
(** * The art files *)

Lemma string_app_inv_head (a x y : string) :
  (a ++ x)%string = (a ++ y)%string -> x = y.
Proof. induction a as [|c a IH]; simpl; auto. intros H. injection H. auto. Qed.

Section ArtFileFacts.
Context {E : Env}.

Lemma first_cached_found (name : string) (exts : list string) (w : world) :
  (exists ext, In ext exts /\
               existsb (String.eqb (name ++ "." ++ ext)) (art w) = true) ->
  exists p, FrontEnd.first_cached name exts w = (Ok (FrontEnd.art_url p), w).
Proof.
  induction exts as [|e exts IH]; intros [ext [Hin Hx]]; [destruct Hin|].
  simpl. unfold bind, existsSync_art.
  match goal with |- context [existsb ?p (art w)] =>
    destruct (existsb p (art w)) eqn:He end.
  - eexists. reflexivity.
  - apply IH. destruct Hin as [->|Hin].
    + simpl in Hx. congruence.
    + eauto.
Qed.

Lemma first_cached_missing (name : string) (exts : list string) (w : world) :
  (forall ext, In ext exts ->
               existsb (String.eqb (name ++ "." ++ ext)) (art w) = false) ->
  FrontEnd.first_cached name exts w = (Ok JNull, w).
Proof.
  intros H. destruct (first_cached_run name exts w) as [v [Hrun [_ Hnull]]].
  now rewrite Hrun, (Hnull H).
Qed.

(** What [saveAlbumArtToFile] does for a picture whose format is the
    string [f]. *)
Lemma saveAlbumArtToFile_string (albumArt : jsval) (filename f : string)
  (w : world) :
  get "format" albumArt = JStr f ->
  let ext := match nth_error (split_on "/" f) 1 with
             | Some e => if (e =? "")%string then "jpg" else e
             | None => "jpg"
             end in
  let fullName := (filename ++ "." ++ ext)%string in
  FrontEnd.saveAlbumArtToFile albumArt filename w =
    if existsb (String.eqb fullName) (art w)
    then (Ok (JStr ("/public/album-art/" ++ fullName)), w)
    else match get "data" albumArt with
         | JStr _ | JBuf _ =>
             (Ok (JStr ("/public/album-art/" ++ fullName)),
              mkWorld (db w) (fullName :: art w) (ticks w)
                (trace w ++ [EvArtWrite fullName]))
         | _ => (Ok JNull, w)
         end.
Proof.
  intros Hf ext fullName. unfold FrontEnd.saveAlbumArtToFile. rewrite Hf. run.
  unfold existsSync_art, writeFileSync_art. fold ext. fold fullName.
  destruct (existsb (String.eqb fullName) (art w)); [reflexivity|].
  destruct (get "data" albumArt); reflexivity.
Qed.

(** X7.  [saveAlbumArtToFile] never raises, leaves the database and the
    clock alone and deletes no art file.  For a picture without a
    string format it answers [null] and writes nothing.  Otherwise the
    extension is the text between the first and the second slash of
    the format, and jpg when that text is missing or empty.  A file
    that exists under the name is kept as it is, nothing being
    written, and its path is the answer.  When none exists, the data
    of the picture are written and the path is the answer if they are
    a buffer or a string; for any other data nothing is written and
    the answer is [null]. *)
Theorem saveAlbumArtToFile_keeps_an_existing_file
  (albumArt : jsval) (filename : string) (w : world) :
  exists v w',
    FrontEnd.saveAlbumArtToFile albumArt filename w = (Ok v, w') /\
    db w' = db w /\ ticks w' = ticks w /\
    (forall name, In name (art w) -> In name (art w')) /\
    ((forall f, get "format" albumArt <> JStr f) -> v = JNull /\ w' = w) /\
    (forall f,
       get "format" albumArt = JStr f ->
       exists ext,
         ext <> "" /\
         (forall e, nth_error (split_on "/" f) 1 = Some e -> e <> "" -> ext = e) /\
         (nth_error (split_on "/" f) 1 = None \/
          nth_error (split_on "/" f) 1 = Some "" -> ext = "jpg") /\
         (existsb (String.eqb (filename ++ "." ++ ext)) (art w) = true ->
          v = JStr ("/public/album-art/" ++ filename ++ "." ++ ext) /\
          w' = w) /\
         (existsb (String.eqb (filename ++ "." ++ ext)) (art w) = false ->
          ((exists bytes, get "data" albumArt = JBuf bytes) \/
           (exists text, get "data" albumArt = JStr text) ->
           v = JStr ("/public/album-art/" ++ filename ++ "." ++ ext) /\
           art w' = (filename ++ "." ++ ext)%string :: art w /\
           trace w' = trace w ++ [EvArtWrite (filename ++ "." ++ ext)]) /\
          ((forall bytes, get "data" albumArt <> JBuf bytes) ->
           (forall text, get "data" albumArt <> JStr text) ->
           v = JNull /\ w' = w))).
Proof.
  destruct (get "format" albumArt) as [| | | |f| | |] eqn:Hf;
    try (exists JNull, w; unfold FrontEnd.saveAlbumArtToFile; rewrite Hf;
         repeat split; auto; intros; discriminate).
  pose proof (saveAlbumArtToFile_string albumArt filename f w Hf) as Hrun.
  cbv zeta in Hrun.
  set (ext := match nth_error (split_on "/" f) 1 with
              | Some e => if (e =? "")%string then "jpg" else e
              | None => "jpg"
              end) in *.
  assert (Hext : ext <> "" /\
                 (forall e, nth_error (split_on "/" f) 1 = Some e -> e <> "" ->
                            ext = e) /\
                 (nth_error (split_on "/" f) 1 = None \/
                  nth_error (split_on "/" f) 1 = Some "" -> ext = "jpg")).
  { unfold ext. destruct (nth_error (split_on "/" f) 1) as [e|].
    - destruct (e =? "")%string eqn:He.
      + apply String.eqb_eq in He. subst e.
        split; [discriminate|]. split; [|reflexivity].
        intros e He Hne. injection He as <-. now destruct Hne.
      + apply String.eqb_neq in He. split; [exact He|]. split.
        * intros e' He' _. now injection He' as <-.
        * intros [Hn|Hn]; [discriminate|]. injection Hn as ->. now destruct He.
    - split; [discriminate|]. split; [discriminate|reflexivity]. }
  destruct Hext as [H1 [H2 H3]].
  assert (Hno : (forall f0, JStr f <> JStr f0) -> False)
    by (intros Hn; now apply (Hn f)).
  destruct (existsb (String.eqb (filename ++ "." ++ ext)) (art w)) eqn:Hx.
  - exists (JStr ("/public/album-art/" ++ filename ++ "." ++ ext)), w.
    split; [exact Hrun|]. split; [reflexivity|]. split; [reflexivity|].
    split; [auto|]. split; [intros Hn; destruct (Hno Hn)|].
    intros f' Hf'. injection Hf' as <-. exists ext.
    split; [exact H1|]. split; [exact H2|]. split; [exact H3|].
    split; [intros _; split; reflexivity|congruence].
  - destruct (get "data" albumArt) as [| | | |text|bytes| |] eqn:Hd;
      eexists _, _; (split; [exact Hrun|]); cbn [db art ticks trace];
      (split; [reflexivity|]); (split; [reflexivity|]);
      (split; [intros name Hin; auto; now right|]);
      (split; [intros Hn; destruct (Hno Hn)|]);
      intros f' Hf'; injection Hf' as <-; exists ext;
      (split; [exact H1|]); (split; [exact H2|]); (split; [exact H3|]);
      (split; [congruence|]); intros _;
      (split;
       [intros [[bs Hbs]|[tx Htx]]; try discriminate; repeat split
       |intros Hbs Htx; try (now destruct (Hbs bytes));
        try (now destruct (Htx text)); split; reflexivity]).
Qed.

(** X8.  The cache lookup knows three extensions.  A picture that
    [saveAlbumArtToFile] stored as jpg, jpeg or png is found again by
    [checkAlbumArtCache] under the same title, date and artist; one
    stored under another extension is not, when no file with one of
    the three extensions exists: its item is without cached art at
    every later scan. *)
Theorem saved_art_is_found_again_only_as_jpg_jpeg_png
  (albumArt title date artist : jsval) (name ext : string) (w w' : world)
  (Hname : FrontEnd.createFileName title date artist = Some name)
  (Hsave : FrontEnd.saveAlbumArtToFile albumArt name w =
             (Ok (JStr ("/public/album-art/" ++ name ++ "." ++ ext)), w')) :
  existsb (String.eqb (name ++ "." ++ ext)) (art w') = true /\
  (In ext ["jpg"; "jpeg"; "png"] ->
   exists p,
     FrontEnd.checkAlbumArtCache title date artist w' =
       (Ok (FrontEnd.art_url p), w') /\
     truthy (FrontEnd.art_url p) = true) /\
  (~ In ext ["jpg"; "jpeg"; "png"] -> art_missing name w ->
   FrontEnd.checkAlbumArtCache title date artist w' = (Ok JNull, w')).
Proof.
  destruct (get "format" albumArt) as [| | | |f| | |] eqn:Hf;
    try (unfold FrontEnd.saveAlbumArtToFile in Hsave; rewrite Hf in Hsave;
         discriminate).
  rewrite (saveAlbumArtToFile_string albumArt name f w Hf) in Hsave.
  cbv zeta in Hsave.
  set (ext' := match nth_error (split_on "/" f) 1 with
               | Some e => if (e =? "")%string then "jpg" else e
               | None => "jpg"
               end) in *.
  assert (Hsaved : ext' = ext /\
                   w' = if existsb (String.eqb (name ++ "." ++ ext)) (art w)
                        then w
                        else mkWorld (db w) ((name ++ "." ++ ext)%string :: art w)
                               (ticks w)
                               (trace w ++ [EvArtWrite (name ++ "." ++ ext)])).
  { destruct (existsb (String.eqb (name ++ "." ++ ext')) (art w)) eqn:Hx.
    - injection Hsave as Hpath Hw. apply string_app_inv_head in Hpath.
      injection Hpath as Hpath. subst ext'. rewrite Hpath in Hx.
      rewrite Hx. auto.
    - destruct (get "data" albumArt); try discriminate;
        injection Hsave as Hpath Hw; apply string_app_inv_head in Hpath;
        injection Hpath as Hpath; subst ext'; rewrite Hpath in Hx, Hw;
        rewrite Hx; auto. }
  destruct Hsaved as [_ Hw]. clear Hsave.
  unfold art_missing.
  change ("." ++ ext)%string with (String "." ext) in *.
  assert (Hnow : existsb (String.eqb (name ++ String "." ext)) (art w') = true).
  { destruct (existsb (String.eqb (name ++ String "." ext)) (art w)) eqn:Hx;
      subst w'; cbn [art existsb]; auto. now rewrite String.eqb_refl. }
  split; [exact Hnow|].
  unfold FrontEnd.checkAlbumArtCache. rewrite Hname. split.
  - intros Hin.
    destruct (first_cached_found name ["jpg"; "jpeg"; "png"] w') as [p Hp]; eauto.
    exists p. split; [run; exact Hp|apply art_url_truthy].
  - intros Hnot Hmiss. run. apply first_cached_missing.
    intros e He.
    destruct (existsb (String.eqb (name ++ String "." ext)) (art w)) eqn:Hx;
      subst w'; cbn [art existsb]; [now apply Hmiss|].
    rewrite (Hmiss e He), orb_false_r.
    apply String.eqb_neq. intros Heq. apply string_app_inv_head in Heq.
    injection Heq as ->. contradiction.
Qed.

End ArtFileFacts.

(** A picture of three bytes stored as png is found again; one
    stored as gif is not. *)
Lemma saved_art_is_found_again_only_as_jpg_jpeg_png_witness :
  exists w1 w2 p,
    FrontEnd.saveAlbumArtToFile
      (JObj [("format", JStr "image/png"); ("data", JBuf [x89; x50; x4e])])
      "A" empty_world =
      (Ok (JStr "/public/album-art/A.png"), w1) /\
    @FrontEnd.checkAlbumArtCache (unreachable (listing []))
      (JStr "A") JNull (JStr "Unknown") w1 =
      (Ok (@FrontEnd.art_url (unreachable (listing [])) p), w1) /\
    FrontEnd.saveAlbumArtToFile
      (JObj [("format", JStr "image/gif"); ("data", JBuf [x47; x49; x46])])
      "A" empty_world =
      (Ok (JStr "/public/album-art/A.gif"), w2) /\
    @FrontEnd.checkAlbumArtCache (unreachable (listing []))
      (JStr "A") JNull (JStr "Unknown") w2 = (Ok JNull, w2).
Proof.
  eassert (H1 : FrontEnd.saveAlbumArtToFile
                  (JObj [("format", JStr "image/png");
                         ("data", JBuf [x89; x50; x4e])]) "A" empty_world =
                (Ok (JStr "/public/album-art/A.png"), _)) by reflexivity.
  eassert (H2 : FrontEnd.saveAlbumArtToFile
                  (JObj [("format", JStr "image/gif");
                         ("data", JBuf [x47; x49; x46])]) "A" empty_world =
                (Ok (JStr "/public/album-art/A.gif"), _)) by reflexivity.
  destruct (@saved_art_is_found_again_only_as_jpg_jpeg_png
              (unreachable (listing [])) _ (JStr "A") JNull (JStr "Unknown")
              "A" "png" _ _ eq_refl H1) as [_ [Hfound _]].
  destruct (@saved_art_is_found_again_only_as_jpg_jpeg_png
              (unreachable (listing [])) _ (JStr "A") JNull (JStr "Unknown")
              "A" "gif" _ _ eq_refl H2) as [_ [_ Hlost]].
  destruct Hfound as [p [Hp _]]; [simpl; tauto|].
  eexists _, _, p. split; [exact H1|]. split; [exact Hp|].
  split; [exact H2|]. apply Hlost.
  - simpl. intros [H|[H|[H|[]]]]; discriminate.
  - intros e He. reflexivity.
Defined.

(* ================================================================= *)
(** * A sync that fails *)

Lemma mapM_throws {A B} (f : A -> M B) (l : list A) (x : A) (w : world) :
  In x l -> (forall w0, exists w', f x w0 = (Throw, w')) ->
  exists w', mapM f l w = (Throw, w').
Proof.
  intros Hin Hx. revert w. induction l as [|a l IH]; intros w; [destruct Hin|].
  cbn [mapM]. unfold bind at 1.
  destruct (f a w) as [[y|] w1] eqn:Hf.
  - destruct Hin as [->|Hin].
    + destruct (Hx w) as [w' Hw]. congruence.
    + destruct (IH Hin w1) as [w' Hw]. unfold bind. rewrite Hw. eauto.
  - eauto.
Qed.

Lemma mapM_keeps {A B} (f : A -> M B) (P : world -> world -> Prop) :
  (forall w, P w w) -> (forall a b c, P a b -> P b c -> P a c) ->
  (forall x w, P w (snd (f x w))) ->
  forall l w, P w (snd (mapM f l w)).
Proof.
  intros Hrefl Htrans Hf l. induction l as [|a l IH]; intros w; cbn [mapM].
  - apply Hrefl.
  - unfold bind at 1. specialize (Hf a w).
    destruct (f a w) as [[y|] w1]; cbn [snd] in *; auto.
    unfold bind. specialize (IH w1).
    destruct (mapM f l w1) as [[ys|] w2]; cbn [snd] in *; eauto.
Qed.

Section SyncFailure.
Context {E : Env}.

(** An enrichment leaves the database file and the clock alone,
    whether it returns or raises. *)
Lemma enrich_keeps_db (item : jsval) (w : world) :
  db (snd (FrontEnd.enrich item w)) = db w /\
  ticks (snd (FrontEnd.enrich item w)) = ticks w.
Proof.
  pose proof (enrich_run item w) as H.
  destruct (art_name item) as [name|] eqn:Hn.
  - destruct H as [a [w' [-> [Hd [Ht _]]]]]. auto.
  - clear H. unfold art_name in Hn. unfold FrontEnd.enrich.
    rewrite (bind_run _ _ _ _ _ (front_probe_run (get "url" item) w)).
    unfold FrontEnd.checkAlbumArtCache. rewrite Hn. run. split; reflexivity.
Qed.

Lemma enrich_batches_keep_db (batches : list (list jsval)) (w : world) :
  db (snd (mapM (mapM FrontEnd.enrich) batches w)) = db w /\
  ticks (snd (mapM (mapM FrontEnd.enrich) batches w)) = ticks w.
Proof.
  apply (mapM_keeps (mapM FrontEnd.enrich)
           (fun a b => db b = db a /\ ticks b = ticks a)).
  - auto.
  - intros a b c [H1 H2] [H3 H4]. split; congruence.
  - intros batch w0.
    apply (mapM_keeps FrontEnd.enrich
             (fun a b => db b = db a /\ ticks b = ticks a)).
    + auto.
    + intros a b c [H1 H2] [H3 H4]. split; congruence.
    + apply enrich_keeps_db.
Qed.

Lemma toRawItem_url (i : jsval) :
  get "url" (FrontEnd.toRawItem i) = FrontEnd.newUrl i.
Proof. unfold FrontEnd.newUrl. cbn. apply get_js_or_empty. Qed.

Lemma art_name_of_unnamed (i : jsval) :
  truthy (get "dc:title" i) = true ->
  (forall s, get "dc:title" i <> JStr s) ->
  truthy (get "upnp:artist" i) = false \/ get "upnp:artist" i = JStr "Unknown" ->
  truthy (get "date" (front_probe (FrontEnd.newUrl i))) = false ->
  art_name (FrontEnd.toRawItem i) = None.
Proof.
  intros Ht Hs Ha Hd. unfold art_name. rewrite toRawItem_url.
  cbn [FrontEnd.toRawItem get assoc String.eqb Ascii.eqb Bool.eqb].
  unfold js_or at 1. rewrite Ht. unfold js_or at 1. rewrite Hd.
  assert (Hart : js_or (get "upnp:artist" i) (JStr "Unknown") = JStr "Unknown").
  { unfold js_or. destruct Ha as [-> | ->]; reflexivity. }
  rewrite Hart. unfold FrontEnd.createFileName. cbn.
  destruct (get "dc:title" i); try reflexivity. now destruct (Hs s).
Qed.

Lemma transformDIDLData_throws (didl i : jsval) (w : world) :
  In i (FrontEnd.ensureArray (get "item" (get "DIDL-Lite" didl))) ->
  art_name (FrontEnd.toRawItem i) = None ->
  exists w',
    FrontEnd.transformDIDLData didl true w = (Throw, w') /\
    db w' = db w /\ ticks w' = ticks w.
Proof.
  intros Hin Hname. unfold FrontEnd.transformDIDLData. cbn [negb].
  set (raw := map FrontEnd.toRawItem
                (FrontEnd.ensureArray (get "item" (get "DIDL-Lite" didl)))).
  assert (Hraw : In (FrontEnd.toRawItem i) (List.concat (chunks FrontEnd.LIMIT raw))).
  { rewrite concat_chunks by (unfold FrontEnd.LIMIT; lia). now apply in_map. }
  apply in_concat in Hraw as [batch [Hbatch Hx]].
  assert (Hthrow : forall w0, exists w', mapM FrontEnd.enrich batch w0 = (Throw, w')).
  { intros w0. apply (mapM_throws FrontEnd.enrich batch (FrontEnd.toRawItem i)); auto.
    intros w2. pose proof (enrich_run (FrontEnd.toRawItem i) w2) as H.
    now rewrite Hname in H. }
  destruct (mapM_throws (mapM FrontEnd.enrich) (chunks FrontEnd.LIMIT raw) batch w
              Hbatch Hthrow) as [w' Hw'].
  exists w'. split; [now apply bind_throw|].
  pose proof (enrich_batches_keep_db (chunks FrontEnd.LIMIT raw) w) as H.
  now rewrite Hw' in H.
Qed.

(** X9.  A sync with metadata raises, and leaves the database file as
    [readDatabase] left it, as soon as one item to scan has a title
    that is not a string (a number, as the XML decoding yields for a
    title made of digits), no artist but the unknown one, and no date
    in its tags: [createFileName] then calls [replace] on the title. *)
Theorem sync_with_metadata_fails_on_a_title_that_is_not_a_string
  (id : jsval) (w w1 : world) (cached didl i : jsval) (C scan : list jsval)
  (Hread : FrontEnd.readDatabase w = (Ok cached, w1))
  (Hdlna : dlna id = Some didl)
  (Hitems : as_array (get "items" cached) = Some C)
  (Hscan : FrontEnd.itemsToScan
             (FrontEnd.ensureArray (get "item" (get "DIDL-Lite" didl))) C
           = Some scan)
  (Hin : In i scan)
  (Htitle : truthy (get "dc:title" i) = true)
  (Hnostr : forall s, get "dc:title" i <> JStr s)
  (Hartist : truthy (get "upnp:artist" i) = false \/
             get "upnp:artist" i = JStr "Unknown")
  (Hdate : truthy (get "date" (front_probe (FrontEnd.newUrl i))) = false) :
  exists w',
    FrontEnd.browse id true w = (Throw, w') /\
    db w' = db w1 /\ ticks w' = ticks w1.
Proof.
  set (R := FrontEnd.ensureArray (get "item" (get "DIDL-Lite" didl))) in *.
  pose proof (itemsToScan_returns R C scan Hscan) as [HC Hs].
  unfold FrontEnd.browse.
  rewrite (bind_run _ _ _ _ _ Hread).
  assert (Hb : browseDLNA id w1 = (Ok didl, logged w1 [EvBrowse id]))
    by (unfold browseDLNA; run; rewrite Hdlna; reflexivity).
  rewrite (bind_run _ _ _ _ _ Hb). cbv zeta. fold R. rewrite Hitems.
  unfold lift at 1. unfold bind at 1, ret at 1.
  rewrite Hscan, (toRemove_readable R C HC).
  unfold lift at 1. unfold bind at 1, ret at 1.
  unfold lift at 1. unfold bind at 1, ret at 1.
  destruct scan as [|s0 scan]; [destruct Hin|].
  cbn [List.length Nat.eqb andb].
  assert (Hlite : exists fs, get "DIDL-Lite" didl = JObj fs).
  { assert (HiR : In i R).
    { rewrite Hs in Hin. unfold scan_of in Hin. now apply filter_In in Hin. }
    unfold R in HiR. destruct (get "DIDL-Lite" didl); try (destruct HiR; fail).
    eauto. }
  destruct Hlite as [fs Hfs]. rewrite Hfs. cbn [FrontEnd.non_nullish lift].
  unfold ret at 1, bind at 1.
  destruct (transformDIDLData_throws
              (JObj [("DIDL-Lite",
                      JObj [("container", js_or (get "container" (JObj fs)) (JArr []));
                            ("item", JArr (s0 :: scan))])])
              i (logged w1 [EvBrowse id]))
    as [w2 [Hw2 [Hd Ht]]].
  - exact Hin.
  - now apply art_name_of_unnamed.
  - exists w2. split; [now apply bind_throw|]. auto.
Qed.

End SyncFailure.

(** A listing whose one new item is titled 1984, a number after the
    decoding: the sync with metadata raises and leaves the file that
    [readDatabase] initialised. *)
Lemma sync_with_metadata_fails_on_a_title_that_is_not_a_string_witness :
  exists w',
    @FrontEnd.browse
      (unreachable
         (listing [("item",
                    JObj [("id", JStr "7"); ("dc:title", JNum 1984);
                          ("res", JObj [("#text", JStr "http://x/1984.flac")])])]))
      root true empty_world = (Throw, w') /\
    db w' = Some (Json (initial_document "T0")).
Proof.
  eassert (Hread : @FrontEnd.readDatabase
                     (unreachable
                        (listing [("item",
                                   JObj [("id", JStr "7"); ("dc:title", JNum 1984);
                                         ("res", JObj [("#text", JStr "http://x/1984.flac")])])]))
                     empty_world = (Ok _, _)) by (vm_compute; reflexivity).
  destruct (@sync_with_metadata_fails_on_a_title_that_is_not_a_string
              (unreachable
                 (listing [("item",
                            JObj [("id", JStr "7"); ("dc:title", JNum 1984);
                                  ("res", JObj [("#text", JStr "http://x/1984.flac")])])]))
              root empty_world _ _ _
              (JObj [("id", JStr "7"); ("dc:title", JNum 1984);
                     ("res", JObj [("#text", JStr "http://x/1984.flac")])])
              [] _ Hread eq_refl eq_refl eq_refl)
    as [w' [Hrun [Hdb _]]].
  - simpl. now left.
  - reflexivity.
  - intros s. discriminate.
  - now left.
  - reflexivity.
  - exists w'. split; [exact Hrun|]. rewrite Hdb. reflexivity.
Defined.

(* ================================================================= *)
(** * What the database file keeps *)

Lemma assoc_json_fields_any (k : string) fs :
  NoDup (map fst fs) ->
  assoc k (json_fields fs) =
  match assoc k fs with
  | JUndefined => JUndefined
  | x => json x
  end.
Proof.
  induction fs as [|[k' x] fs IH]; intros Hn; [reflexivity|].
  inversion Hn as [|? ? Hnin Hn']; subst. cbn [assoc].
  destruct (String.eqb_spec k k') as [->|Hne].
  - destruct x; cbn [json_fields assoc]; rewrite ?String.eqb_refl; try reflexivity.
    rewrite assoc_notin; [reflexivity|].
    intros Hin. apply Hnin. now apply json_fields_keys.
  - assert (Hk : (k =? k')%string = false) by now apply String.eqb_neq.
    destruct x; cbn [json_fields assoc]; rewrite ?Hk; auto.
Qed.

Lemma js_or_json_get (k : string) fs (d : jsval) :
  NoDup (map fst fs) ->
  js_or (get k (json (JObj fs))) d = js_or (json (get k (JObj fs))) d.
Proof.
  intros Hn. rewrite json_obj. cbn [get]. rewrite assoc_json_fields_any by assumption.
  destruct (assoc k fs); reflexivity.
Qed.

Section DatabaseRoundTrip.
Context {E : Env}.

(** X10.  The front end's [writeDatabase] raises on [null] and on
    [undefined], before it reads the clock or writes.  Of any other
    argument it keeps the containers and the items and nothing else:
    the metadata is computed anew, with the time of the write, and
    every other field is dropped.  What it wrote is read back by
    [readDatabase] as it is stored, without a further write. *)
Theorem writeDatabase_keeps_containers_and_items_only
  (data : jsval) (w : world) :
  (data = JNull \/ data = JUndefined ->
   FrontEnd.writeDatabase data w = (Throw, w)) /\
  (data <> JNull /\ data <> JUndefined ->
   exists w1 out,
     FrontEnd.writeDatabase data w = (Ok tt, w1) /\
     db w1 = Some (Json out) /\
     ticks w1 = S (ticks w) /\
     FrontEnd.readDatabase w1 = (Ok out, w1) /\
     get "containers" out = json (js_or (get "containers" data) (JArr [])) /\
     get "items" out = json (js_or (get "items" data) (JArr [])) /\
     get "lastUpdated" (get "metadata" out) = JStr (clock (ticks w)) /\
     (forall l, get "items" data = JArr l ->
                get "items" out = JArr (map json l) /\
                get "totalItems" (get "metadata" out) =
                  JNum (Z.of_nat (List.length l))) /\
     (forall k, k <> "containers" -> k <> "items" -> k <> "metadata" ->
                get k out = JUndefined)).
Proof.
  split.
  - intros [-> | ->]; reflexivity.
  - intros Hdata. eexists _, (stored data (clock (ticks w))).
    split; [now apply writeDatabase_run|]. split; [reflexivity|].
    split; [reflexivity|].
    split; [now apply readDatabase_stored|].
    split; [reflexivity|]. split; [reflexivity|]. split; [reflexivity|]. split.
    + intros l Hl. unfold stored. cbn [get assoc String.eqb Ascii.eqb Bool.eqb].
      rewrite Hl. cbn [js_or truthy js_length json]. split; [reflexivity|].
      destruct l; reflexivity.
    + intros k H1 H2 H3. unfold stored. cbn [get assoc].
      apply String.eqb_neq in H1, H2, H3. now rewrite H1, H2, H3.
Qed.

(** X11.  A file written by the back end, which stores its data with a
    [lastUpdated] beside them, is read by the front end as a snapshot
    of the containers and the items with that time as its metadata;
    the back end reads its own file as it wrote it. *)
Theorem file_of_the_back_end_is_migrated_by_the_front_end
  (fs : list (string * jsval)) (w : world)
  (Hkeys : NoDup (map fst fs))
  (Hmeta : truthy (get "metadata" (JObj fs)) = false)
  (Hclock : clock (ticks w) <> "") :
  exists w1,
    BackEnd.writeDatabase (JObj fs) w = (Ok tt, w1) /\
    BackEnd.readDatabase w1 =
      (Ok (json (JObj (set_field "lastUpdated" (JStr (clock (ticks w))) fs))), w1) /\
    FrontEnd.readDatabase w1 =
      (Ok (JObj [("containers",
                  js_or (json (get "containers" (JObj fs))) (JArr []));
                 ("items", js_or (json (get "items" (JObj fs))) (JArr []));
                 ("metadata",
                  JObj [("lastUpdated", JStr (clock (ticks w)))])]),
       w1).
Proof.
  set (t := clock (ticks w)) in *.
  set (fs' := set_field "lastUpdated" (JStr t) fs).
  assert (Hn' : NoDup (map fst fs')) by now apply set_field_NoDup.
  eexists. split; [reflexivity|]. split; [reflexivity|].
  cbn [spread]. fold t. fold fs'.
  rewrite (readDatabase_json _ (json (JObj fs'))) by (try reflexivity; discriminate).
  assert (Hlast : get "lastUpdated" (json (JObj fs')) = JStr t).
  { rewrite json_obj. cbn [get]. rewrite assoc_json_fields_any by assumption.
    unfold fs'. now rewrite assoc_set_field_same. }
  assert (Hm : truthy (get "metadata" (json (JObj fs'))) = false).
  { rewrite json_obj. cbn [get]. rewrite assoc_json_fields_any by assumption.
    unfold fs'. rewrite assoc_set_field_other by discriminate.
    cbn [get] in Hmeta. destruct (assoc "metadata" fs); auto. }
  rewrite Hlast, Hm. cbn [truthy andb negb].
  assert (Ht : negb (t =? "")%string = true)
    by (apply negb_true_iff, String.eqb_neq; exact Hclock).
  rewrite Ht. cbn [andb].
  rewrite !js_or_json_get by assumption. unfold fs'. cbn [get].
  rewrite !assoc_set_field_other by discriminate. reflexivity.
Qed.

End DatabaseRoundTrip.

(** A file of the back end with one item, read by the front end. *)
Lemma file_of_the_back_end_is_migrated_by_the_front_end_witness :
  exists w1,
    @BackEnd.writeDatabase (unreachable (listing []))
      (JObj [("containers", JArr []); ("items", JArr [cached_a])]) empty_world
      = (Ok tt, w1) /\
    @FrontEnd.readDatabase (unreachable (listing [])) w1 =
      (Ok (JObj [("containers", JArr []); ("items", JArr [cached_a]);
                 ("metadata", JObj [("lastUpdated", JStr "T0")])]),
       w1).
Proof.
  assert (Hkeys : NoDup (map fst [("containers", JArr []);
                                  ("items", JArr [cached_a])])).
  { repeat constructor; simpl; intros H; repeat destruct H as [H|H];
      try discriminate; auto. }
  destruct (@file_of_the_back_end_is_migrated_by_the_front_end
              (unreachable (listing []))
              [("containers", JArr []); ("items", JArr [cached_a])]
              empty_world Hkeys eq_refl)
    as [w1 [Hw [_ Hr]]].
  - discriminate.
  - exists w1. split; [exact Hw|exact Hr].
Defined.

(* ================================================================= *)
(** * The answer of a sync and the file *)

Section AnswerAndFile.
Context {E : Env}.

Lemma transformDIDLData_keeps_db (didl : jsval) (flag : bool) (w : world) :
  db (snd (FrontEnd.transformDIDLData didl flag w)) = db w /\
  ticks (snd (FrontEnd.transformDIDLData didl flag w)) = ticks w.
Proof.
  unfold FrontEnd.transformDIDLData. destruct flag; cbn [negb]; [|auto].
  match goal with
  | |- context [mapM (mapM FrontEnd.enrich) ?b] =>
      pose proof (enrich_batches_keep_db b w) as H
  end.
  unfold bind.
  destruct (mapM (mapM FrontEnd.enrich) _ w) as [[bs|] w']; exact H.
Qed.

(** X12.  When a sync merges, the snapshot it answers with and the one it
    stores hold the same items and agree on their number; each has a
    time of its own: the answer carries the reading of the clock taken
    for the merge, the file the next one, taken by [writeDatabase]. *)
Theorem merged_answer_is_stored_under_a_later_time
  (id : jsval) (flag : bool) (w w1 w' : world) (cached didl out : jsval)
  (C : list jsval)
  (Hread : FrontEnd.readDatabase w = (Ok cached, w1))
  (Hdlna : dlna id = Some didl)
  (Hitems : as_array (get "items" cached) = Some C)
  (Hdiff : FrontEnd.itemsToScan
             (FrontEnd.ensureArray (get "item" (get "DIDL-Lite" didl))) C
           <> Some [] \/
           FrontEnd.toRemove
             (FrontEnd.ensureArray (get "item" (get "DIDL-Lite" didl))) C
           <> Some [])
  (Hrun : FrontEnd.browse id flag w = (Ok out, w')) :
  exists items doc,
    get "items" out = JArr items /\
    get "totalItems" (get "metadata" out) = JNum (Z.of_nat (List.length items)) /\
    get "lastUpdated" (get "metadata" out) = JStr (clock (ticks w1)) /\
    db w' = Some (Json doc) /\
    get "items" doc = JArr (map json items) /\
    get "containers" doc = json (js_or (get "containers" out) (JArr [])) /\
    get "totalItems" (get "metadata" doc) = JNum (Z.of_nat (List.length items)) /\
    get "lastUpdated" (get "metadata" doc) = JStr (clock (S (ticks w1))) /\
    ticks w' = S (S (ticks w1)) /\
    exists before, trace w' = before ++ [EvDbWrite doc].
Proof.
  pose proof (browse_readable id flag w w1 w' cached didl out C Hread Hdlna
                Hitems Hrun) as HC.
  apply (diff_not_empty _ C HC) in Hdiff.
  destruct (browse_long id flag w w1 w' cached didl out C Hread Hdlna Hitems
              Hdiff Hrun) as [cs [new [w2 [Ht [Hout Hw]]]]].
  pose proof (transformDIDLData_keeps_db
                (filtered (get "DIDL-Lite" didl)
                   (scan_of
                      (FrontEnd.ensureArray (get "item" (get "DIDL-Lite" didl))) C))
                flag (logged w1 [EvBrowse id])) as [_ Hticks].
  rewrite Ht in Hticks. cbn [snd logged ticks] in Hticks.
  rewrite writeDatabase_run in Hw by (rewrite Hout; split; discriminate).
  injection Hw as <-.
  cbn [ticked ticks] in *. rewrite Hticks in *.
  set (items := map_values _) in Hout.
  exists items, (stored out (clock (S (ticks w1)))).
  rewrite Hout. unfold merged_snapshot, stored.
  cbn [get assoc String.eqb Ascii.eqb Bool.eqb db ticks trace js_or truthy
       js_length json].
  repeat split; try reflexivity.
  - destruct items; reflexivity.
  - eexists. reflexivity.
Qed.

Lemma readDatabase_Throw (w w1 : world) :
  FrontEnd.readDatabase w = (Throw, w1) -> w1 = w.
Proof.
  destruct w as [d a n tr]. unfold FrontEnd.readDatabase.
  destruct d as [[|doc|]|]; cbn; try discriminate.
  - destruct doc; cbn; try discriminate;
      try (destruct (_ && _); discriminate).
    intros H. now injection H.
  - intros H. now injection H.
Qed.

(** X13.  When the Browse request fails the handler raises: the cached
    snapshot is not served in its place.  The file is then as it was,
    or as [readDatabase] initialised it. *)
Theorem sync_raises_when_the_browse_request_fails
  (id : jsval) (flag : bool) (w : world)
  (Hdlna : dlna id = None) :
  exists w',
    FrontEnd.browse id flag w = (Throw, w') /\
    art w' = art w /\
    (db w' = db w \/
     ((db w = None \/ db w = Some Whitespace) /\
      db w' = Some (Json (initial_document (clock (ticks w)))))).
Proof.
  unfold FrontEnd.browse.
  destruct (FrontEnd.readDatabase w) as [[cached|] w1] eqn:Hread.
  - rewrite (bind_run _ _ _ _ _ Hread).
    assert (Hb : browseDLNA id w1 = (Throw, logged w1 [EvBrowse id]))
      by (unfold browseDLNA; run; rewrite Hdlna; reflexivity).
    rewrite (bind_throw _ _ _ _ Hb). eexists. split; [reflexivity|].
    cbn [logged art db].
    split; [now apply (readDatabase_art w w1 cached)|].
    apply readDatabase_Ok in Hread as [[doc [_ [_ ->]]]|[Hn [_ ->]]]; auto.
  - rewrite (bind_throw _ _ _ _ Hread). exists w1. split; [reflexivity|].
    apply readDatabase_Throw in Hread. subst w1. auto.
Qed.

End AnswerAndFile.

(* ================================================================= *)
(** * The back end: the change detection and the sync *)

Lemma mapM_logged {A B} (f : A -> M B) (ev : A -> list event) :
  (forall x w y w', f x w = (Ok y, w') -> w' = logged w (ev x)) ->
  forall l w ys w',
    mapM f l w = (Ok ys, w') -> w' = logged w (List.concat (map ev l)).
Proof.
  intros Hf l. induction l as [|a l IH]; intros w ys w' H; cbn [mapM] in H.
  - injection H as <- <-. cbn. now rewrite logged_nil.
  - apply bind_Ok_inv in H as [y [w1 [Ha H]]].
    apply bind_Ok_inv in H as [ys' [w2 [Hl H]]].
    injection H as <- <-. apply Hf in Ha. apply IH in Hl. subst.
    cbn [map List.concat]. now rewrite logged_app.
Qed.

Lemma concat_map_concat {A B} (g : A -> list B) (ls : list (list A)) :
  List.concat (map (fun l => List.concat (map g l)) ls) =
  List.concat (map g (List.concat ls)).
Proof.
  induction ls as [|l ls IH]; cbn; auto.
  now rewrite IH, map_app, concat_app.
Qed.

Lemma concat_singletons {A B} (g : A -> B) (l : list A) :
  List.concat (map (fun x => [g x]) l) = map g l.
Proof. induction l as [|x l IH]; cbn; auto. now rewrite IH. Qed.

Section BackEndSync.
Context {E : Env} {U : Uri}.

Lemma hasChanges_run (didl cachedData : jsval) (C : list jsval) :
  as_array (get "items" cachedData) = Some C -> readable C ->
  BackEnd.hasChanges didl cachedData =
  Some (negb (List.length (BackEnd.ensureArray (get "item" (get "DIDL-Lite" didl)))
              =? List.length C)%nat
        || negb (forallb (fun r => set_has (map (get "id") C) (get "id" r))
                   (BackEnd.ensureArray (get "item" (get "DIDL-Lite" didl))))).
Proof.
  intros Hitems HC. unfold BackEnd.hasChanges. rewrite Hitems.
  rewrite (map_raising_returns (read "id") (get "id"))
    by (intros x Hx; apply read_readable; exact (readable_In C x HC Hx)).
  rewrite !List.length_map.
  set (R := BackEnd.ensureArray _).
  destruct (List.length R =? List.length C)%nat; cbn [negb orb]; [|reflexivity].
  f_equal. induction R as [|r R IH]; cbn [map filter forallb]; [reflexivity|].
  destruct (set_has (map (get "id") C) (get "id" r)); cbn [negb andb].
  - exact IH.
  - reflexivity.
Qed.

Lemma hasChanges_raises (didl cachedData : jsval) (C : list jsval) :
  as_array (get "items" cachedData) = Some C ->
  (BackEnd.hasChanges didl cachedData = None <->
   exists c, In c C /\ (c = JNull \/ c = JUndefined)).
Proof.
  intros Hitems. split.
  - intros H. destruct (readable_or_not C) as [HC|Hn]; [|exact Hn].
    rewrite (hasChanges_run didl cachedData C Hitems HC) in H. discriminate.
  - intros [c [Hc Hn]]. unfold BackEnd.hasChanges. rewrite Hitems.
    rewrite (map_raising_raises (read "id") C c Hc); [reflexivity|].
    now apply read_raises.
Qed.

(** X14.  On cached items that are an array, [hasChanges] raises
    exactly when one of them is [null] or [undefined].  It sees no change
    exactly when every cached item is readable, the listing and the
    cache have the same length and every id of the listing is an id
    of the cache; titles and addresses are not looked at.  When it
    sees none and the ids of the listing are distinct, the ids of the
    cache are those of the listing. *)
Theorem hasChanges_compares_lengths_and_ids
  (didl cachedData : jsval) (C : list jsval)
  (Hitems : as_array (get "items" cachedData) = Some C) :
  let R := BackEnd.ensureArray (get "item" (get "DIDL-Lite" didl)) in
  (BackEnd.hasChanges didl cachedData = None <->
   exists c, In c C /\ (c = JNull \/ c = JUndefined)) /\
  (BackEnd.hasChanges didl cachedData = Some false <->
   readable C /\
   List.length R = List.length C /\
   forall r, In r R -> set_has (map (get "id") C) (get "id" r) = true) /\
  (BackEnd.hasChanges didl cachedData = Some false ->
   NoDup (map (get "id") R) ->
   forall c, In c C -> In (get "id" c) (map (get "id") R)) /\
  (forall didl',
     map (get "id") (BackEnd.ensureArray (get "item" (get "DIDL-Lite" didl'))) =
       map (get "id") R ->
     BackEnd.hasChanges didl' cachedData = BackEnd.hasChanges didl cachedData).
Proof.
  intros R.
  assert (Hiff : BackEnd.hasChanges didl cachedData = Some false <->
                 readable C /\
                 List.length R = List.length C /\
                 forall r, In r R ->
                           set_has (map (get "id") C) (get "id" r) = true).
  { split.
    - intros H. destruct (readable_or_not C) as [HC|Hn].
      + split; [exact HC|].
        rewrite (hasChanges_run didl cachedData C Hitems HC) in H. fold R in H.
        injection H as H. apply orb_false_iff in H as [H1 H2].
        apply negb_false_iff in H1, H2. apply Nat.eqb_eq in H1.
        split; [exact H1|]. now apply forallb_forall.
      + apply (hasChanges_raises didl cachedData C Hitems) in Hn. congruence.
    - intros [HC [H1 H2]].
      rewrite (hasChanges_run didl cachedData C Hitems HC). fold R.
      f_equal. apply orb_false_iff.
      split; apply negb_false_iff; [now apply Nat.eqb_eq|now apply forallb_forall]. }
  split; [now apply hasChanges_raises|]. split; [exact Hiff|]. split.
  - intros Hfalse Hnd c Hc. apply Hiff in Hfalse as [_ [Hlen Hin]].
    assert (Hincl : incl (map (get "id") R) (map (get "id") C)).
    { intros k Hk. apply in_map_iff in Hk as [r [<- Hr]].
      specialize (Hin r Hr). now apply set_has_true in Hin as [Hin _]. }
    assert (Hle : (List.length (map (get "id") C) <=
                   List.length (map (get "id") R))%nat)
      by (rewrite !List.length_map; lia).
    apply (NoDup_length_incl Hnd Hle Hincl). now apply in_map.
  - intros didl' Hids. unfold BackEnd.hasChanges. fold R. now rewrite Hids.
Qed.

Lemma back_readDatabase_Ok (w w1 : world) (cached : jsval) :
  BackEnd.readDatabase w = (Ok cached, w1) -> w1 = w.
Proof.
  destruct w as [d a n tr]. unfold BackEnd.readDatabase.
  destruct d as [[|doc|]|]; cbn; try discriminate; intros H; now injection H.
Qed.

(** X15.  While the listing carries the ids of the cached items, none of
    which is [null] or [undefined], the back end answers with the
    cached snapshot and writes nothing, whatever the titles and the
    addresses of the listing are: a renamed or moved track is not
    picked up. *)
Theorem back_end_answers_from_the_cache_while_the_ids_are_unchanged
  (objectId : jsval) (flag : bool) (w w1 : world) (cached didl : jsval)
  (C : list jsval)
  (Hread : BackEnd.readDatabase w = (Ok cached, w1))
  (Hdlna : dlna objectId = Some didl)
  (Hitems : as_array (get "items" cached) = Some C)
  (Hreadable : readable C)
  (Hprim : prim_ids C)
  (Hids : map (get "id") (BackEnd.ensureArray (get "item" (get "DIDL-Lite" didl)))
          = map (get "id") C) :
  BackEnd.browse objectId flag w = (Ok cached, logged w [EvBrowse objectId]).
Proof.
  pose proof (back_readDatabase_Ok _ _ _ Hread) as ->.
  unfold BackEnd.browse. rewrite (bind_run _ _ _ _ _ Hread).
  assert (Hb : browseDLNA objectId w = (Ok didl, logged w [EvBrowse objectId]))
    by (unfold browseDLNA; run; rewrite Hdlna; reflexivity).
  rewrite (bind_run _ _ _ _ _ Hb).
  rewrite (hasChanges_run didl cached C Hitems Hreadable).
  set (R := BackEnd.ensureArray _) in *.
  assert (Hlen : (List.length R =? List.length C)%nat = true).
  { apply Nat.eqb_eq. rewrite <- (List.length_map (get "id") R), Hids.
    apply List.length_map. }
  assert (Hall : forallb (fun r => set_has (map (get "id") C) (get "id" r)) R = true).
  { apply forallb_forall. intros r Hr. apply set_has_true.
    assert (Hin : In (get "id" r) (map (get "id") C))
      by (rewrite <- Hids; now apply in_map).
    split; [exact Hin|]. apply in_map_iff in Hin as [c [Hc Hin]].
    unfold prim_ids in Hprim. rewrite Forall_forall in Hprim.
    rewrite <- Hc. auto. }
  rewrite Hlen, Hall. reflexivity.
Qed.

(** The enrichment of the back end: one probe, no art request. *)
Lemma back_enrich_run (item out : jsval) (w w' : world) :
  BackEnd.enrich item w = (Ok out, w') ->
  w' = logged w [EvFetch (get "url" item) probe_options_back probe_timeout] /\
  exists encoded,
    encodeURIComponent (get "url" item) = Some encoded /\
    get "albumArtUrl" out =
      JStr ("http://localhost:" ++ to_string PORT ++ "/api/album-art/" ++ encoded) /\
    get "bitrate" out = JUndefined /\
    (forall k, In k ["id"; "title"; "artist"; "album"; "duration"; "url";
                     "genre"; "nrAudioChannels"] ->
               get k out = get k item).
Proof.
  unfold BackEnd.enrich. intros H.
  destruct (back_getAudioMetadata_run (get "url" item) w) as [meta [Hm _]].
  rewrite (bind_run _ _ _ _ _ Hm) in H.
  destruct (encodeURIComponent (get "url" item)) as [encoded|]; [|discriminate].
  cbn [lift] in H. unfold ret at 1, bind at 1 in H. unfold ret in H.
  cbv zeta in H. injection H as <- <-. split; [reflexivity|]. exists encoded.
  split; [reflexivity|].
  unfold FrontEnd.set_if.
  split; [|split].
  - destruct (truthy meta); [|reflexivity].
    destruct (truthy (get "date" meta)), (truthy (get "composer" meta)),
      (truthy (get "lyrics" meta)); reflexivity.
  - destruct (truthy meta); [|reflexivity].
    destruct (truthy (get "date" meta)), (truthy (get "composer" meta)),
      (truthy (get "lyrics" meta)); reflexivity.
  - intros k Hk. simpl in Hk.
    destruct (truthy meta);
      [destruct (truthy (get "date" meta)), (truthy (get "composer" meta)),
         (truthy (get "lyrics" meta))|];
      intuition subst; reflexivity.
Qed.

Lemma back_transformDIDLData_run (didl : jsval) (flag : bool) (w w' : world)
  (cs items : list jsval) :
  BackEnd.transformDIDLData didl flag w = (Ok (cs, items), w') ->
  let raw := map BackEnd.toRawItem
               (BackEnd.ensureArray (get "item" (get "DIDL-Lite" didl))) in
  cs = map BackEnd.toContainer
         (BackEnd.ensureArray (get "container" (get "DIDL-Lite" didl))) /\
  (if flag
   then w' = logged w (map (fun item => EvFetch (get "url" item) probe_options_back
                                          probe_timeout) raw) /\
        Forall2 (fun item out => exists w1 w2, BackEnd.enrich item w1 = (Ok out, w2))
          raw items
   else w' = w /\ items = raw).
Proof.
  intros H raw. unfold BackEnd.transformDIDLData in H. fold raw in H.
  destruct flag; cbn [negb] in H.
  - apply bind_Ok_inv in H as [batches [w1 [Hb H]]]. injection H as <- <- <-.
    split; [reflexivity|]. split.
    + apply (mapM_logged (mapM BackEnd.enrich)
               (fun batch => List.concat
                  (map (fun item => [EvFetch (get "url" item) probe_options_back
                                       probe_timeout]) batch))) in Hb.
      * rewrite Hb. f_equal. rewrite concat_map_concat, concat_chunks
          by (unfold BackEnd.CONCURRENT_LIMIT; lia).
        apply concat_singletons.
      * intros batch w2 ys w3 Hys.
        apply (mapM_logged BackEnd.enrich
                 (fun item => [EvFetch (get "url" item) probe_options_back
                                 probe_timeout])) in Hys; auto.
        intros x w4 y w5 Hx. now apply back_enrich_run in Hx as [-> _].
    + apply mapM_Ok in Hb.
      rewrite <- (concat_chunks BackEnd.CONCURRENT_LIMIT raw)
        by (unfold BackEnd.CONCURRENT_LIMIT; lia).
      apply Forall2_concat. eapply Forall2_impl; [|exact Hb].
      intros batch ys [w2 [w3 Hys]]. now apply mapM_Ok in Hys.
  - injection H as <- <- <-. auto.
Qed.

(** X16.  With metadata the back end sends one probe request per item, in
    the order of the listing, and no request for the art; it touches
    neither the files nor the clock.  Each item of its answer keeps
    the id, title, artist, album, duration, address, genre and
    channels of the raw item, loses its bit rate, and refers to the
    album-art endpoint of this server with the encoded address of the
    track, whether the file holds a picture or not. *)
Theorem back_end_probes_each_item_once_and_refers_to_its_endpoint
  (didl : jsval) (w w' : world) (cs items : list jsval)
  (Hrun : BackEnd.transformDIDLData didl true w = (Ok (cs, items), w')) :
  let raw := map BackEnd.toRawItem
               (BackEnd.ensureArray (get "item" (get "DIDL-Lite" didl))) in
  w' = logged w (map (fun item => EvFetch (get "url" item) probe_options_back
                                    probe_timeout) raw) /\
  Forall2 (fun item out =>
             exists encoded,
               encodeURIComponent (get "url" item) = Some encoded /\
               get "albumArtUrl" out =
                 JStr ("http://localhost:" ++ to_string PORT
                       ++ "/api/album-art/" ++ encoded) /\
               get "bitrate" out = JUndefined /\
               (forall k, In k ["id"; "title"; "artist"; "album"; "duration";
                                "url"; "genre"; "nrAudioChannels"] ->
                          get k out = get k item))
          raw items.
Proof.
  intros raw. apply back_transformDIDLData_run in Hrun as [_ [Hw Hall]].
  split; [exact Hw|]. eapply Forall2_impl; [|exact Hall].
  intros item out [w1 [w2 Hx]]. now apply back_enrich_run in Hx as [_ Hx].
Qed.

(** X17.  When the back end sees a change it answers with the containers
    and the items of the listing alone and stores them with the time
    of the write: nothing of the cached snapshot is kept, and the
    answer carries no [lastUpdated]. *)
Theorem back_end_replaces_the_snapshot_when_the_ids_change
  (objectId : jsval) (flag : bool) (w w1 w' : world) (cached didl out : jsval)
  (Hread : BackEnd.readDatabase w = (Ok cached, w1))
  (Hdlna : dlna objectId = Some didl)
  (Hchanged : BackEnd.hasChanges didl cached = Some true)
  (Hrun : BackEnd.browse objectId flag w = (Ok out, w')) :
  let R := BackEnd.ensureArray (get "item" (get "DIDL-Lite" didl)) in
  exists items,
    out = JObj [("containers",
                 JArr (map BackEnd.toContainer
                         (BackEnd.ensureArray
                            (get "container" (get "DIDL-Lite" didl)))));
                ("items", JArr items)] /\
    map (get "id") items = map (get "id") R /\
    (flag = false -> items = map BackEnd.toRawItem R) /\
    get "lastUpdated" out = JUndefined /\
    db w' = Some (Json (json (JObj (set_field "lastUpdated"
                                      (JStr (clock (ticks w))) (spread out))))) /\
    ticks w' = S (ticks w).
Proof.
  intros R. pose proof (back_readDatabase_Ok _ _ _ Hread) as ->.
  unfold BackEnd.browse in Hrun. rewrite (bind_run _ _ _ _ _ Hread) in Hrun.
  assert (Hb : browseDLNA objectId w = (Ok didl, logged w [EvBrowse objectId]))
    by (unfold browseDLNA; run; rewrite Hdlna; reflexivity).
  rewrite (bind_run _ _ _ _ _ Hb), Hchanged in Hrun.
  cbn [lift negb] in Hrun. unfold ret at 1, bind at 1 in Hrun.
  apply bind_Ok_inv in Hrun as [[cs items] [w2 [Ht Hrun]]].
  apply bind_Ok_inv in Hrun as [[] [w3 [Hw Hrun]]].
  injection Hrun as <- <-. cbn [fst snd] in *.
  pose proof (back_transformDIDLData_run _ _ _ _ _ _ Ht) as [-> Hshape].
  cbv zeta in Hshape. fold R in Hshape.
  exists items. split; [reflexivity|].
  assert (Hids : map (get "id") items = map (get "id") R /\
                 (flag = false -> items = map BackEnd.toRawItem R) /\
                 ticks w2 = ticks w).
  { destruct flag.
    - destruct Hshape as [-> Hall]. split; [|split; [discriminate|reflexivity]].
      clear - Hall. revert items Hall.
      induction R as [|r R IH]; intros items Hall; inversion Hall; subst;
        [reflexivity|].
      cbn [map]. f_equal; [|now apply IH].
      match goal with
      | H : exists _ _, BackEnd.enrich _ _ = _ |- _ => destruct H as [w1 [w2 Hen]]
      end.
      apply back_enrich_run in Hen as [_ [e [_ [_ [_ Hen]]]]].
      rewrite (Hen "id") by (simpl; tauto). reflexivity.
    - destruct Hshape as [-> ->]. split; [|split; auto].
      rewrite map_map. reflexivity. }
  destruct Hids as [H1 [H2 H3]]. split; [exact H1|]. split; [exact H2|].
  split; [reflexivity|].
  unfold BackEnd.writeDatabase, now, writeFileSync_db in Hw. revert Hw. run.
  intros Hw. injection Hw as <-. cbn [db ticks]. rewrite H3. split; reflexivity.
Qed.

End BackEndSync.

(* ================================================================= *)
(** * The back end: the art of a track *)

Lemma split_on_without (sep : ascii) (s : string) :
  every_char (fun c => negb (Ascii.eqb c sep)) s = true -> split_on sep s = [s].
Proof.
  induction s as [|c s IH]; cbn [every_char split_on]; [reflexivity|].
  intros H. apply andb_true_iff in H as [Hc Hs].
  apply negb_true_iff in Hc. rewrite Hc, (IH Hs). reflexivity.
Qed.

Lemma split_on_last (sep : ascii) (dir seg : string) :
  every_char (fun c => negb (Ascii.eqb c sep)) seg = true ->
  exists h t, split_on sep (dir ++ String sep seg) = (h :: t) ++ [seg].
Proof.
  intros Hseg. induction dir as [|c dir [h [t IH]]]; cbn [String.append split_on].
  - rewrite Ascii.eqb_refl, (split_on_without sep seg Hseg).
    now exists "", [].
  - rewrite IH. destruct (Ascii.eqb c sep).
    + now exists "", (h :: t).
    + now exists (String c h), t.
Qed.

Section BackEndArt.
Context {E : Env} {U : Uri}.

Lemma filename_of_last_segment (dir seg : string) :
  every_char (fun c => negb (is_slash c)) seg = true -> seg <> "" ->
  BackEnd.filename_of (dir ++ "/" ++ seg) = seg.
Proof.
  intros Hseg Hne. unfold BackEnd.filename_of.
  destruct (split_on_last "/" dir seg Hseg) as [h [t Hs]].
  change (dir ++ "/" ++ seg)%string with (dir ++ String "/" seg)%string.
  rewrite Hs, last_last.
  apply String.eqb_neq in Hne. now rewrite Hne.
Qed.

(** The answer and the requests of the prefix extraction depend on
    the address alone. *)
Lemma back_getAlbumArt_uniform (url : jsval) :
  exists v evs,
    (List.length evs <= 2)%nat /\
    forall w, BackEnd.getAlbumArt url w = (Ok v, logged w evs).
Proof.
  unfold BackEnd.getAlbumArt.
  destruct (net url (mkOptions HEAD None (Some 5000)) 5000) as [head|] eqn:H1;
    [|eexists _, [_]; split; [simpl; lia|]; intros w; run; rewrite H1; run;
      reflexivity].
  destruct (ok head) eqn:H2;
    [|eexists _, [_]; split; [simpl; lia|]; intros w; run; rewrite H1; run;
      rewrite H2; run; reflexivity].
  destruct (content_length head) as [n|] eqn:H3;
    [|eexists _, [_]; split; [simpl; lia|]; intros w; run; rewrite H1; run;
      rewrite H2; run; rewrite H3; run; reflexivity].
  destruct (net url
              (mkOptions GET
                 (Some (Some 0,
                        Some (if n <? BackEnd.maxBytes then n - 1
                              else BackEnd.maxBytes)))
                 (Some 10000)) 5000) as [resp|] eqn:H4;
    [|eexists _, [_; _]; split; [simpl; lia|]; intros w; run; rewrite H1; run;
      rewrite H2; run; rewrite H3; run; rewrite H4; run;
      rewrite <- app_assoc; reflexivity].
  destruct (negb (ok resp) && negb (status resp =? 206)) eqn:H5;
    [eexists _, [_; _]; split; [simpl; lia|]; intros w; run; rewrite H1; run;
     rewrite H2; run; rewrite H3; run; rewrite H4; run; rewrite H5; run;
     rewrite <- app_assoc; reflexivity|].
  destruct (body resp) as [buffer|] eqn:H6;
    [|eexists _, [_; _]; split; [simpl; lia|]; intros w; run; rewrite H1; run;
      rewrite H2; run; rewrite H3; run; rewrite H4; run; rewrite H5; run;
      rewrite H6; run; rewrite <- app_assoc; reflexivity].
  destruct (parseBuffer buffer (mkParseOptions None false None None))
    as [metadata|] eqn:H7;
    [|eexists _, [_; _]; split; [simpl; lia|]; intros w; run; rewrite H1; run;
      rewrite H2; run; rewrite H3; run; rewrite H4; run; rewrite H5; run;
      rewrite H6; run; rewrite H7; run; rewrite <- app_assoc; reflexivity].
  destruct (truthy (FrontEnd.first_picture metadata)) eqn:H8;
    eexists _, [_; _]; (split; [simpl; lia|]); intros w; run; rewrite H1; run;
    rewrite H2; run; rewrite H3; run; rewrite H4; run; rewrite H5; run;
    rewrite H6; run; rewrite H7; run; rewrite H8; run;
    rewrite <- app_assoc; reflexivity.
Qed.

Lemma getAlbumArtForDSD_uniform (url : jsval) :
  exists v evs,
    (List.length evs <= 2)%nat /\
    forall w, BackEnd.getAlbumArtForDSD url w = (Ok v, logged w evs).
Proof.
  unfold BackEnd.getAlbumArtForDSD.
  destruct (net url (mkOptions HEAD None None) 5000) as [head|] eqn:H1;
    [|eexists _, [_]; split; [simpl; lia|]; intros w; run; rewrite H1; run;
      reflexivity].
  destruct (net url (tail_options (content_length head)) 5000) as [resp|] eqn:H4;
    unfold tail_options in H4;
    [|eexists _, [_; _]; split; [simpl; lia|]; intros w; run; rewrite H1; run;
      rewrite H4; run; rewrite <- app_assoc; reflexivity].
  destruct (negb (ok resp) && negb (status resp =? 206)) eqn:H5;
    [eexists _, [_; _]; split; [simpl; lia|]; intros w; run; rewrite H1; run;
     rewrite H4; run; rewrite H5; run; rewrite <- app_assoc; reflexivity|].
  destruct (body resp) as [buffer|] eqn:H6;
    [|eexists _, [_; _]; split; [simpl; lia|]; intros w; run; rewrite H1; run;
      rewrite H4; run; rewrite H5; run; rewrite H6; run;
      rewrite <- app_assoc; reflexivity].
  destruct (BackEnd.scanBuffer buffer) as [picture|] eqn:H7;
    eexists _, [_; _]; (split; [simpl; lia|]); intros w; run; rewrite H1; run;
    rewrite H4; run; rewrite H5; run; rewrite H6; run; rewrite H7; run;
    rewrite <- app_assoc; reflexivity.
Qed.

(** X18.  [getAlbumArtUnified] never raises and touches neither the files
    nor the clock.  It answers the picture of the prefix extraction
    when there is one, and then sends no further request; otherwise
    it answers what the trailing scan answers.  It sends four
    requests at most. *)
Theorem getAlbumArtUnified_scans_the_tail_only_without_a_prefix_picture
  (url : jsval) :
  exists standard evs1 dsd evs2,
    (forall w, BackEnd.getAlbumArt url w = (Ok standard, logged w evs1)) /\
    (forall w, BackEnd.getAlbumArtForDSD url w = (Ok dsd, logged w evs2)) /\
    (forall w,
       BackEnd.getAlbumArtUnified url w =
         (Ok (if truthy standard then standard else dsd),
          logged w (evs1 ++ if truthy standard then [] else evs2))) /\
    (List.length (evs1 ++ if truthy standard then [] else evs2) <= 4)%nat.
Proof.
  destruct (back_getAlbumArt_uniform url) as [standard [evs1 [L1 H1]]].
  destruct (getAlbumArtForDSD_uniform url) as [dsd [evs2 [L2 H2]]].
  exists standard, evs1, dsd, evs2. split; [exact H1|]. split; [exact H2|]. split.
  - intros w. unfold BackEnd.getAlbumArtUnified.
    rewrite (bind_run _ _ _ _ _ (H1 w)).
    destruct (truthy standard).
    + now rewrite app_nil_r.
    + now rewrite H2, logged_app.
  - rewrite length_app. destruct (truthy standard); simpl; lia.
Qed.

(** X19.  The entity tag of the album-art endpoint is made of the last
    segment of the address alone.  The tag sent with the art of one
    track is therefore the tag of every track whose file has the same
    name in another directory: a request for such a track that
    carries the tag is answered 304, without any request to the media
    server. *)
Theorem album_art_is_revalidated_by_its_file_name_alone
  (param1 param2 dir1 dir2 seg : string) (w : world)
  (Hseg : every_char (fun c => negb (is_slash c)) seg = true)
  (Hne : seg <> "")
  (H1 : decodeURIComponent param1 = Some (dir1 ++ "/" ++ seg)%string)
  (H2 : decodeURIComponent param2 = Some (dir2 ++ "/" ++ seg)%string) :
  (forall inm headers data w',
     BackEnd.albumArt param1 inm w = (Ok (ReplySend headers data), w') ->
     assoc "ETag" headers = JStr (BackEnd.etag_of seg)) /\
  BackEnd.albumArt param2 (JStr (BackEnd.etag_of seg)) w = (Ok (ReplyEnd 304), w).
Proof.
  split.
  - intros inm headers data w' H. unfold BackEnd.albumArt in H.
    rewrite H1 in H. cbn [lift] in H. unfold ret at 1, bind at 1 in H.
    cbv zeta in H. rewrite (filename_of_last_segment dir1 seg Hseg Hne) in H.
    destruct (strict_eq inm (JStr (BackEnd.etag_of seg))); [discriminate|].
    apply bind_Ok_inv in H as [art [w1 [_ H]]].
    destruct (truthy art); cbn [negb] in H; [|discriminate].
    injection H as <- _ _. reflexivity.
  - unfold BackEnd.albumArt. rewrite H2. cbn [lift].
    unfold ret at 1, bind at 1. cbv zeta.
    rewrite (filename_of_last_segment dir2 seg Hseg Hne).
    cbn [strict_eq]. now rewrite String.eqb_refl.
Qed.

(** X20.  The trailing scan sends its GET request whatever the status of
    the HEAD answer is.  For a file of [size] bytes it asks for the
    last 150000 bytes, or for the whole file when it is shorter; when
    the length is not a number both ends of the range are NaN. *)
Theorem trailing_scan_asks_for_the_last_150000_bytes
  (url : jsval) (w : world) (head : response)
  (Hhead : net url (mkOptions HEAD None None) 5000 = Some head) :
  (exists v,
     BackEnd.getAlbumArtForDSD url w =
       (Ok v, logged w [EvFetch url (mkOptions HEAD None None) 5000;
                        EvFetch url (tail_options (content_length head)) 5000])) /\
  (forall size,
     content_length head = Some size -> 1 <= size ->
     exists first last_,
       tail_options (content_length head) =
         mkOptions GET (Some (Some first, Some last_)) None /\
       0 <= first /\ last_ = size - 1 /\
       last_ - first + 1 = Z.min size BackEnd.chunkSize) /\
  (content_length head = None ->
   tail_options (content_length head) = mkOptions GET (Some (None, None)) None).
Proof.
  split; [|split].
  - unfold BackEnd.getAlbumArtForDSD, tail_options. run. rewrite Hhead. run.
    rewrite <- app_assoc. cbn [app].
    match goal with
    | |- context [net url ?o 5000] => destruct (net url o 5000) as [resp|]
    end; run; eauto.
    destruct (negb (ok resp) && negb (status resp =? 206)); run; eauto.
    destruct (body resp) as [buffer|]; run; eauto.
    destruct (BackEnd.scanBuffer buffer); run; eauto.
  - intros size Hsize Hpos. rewrite Hsize. unfold tail_options, BackEnd.chunkSize.
    cbn [option_map]. eexists _, _. split; [reflexivity|]. lia.
  - intros ->. reflexivity.
Qed.

(** X21.  The prefix extraction of the back end gives up, without asking
    for the file, when the HEAD answer carries no length.  Otherwise
    it asks for the bytes from 0 to the length minus one, or to
    9500000 for a file of 9500000 bytes and more, in a request that is
    aborted after 5000 ms: the 10000 of its options is not read. *)
Theorem back_end_prefix_extraction_needs_a_content_length
  (url : jsval) (w : world) (head : response)
  (Hhead : net url head_options_back 5000 = Some head)
  (Hok : ok head = true) :
  (content_length head = None ->
   BackEnd.getAlbumArt url w =
     (Ok JNull, logged w [EvFetch url head_options_back 5000])) /\
  (forall n,
     content_length head = Some n ->
     exists v last_,
       BackEnd.getAlbumArt url w =
         (Ok v, logged w [EvFetch url head_options_back 5000;
                          EvFetch url
                            (mkOptions GET (Some (Some 0, Some last_)) (Some 10000))
                            5000]) /\
       (n < 9500000 -> last_ = n - 1) /\
       (9500000 <= n -> last_ = 9500000)).
Proof.
  split.
  - intros Hlen. unfold BackEnd.getAlbumArt, head_options_back in *. run.
    rewrite Hhead. run. rewrite Hok. run. rewrite Hlen. run. reflexivity.
  - intros n Hlen.
    destruct (back_getAlbumArt_requests url w head n Hhead Hok Hlen) as [v Hv].
    exists v, (if n <? BackEnd.maxBytes then n - 1 else BackEnd.maxBytes).
    split; [exact Hv|]. unfold BackEnd.maxBytes.
    destruct (n <? 9500000) eqn:Hn;
      [apply Z.ltb_lt in Hn|apply Z.ltb_ge in Hn]; split; intros; lia.
Qed.

End BackEndArt.

(* ================================================================= *)
(** * The front end: the album-art endpoint *)

Lemma every_char_forallb (p : ascii -> bool) (s : string) :
  every_char p s = forallb p (list_ascii_of_string s).
Proof. induction s as [|c s IH]; cbn; auto. now rewrite IH. Qed.

Lemma take_while_app {A} (p : A -> bool) (a b : list A) (y : A) :
  forallb p a = true -> p y = false -> take_while p (a ++ y :: b) = a.
Proof.
  induction a as [|x a IH]; cbn; intros Ha Hy.
  - now rewrite Hy.
  - apply andb_true_iff in Ha as [Hx Ha]. rewrite Hx. f_equal. auto.
Qed.

Lemma drop_while_app {A} (p : A -> bool) (a b : list A) (y : A) :
  forallb p a = true -> p y = false -> drop_while p (a ++ y :: b) = y :: b.
Proof.
  induction a as [|x a IH]; cbn; intros Ha Hy.
  - now rewrite Hy.
  - apply andb_true_iff in Ha as [Hx Ha]. rewrite Hx. auto.
Qed.

Lemma forallb_rev {A} (p : A -> bool) (l : list A) :
  forallb p (rev l) = forallb p l.
Proof.
  induction l as [|x l IH]; cbn; auto.
  rewrite forallb_app, IH. cbn. rewrite andb_true_r. apply andb_comm.
Qed.

(** The base name of a path that ends with a slash and a name. *)
Lemma basename_last_segment (dir file : string) :
  every_char (fun c => negb (is_slash c)) file = true -> file <> "" ->
  basename (dir ++ "/" ++ file) = file.
Proof.
  intros Hfile Hne. unfold basename.
  change (dir ++ "/" ++ file)%string with (dir ++ String "/" file)%string.
  rewrite list_ascii_app. cbn [list_ascii_of_string].
  rewrite rev_app_distr. cbn [rev]. rewrite <- app_assoc. cbn [app].
  rewrite every_char_forallb, <- forallb_rev in Hfile.
  destruct (rev (list_ascii_of_string file)) as [|c l] eqn:Hrev.
  - apply (f_equal (@rev ascii)) in Hrev. rewrite rev_involutive in Hrev.
    apply (f_equal string_of_list_ascii) in Hrev.
    rewrite string_of_list_ascii_of_string in Hrev. now destruct Hne.
  - pose proof Hfile as Hc. cbn [forallb] in Hc.
    apply andb_true_iff in Hc as [Hc _]. apply negb_true_iff in Hc.
    cbn [app drop_while]. rewrite Hc.
    change (c :: l ++ "/"%char :: rev (list_ascii_of_string dir))
      with ((c :: l) ++ "/"%char :: rev (list_ascii_of_string dir)).
    rewrite take_while_app by (auto; reflexivity).
    rewrite <- Hrev, rev_involutive. apply string_of_list_ascii_of_string.
Qed.

Lemma string_length_app (a b : string) :
  String.length (a ++ b) = (String.length a + String.length b)%nat.
Proof. induction a as [|c a IH]; cbn; auto. Qed.

(** The extension of a name with a stem and a suffix without dot. *)
Lemma extname_suffix (name ext : string) :
  name <> "" -> ext <> "" ->
  every_char (fun c => negb (is_dot c)) ext = true ->
  slice1 (extname (name ++ "." ++ ext)) = ext.
Proof.
  intros Hname Hext Hdot. unfold extname.
  change (name ++ "." ++ ext)%string with (name ++ String "." ext)%string.
  rewrite list_ascii_app. cbn [list_ascii_of_string].
  rewrite rev_app_distr. cbn [rev]. rewrite <- app_assoc. cbn [app].
  rewrite every_char_forallb, <- forallb_rev in Hdot.
  rewrite drop_while_app, take_while_app by (auto; reflexivity).
  destruct (rev (list_ascii_of_string name)) as [|c l] eqn:Hrev.
  - apply (f_equal (@rev ascii)) in Hrev. rewrite rev_involutive in Hrev.
    apply (f_equal string_of_list_ascii) in Hrev.
    rewrite string_of_list_ascii_of_string in Hrev. now destruct Hname.
  - assert (Hlen : (3 <= String.length (name ++ String "." ext))%nat).
    { rewrite string_length_app. cbn [String.length].
      destruct name; [now destruct Hname|]. destruct ext; [now destruct Hext|].
      cbn [String.length]. lia. }
    destruct (String.eqb_spec (name ++ String "." ext) "..") as [Heq|_].
    + rewrite Heq in Hlen. cbn in Hlen. lia.
    + cbn [string_of_list_ascii slice1]. rewrite rev_involutive.
      apply string_of_list_ascii_of_string.
Qed.

Section ArtEndpoint.
Context {E : Env} {U : Uri}.

(** X22.  The album-art endpoint of the front end looks the track up by
    its address and serves the file whose name ends the art reference
    of the item, from the album-art directory, whatever directory the
    reference names; the placeholder reference is thus looked up as
    default.png among the art files.  It answers 404 when that file
    is missing, and declares the file image/png when its extension is
    png and image/jpeg otherwise. *)
Theorem album_art_is_served_by_the_file_name_of_the_reference
  (param fileUrl dir name ext : string) (w w1 : world) (cached item : jsval)
  (items : list jsval)
  (Hdec : decodeURIComponent param = Some fileUrl)
  (Hread : FrontEnd.readDatabase w = (Ok cached, w1))
  (Hitems : as_array (get "items" cached) = Some items)
  (Hfind : FrontEnd.find_by_url (JStr fileUrl) items = Some item)
  (Hitem : truthy item = true)
  (Hart : get "albumArtUrl" item = JStr (dir ++ "/" ++ name ++ "." ++ ext))
  (Hname : name <> "")
  (Hext : ext <> "")
  (Hslash : every_char (fun c => negb (is_slash c)) (name ++ "." ++ ext) = true)
  (Hdot : every_char (fun c => negb (is_dot c)) ext = true) :
  FrontEnd.albumArt param w =
    (Ok (if existsb (String.eqb (name ++ "." ++ ext)) (art w)
         then ReplyFile
                [("Content-Type",
                  JStr (if (ext =? "png")%string then "image/png" else "image/jpeg"));
                 ("Cache-Control", JStr "public, max-age=31536000")]
                (name ++ "." ++ ext)
         else ReplyJson 404 (JObj [("error", JStr "Album art file not found")])),
     w1).
Proof.
  unfold FrontEnd.albumArt. rewrite Hdec. cbn [lift].
  unfold ret at 1, bind at 1. rewrite (bind_run _ _ _ _ _ Hread).
  rewrite Hitems. cbn [lift]. unfold ret at 1, bind at 1.
  rewrite Hfind. cbn [lift]. unfold ret at 1, bind at 1.
  rewrite Hitem, Hart.
  assert (Htr : truthy (JStr (dir ++ "/" ++ name ++ "." ++ ext)) = true)
    by apply (truthy_JStr_app dir "/").
  rewrite Htr. cbn [negb orb lift]. unfold ret at 1, bind at 1.
  assert (Hfile : (name ++ "." ++ ext)%string <> "")
    by (destruct name; [now destruct Hname|discriminate]).
  rewrite (basename_last_segment dir (name ++ "." ++ ext) Hslash Hfile).
  assert (Hlen : (3 <= String.length (name ++ "." ++ ext))%nat).
  { rewrite string_length_app. cbn [String.length String.append].
    destruct name; [now destruct Hname|]. destruct ext; [now destruct Hext|].
    cbn [String.length]. lia. }
  unfold FrontEnd.existsSync_joined.
  destruct (String.eqb_spec (name ++ "." ++ ext) "") as [Heq|_];
    [rewrite Heq in Hlen; cbn in Hlen; lia|].
  destruct (String.eqb_spec (name ++ "." ++ ext) ".") as [Heq|_];
    [rewrite Heq in Hlen; cbn in Hlen; lia|].
  destruct (String.eqb_spec (name ++ "." ++ ext) "..") as [Heq|_];
    [rewrite Heq in Hlen; cbn in Hlen; lia|].
  cbn [orb]. unfold existsSync_art, bind at 1.
  apply readDatabase_art in Hread. rewrite Hread.
  destruct (existsb (String.eqb (name ++ "." ++ ext)) (art w)); cbn [negb].
  - rewrite (extname_suffix name ext Hname Hext Hdot). reflexivity.
  - reflexivity.
Qed.

End ArtEndpoint.

(* ================================================================= *)
(** * More on the sync of the front end *)

Lemma strict_eq_falsy_unknown (v : jsval) :
  truthy v = false -> strict_eq v (JStr "Unknown") = false.
Proof.
  destruct v; cbn; auto. intros H. apply negb_false_iff in H.
  apply String.eqb_eq in H. now subst.
Qed.

Section MoreSync.
Context {E : Env}.

(** X2.  A listed item without a title (or with an empty one) that a sync
    has scanned and stored is to scan again at the next sync of the
    same listing: it is stored under the title Unknown and compared
    with its missing title.  That next sync therefore merges and
    writes the file again. *)
Theorem item_without_a_title_is_scanned_by_every_sync
  (id : jsval) (flag : bool) (w w0 w1 : world) (cached didl out r : jsval)
  (C scan : list jsval)
  (Hread : FrontEnd.readDatabase w = (Ok cached, w0))
  (Hdlna : dlna id = Some didl)
  (Hitems : as_array (get "items" cached) = Some C)
  (HC : well_cached C)
  (HR : prim_ids (FrontEnd.ensureArray (get "item" (get "DIDL-Lite" didl))))
  (Hnd : NoDup (map (get "id")
                  (FrontEnd.ensureArray (get "item" (get "DIDL-Lite" didl)))))
  (Hscan : FrontEnd.itemsToScan
             (FrontEnd.ensureArray (get "item" (get "DIDL-Lite" didl))) C
           = Some scan)
  (Hr : In r scan)
  (Htitle : truthy (get "dc:title" r) = false)
  (Hrun : FrontEnd.browse id flag w = (Ok out, w1)) :
  let R := FrontEnd.ensureArray (get "item" (get "DIDL-Lite" didl)) in
  exists cached1 C1 scan1,
    FrontEnd.readDatabase w1 = (Ok cached1, w1) /\
    as_array (get "items" cached1) = Some C1 /\
    FrontEnd.itemsToScan R C1 = Some scan1 /\
    In r scan1 /\
    (forall out2 w2,
       FrontEnd.browse id flag w1 = (Ok out2, w2) ->
       ticks w2 = S (S (ticks w1)) /\
       exists before doc, trace w2 = before ++ [EvDbWrite doc]).
Proof.
  intros R. fold R in HR, Hnd, Hscan. destruct HC as [HC HjC].
  pose proof (itemsToScan_returns R C scan Hscan) as [Hreadable ->].
  rewrite Forall_forall in HjC.
  assert (Hdiff : scan_of R C <> [] \/ removed_of R C <> []).
  { left. intros Hnil. rewrite Hnil in Hr. destruct Hr. }
  destruct (browse_long id flag w w0 w1 cached didl out C Hread Hdlna Hitems
              Hdiff Hrun) as [cs [new [w2 [Ht [Hout Hw]]]]].
  fold R in Ht, Hout.
  rewrite writeDatabase_run in Hw by (rewrite Hout; split; discriminate).
  apply transformDIDLData_items in Ht as [_ Hnew]. cbn in Hnew.
  pose proof (merged_readable flag R C new HC HR Hreadable Hnew) as HM.
  set (M := map_values (merged_of C (removed_of R C) new)) in *.
  set (t := clock (ticks (ticked w2))) in *.
  assert (Hread1 : FrontEnd.readDatabase w1 = (Ok (stored out t), w1)).
  { apply readDatabase_stored. injection Hw as <-. reflexivity. }
  assert (HC1 : as_array (get "items" (stored out t)) = Some (map json M))
    by (rewrite Hout; reflexivity).
  assert (Hin1 : In r (scan_of R (map json M))).
  { assert (Hids : map (get "id") new = map (get "id") (scan_of R C))
      by (eapply fresh_ids; eauto).
    assert (Hpn : prim_ids new).
    { eapply prim_ids_map; eauto. now apply prim_ids_filter. }
    assert (Hnn : NoDup (map (get "id") new)).
    { rewrite Hids. unfold scan_of. now apply distinct_ids_filter. }
    destruct (Forall2_In_l _ _ _ _ Hnew Hr) as [y [Hy Hf]].
    destruct (fresh_item flag r y Hf) as [Hsty [Hty [Hidy [Htitley _]]]].
    assert (Hpy : is_prim (get "id" y) = true).
    { unfold prim_ids in Hpn. rewrite Forall_forall in Hpn. auto. }
    assert (Hly : last_with_id new (get "id" r) = Some y)
      by (rewrite <- Hidy; now apply last_with_id_unique).
    destruct (keyed_values _ (mergedMap_keyed R C new HC Hpn)) as [_ KM].
    fold M in KM. unfold prim_ids in KM. rewrite Forall_forall in KM.
    apply itemsToScan_In. split.
    { unfold scan_of in Hr. now apply filter_In in Hr. }
    rewrite cachedMap_get.
    destruct (last_with_id (map json M) (get "id" r)) as [c|] eqn:Hc;
      [|left; reflexivity].
    right. left.
    apply last_with_id_In in Hc as [Hcin [Hcid _]].
    apply in_map_iff in Hcin as [x [<- Hx]].
    assert (Hxy : x = y).
    { pose proof (proj1 (mergedMap_In R C new x HC Hpn) Hx) as Hcase.
      fold M in Hx.
      destruct Hcase as [Hl|[Hl Hk]].
      - pose proof (last_with_id_In _ _ _ Hl) as [Hxin _].
        destruct (Forall2_In_r _ _ _ _ Hnew Hxin) as [i [_ Hi]].
        destruct (fresh_item flag i x Hi) as [Hs _].
        rewrite (Hs "id") in Hcid by (apply KM; exact Hx).
        rewrite Hcid in Hl. congruence.
      - apply last_with_id_In in Hk as [Hk _]. unfold kept in Hk.
        apply filter_In in Hk as [Hk _]. rewrite (HjC x Hk) in Hcid.
        rewrite Hcid in Hl. congruence. }
    subst x.
    rewrite (Hsty "title") by (rewrite Htitley; unfold js_or; rewrite Htitle;
                              reflexivity).
    rewrite Htitley. unfold js_or. rewrite Htitle.
    now apply strict_eq_falsy_unknown. }
  exists (stored out t), (map json M), (scan_of R (map json M)).
  split; [exact Hread1|]. split; [exact HC1|].
  split; [now apply itemsToScan_readable|]. split; [exact Hin1|].
  intros out2 w3 Hrun2.
  assert (Hdiff2 : scan_of R (map json M) <> [] \/
                   removed_of R (map json M) <> []).
  { left. intros Hnil. rewrite Hnil in Hin1. destruct Hin1. }
  destruct (browse_long id flag w1 w1 w3 (stored out t) didl out2 (map json M)
              Hread1 Hdlna HC1 Hdiff2 Hrun2) as [cs2 [new2 [w4 [Ht2 [Hout2 Hw2]]]]].
  pose proof (transformDIDLData_keeps_db
                (filtered (get "DIDL-Lite" didl)
                   (scan_of
                      (FrontEnd.ensureArray (get "item" (get "DIDL-Lite" didl)))
                      (map json M)))
                flag (logged w1 [EvBrowse id])) as [_ Hticks].
  rewrite Ht2 in Hticks. cbn [snd logged ticks] in Hticks.
  rewrite writeDatabase_run in Hw2 by (rewrite Hout2; split; discriminate).
  injection Hw2 as <-.
  cbn [ticked ticks trace]. rewrite Hticks. split; [reflexivity|].
  eexists _, _. reflexivity.
Qed.

(** X24.  The transformation answers one item per listed item, in the
    order of the listing and under its id, and one container per
    listed container.  Every item has a title, an artist and an
    album, Unknown standing for a missing one, and with metadata an
    art reference that is a string.  The database file and the clock are
    left alone, and without metadata nothing at all is done. *)
Theorem transformDIDLData_answers_one_item_per_listed_item
  (didl : jsval) (flag : bool) (w w' : world) (cs items : list jsval)
  (Hrun : FrontEnd.transformDIDLData didl flag w = (Ok (cs, items), w')) :
  let R := FrontEnd.ensureArray (get "item" (get "DIDL-Lite" didl)) in
  map (get "id") items = map (get "id") R /\
  List.length items = List.length R /\
  List.length cs =
    List.length (FrontEnd.ensureArray (get "container" (get "DIDL-Lite" didl))) /\
  Forall (fun y =>
            truthy (get "title" y) = true /\ truthy (get "artist" y) = true /\
            truthy (get "album" y) = true /\
            (flag = true -> exists s, get "albumArtUrl" y = JStr s)) items /\
  db w' = db w /\ ticks w' = ticks w /\
  (flag = false -> w' = w /\ items = map FrontEnd.toRawItem R).
Proof.
  intros R.
  pose proof (transformDIDLData_keeps_db didl flag w) as [Hdb Htk].
  rewrite Hrun in Hdb, Htk. cbn [snd] in Hdb, Htk.
  pose proof (transformDIDLData_items _ _ _ _ _ _ Hrun) as [Hcs Hall].
  fold R in Hall.
  assert (Hids : map (get "id") items = map (get "id") R)
    by (eapply fresh_ids; eauto).
  split; [exact Hids|]. split.
  { rewrite <- (List.length_map (get "id") items), Hids. apply List.length_map. }
  split; [rewrite Hcs; apply List.length_map|]. split.
  - apply Forall_forall. intros y Hy.
    destruct (Forall2_In_r _ _ _ _ Hall Hy) as [i [_ Hi]].
    assert (Hdef : forall a, truthy (js_or a (JStr "Unknown")) = true).
    { intros a. unfold js_or. destruct (truthy a) eqn:Ha; auto. }
    destruct flag.
    + destruct Hi as [s ->].
      rewrite !get_enriched by discriminate. cbn [FrontEnd.toRawItem get assoc
        String.eqb Ascii.eqb Bool.eqb]. rewrite !Hdef.
      repeat split. intros _. rewrite get_enriched_art. now exists s.
    + subst y. cbn [FrontEnd.toRawItem get assoc String.eqb Ascii.eqb Bool.eqb].
      rewrite !Hdef. repeat split. discriminate.
  - split; [exact Hdb|]. split; [exact Htk|].
    intros ->. unfold FrontEnd.transformDIDLData in Hrun. cbn [negb] in Hrun.
    injection Hrun as _ <- <-. auto.
Qed.

End MoreSync.

Section ArtEndpointMisses.
Context {E : Env} {U : Uri}.

Lemma find_by_url_none (fileUrl : jsval) (items : list jsval) :
  (forall i, In i items ->
             i <> JNull /\ i <> JUndefined /\
             strict_eq (get "url" i) fileUrl = false) ->
  FrontEnd.find_by_url fileUrl items = Some JUndefined.
Proof.
  induction items as [|i items IH]; intros H; cbn [FrontEnd.find_by_url];
    [reflexivity|].
  destruct (H i (or_introl eq_refl)) as [H1 [H2 H3]]. rewrite H3.
  rewrite IH by (intros x Hx; apply H; now right).
  destruct i; congruence.
Qed.

(** X23.  The album-art endpoint of the front end answers 404, naming the
    address, when no cached item has that very address; it has then
    read the database, which creates the file when it is absent. *)
Theorem album_art_is_not_found_for_an_address_that_is_not_cached
  (param fileUrl : string) (w w1 : world) (cached : jsval) (items : list jsval)
  (Hdec : decodeURIComponent param = Some fileUrl)
  (Hread : FrontEnd.readDatabase w = (Ok cached, w1))
  (Hitems : as_array (get "items" cached) = Some items)
  (Hnone : forall i, In i items ->
                     i <> JNull /\ i <> JUndefined /\
                     strict_eq (get "url" i) (JStr fileUrl) = false) :
  FrontEnd.albumArt param w =
    (Ok (ReplyJson 404 (JObj [("error", JStr "Album art not found");
                              ("fileUrl", JStr fileUrl)])), w1) /\
  (db w = None -> db w1 = Some (Json (initial_document (clock (ticks w))))).
Proof.
  split.
  - unfold FrontEnd.albumArt. rewrite Hdec. cbn [lift].
    unfold ret at 1, bind at 1. rewrite (bind_run _ _ _ _ _ Hread).
    rewrite Hitems. cbn [lift]. unfold ret at 1, bind at 1.
    rewrite (find_by_url_none _ _ Hnone). reflexivity.
  - intros Hdb. apply readDatabase_Ok in Hread as [[doc [Hd _]]|[_ [_ ->]]];
      [congruence|reflexivity].
Qed.

End ArtEndpointMisses.

(* ================================================================= *)
(** * Further concrete runs *)

(** Without a database file, a request for the art of a track
    creates the file and is answered 404. *)
Lemma album_art_is_not_found_for_an_address_that_is_not_cached_witness :
  exists w1,
    @FrontEnd.albumArt (unreachable (listing [])) plain "http://x/a.flac"
      empty_world =
      (Ok (ReplyJson 404 (JObj [("error", JStr "Album art not found");
                                ("fileUrl", JStr "http://x/a.flac")])), w1) /\
    db w1 = Some (Json (initial_document "T0")).
Proof.
  eassert (Hread : @FrontEnd.readDatabase (unreachable (listing [])) empty_world
                   = (Ok _, _)) by (vm_compute; reflexivity).
  destruct (@album_art_is_not_found_for_an_address_that_is_not_cached
              (unreachable (listing [])) plain "http://x/a.flac" "http://x/a.flac"
              empty_world _ _ [] eq_refl Hread eq_refl)
    as [Hrun Hdb].
  - intros i [].
  - eexists. split; [exact Hrun|]. now apply Hdb.
Defined.

(** A picture stored as gif is served as image/jpeg. *)
Lemma album_art_is_served_by_the_file_name_of_the_reference_witness :
  @FrontEnd.albumArt (unreachable (listing [])) plain "http://x/a.flac"
    with_picture =
    (Ok (ReplyFile [("Content-Type", JStr "image/jpeg");
                    ("Cache-Control", JStr "public, max-age=31536000")]
           "A.gif"),
     with_picture).
Proof.
  eassert (Hread : @FrontEnd.readDatabase (unreachable (listing [])) with_picture
                   = (Ok _, _)) by (vm_compute; reflexivity).
  exact (@album_art_is_served_by_the_file_name_of_the_reference
           (unreachable (listing [])) plain "http://x/a.flac" "http://x/a.flac"
           "http://10.0.0.2:5000/public/album-art" "A" "gif"
           with_picture _ _ _ _ eq_refl Hread eq_refl eq_refl eq_refl eq_refl
           ltac:(discriminate) ltac:(discriminate) eq_refl eq_refl).
Defined.

(** The answer of a first sync carries the reading T1, the file the
    reading T2. *)
Lemma merged_answer_is_stored_under_a_later_time_witness :
  exists out w' doc,
    @FrontEnd.browse (unreachable (listing [("item", track_a)])) root false
      empty_world = (Ok out, w') /\
    db w' = Some (Json doc) /\
    get "lastUpdated" (get "metadata" out) = JStr "T1" /\
    get "lastUpdated" (get "metadata" doc) = JStr "T2".
Proof.
  eassert (Hread : @FrontEnd.readDatabase (unreachable (listing [("item", track_a)]))
                     empty_world = (Ok _, _)) by (vm_compute; reflexivity).
  eassert (Hrun : @FrontEnd.browse (unreachable (listing [("item", track_a)])) root
                    false empty_world = (Ok _, _)) by (vm_compute; reflexivity).
  assert (Hdiff : FrontEnd.itemsToScan [track_a] [] <> Some [] \/
                  FrontEnd.toRemove [track_a] [] <> Some [])
    by (left; vm_compute; discriminate).
  destruct (@merged_answer_is_stored_under_a_later_time
              (unreachable (listing [("item", track_a)])) root false empty_world
              _ _ _ _ _ [] Hread eq_refl eq_refl Hdiff Hrun)
    as [items [doc [_ [_ [Ht1 [Hdb [_ [_ [_ [Ht2 _]]]]]]]]]].
  eexists _, _, doc. split; [exact Hrun|]. split; [exact Hdb|].
  split; [exact Ht1|exact Ht2].
Defined.

(** With a media server that does not answer, a sync raises after
    the database file was initialised. *)
Lemma sync_raises_when_the_browse_request_fails_witness :
  exists w',
    @FrontEnd.browse offline root true empty_world = (Throw, w') /\
    art w' = [].
Proof.
  destruct (@sync_raises_when_the_browse_request_fails offline root true
              empty_world eq_refl) as [w' [Hrun [Hart _]]].
  exists w'. split; [exact Hrun|exact Hart].
Defined.

(** A retitled track with the cached id: no change is seen. *)
Lemma hasChanges_compares_lengths_and_ids_witness :
  BackEnd.hasChanges
    (listing [("item", JObj [("id", JStr "1"); ("dc:title", JStr "Renamed")])])
    (JObj [("items", JArr [cached_a])]) = Some false.
Proof.
  apply (proj1 (proj2 (@hasChanges_compares_lengths_and_ids
                         (listing [("item", JObj [("id", JStr "1");
                                                  ("dc:title", JStr "Renamed")])])
                         (JObj [("items", JArr [cached_a])]) [cached_a]
                         eq_refl))).
  split; [repeat constructor; discriminate|].
  split; [reflexivity|]. intros r [<-|[]]. reflexivity.
Defined.

(** The back end answers a listing of the cached track from the
    cache. *)
Lemma back_end_answers_from_the_cache_while_the_ids_are_unchanged_witness :
  exists cached,
    @BackEnd.browse (unreachable (listing [("item", track_a)])) plain root true
      one_track = (Ok cached, logged one_track [EvBrowse root]) /\
    get "items" cached = JArr [cached_a].
Proof.
  eassert (Hread : @BackEnd.readDatabase one_track = (Ok _, _))
    by (vm_compute; reflexivity).
  assert (Hprim : prim_ids [cached_a]) by (repeat constructor).
  assert (Hreadable : readable [cached_a])
    by (repeat constructor; discriminate).
  eexists. split.
  - exact (@back_end_answers_from_the_cache_while_the_ids_are_unchanged
             (unreachable (listing [("item", track_a)])) plain root true
             one_track _ _ _ [cached_a] Hread eq_refl eq_refl Hreadable Hprim
             eq_refl).
  - reflexivity.
Defined.

(** One probe for the one track of a listing. *)
Lemma back_end_probes_each_item_once_and_refers_to_its_endpoint_witness :
  exists cs out w',
    @BackEnd.transformDIDLData (reachable (listing [("item", track_a)])) plain
      (listing [("item", track_a)]) true empty_world = (Ok (cs, [out]), w') /\
    trace w' = [EvFetch (JStr "http://x/a.flac") probe_options_back 5000] /\
    get "albumArtUrl" out =
      JStr "http://localhost:5000/api/album-art/http://x/a.flac".
Proof.
  eassert (Hrun : @BackEnd.transformDIDLData
                    (reachable (listing [("item", track_a)])) plain
                    (listing [("item", track_a)]) true empty_world =
                  (Ok (_, [_]), _)) by (vm_compute; reflexivity).
  destruct (@back_end_probes_each_item_once_and_refers_to_its_endpoint
              (reachable (listing [("item", track_a)])) plain _ _ _ _ _ Hrun)
    as [Hw _].
  eexists _, _, _. split; [exact Hrun|]. split; [rewrite Hw|]; reflexivity.
Defined.

(** A listing of one of the two cached tracks replaces the snapshot. *)
Lemma back_end_replaces_the_snapshot_when_the_ids_change_witness :
  exists out w',
    @BackEnd.browse (unreachable (listing [("item", track_a)])) plain root false
      two_tracks = (Ok out, w') /\
    get "items" out = JArr [BackEnd.toRawItem track_a] /\
    ticks w' = 2%nat.
Proof.
  eassert (Hread : @BackEnd.readDatabase two_tracks = (Ok _, _))
    by (vm_compute; reflexivity).
  eassert (Hrun : @BackEnd.browse (unreachable (listing [("item", track_a)])) plain
                    root false two_tracks = (Ok _, _))
    by (vm_compute; reflexivity).
  destruct (@back_end_replaces_the_snapshot_when_the_ids_change
              (unreachable (listing [("item", track_a)])) plain root false
              two_tracks _ _ _ _ _ Hread eq_refl eq_refl Hrun)
    as [items [Hout [_ [Hraw [_ [_ Hticks]]]]]].
  eexists _, _. split; [exact Hrun|]. split; [|exact Hticks].
  rewrite Hout, (Hraw eq_refl). reflexivity.
Defined.

(** Two tracks named song.flac in two directories share their tag. *)
Lemma album_art_is_revalidated_by_its_file_name_alone_witness :
  @BackEnd.albumArt (unreachable (listing [])) plain "http://x/b/song.flac"
    (JStr (BackEnd.etag_of "song.flac")) empty_world =
    (Ok (ReplyEnd 304), empty_world).
Proof.
  exact (proj2 (@album_art_is_revalidated_by_its_file_name_alone
                  (unreachable (listing [])) plain
                  "http://x/a/song.flac" "http://x/b/song.flac"
                  "http://x/a" "http://x/b" "song.flac" empty_world
                  eq_refl ltac:(discriminate) eq_refl eq_refl)).
Defined.

(** A file of 100 bytes is asked for in full, one of 1000000 bytes
    from byte 850000 on. *)
Lemma trailing_scan_asks_for_the_last_150000_bytes_witness :
  exists v,
    @BackEnd.getAlbumArtForDSD (reachable (listing [])) (JStr "http://x/a.dsf")
      empty_world =
      (Ok v, logged empty_world
               [EvFetch (JStr "http://x/a.dsf") (mkOptions HEAD None None) 5000;
                EvFetch (JStr "http://x/a.dsf")
                  (mkOptions GET (Some (Some 0, Some 99)) None) 5000]).
Proof.
  exact (proj1 (@trailing_scan_asks_for_the_last_150000_bytes
                  (reachable (listing [])) (JStr "http://x/a.dsf") empty_world
                  (mkResponse 206 (Some 100) (Some "audio/flac") (Some [x66]))
                  eq_refl)).
Defined.

(** A file of 100 bytes: the back end asks for the bytes 0 to 99. *)
Lemma back_end_prefix_extraction_needs_a_content_length_witness :
  exists v,
    @BackEnd.getAlbumArt (reachable (listing [])) (JStr "http://x/a.flac")
      empty_world =
      (Ok v, logged empty_world
               [EvFetch (JStr "http://x/a.flac") head_options_back 5000;
                EvFetch (JStr "http://x/a.flac")
                  (mkOptions GET (Some (Some 0, Some 99)) (Some 10000)) 5000]).
Proof.
  destruct (proj2 (@back_end_prefix_extraction_needs_a_content_length
                     (reachable (listing [])) (JStr "http://x/a.flac") empty_world
                     (mkResponse 206 (Some 100) (Some "audio/flac") (Some [x66]))
                     eq_refl eq_refl) 100 eq_refl)
    as [v [last_ [Hrun [Hlt _]]]].
  exists v. rewrite (Hlt ltac:(lia)) in Hrun. exact Hrun.
Defined.

(** The track without a title is to scan again after its first
    sync. *)
Lemma item_without_a_title_is_scanned_by_every_sync_witness :
  exists out w1 cached1 C1 scan1,
    @FrontEnd.browse (unreachable (listing [("item", track_untitled)])) root false
      empty_world = (Ok out, w1) /\
    @FrontEnd.readDatabase (unreachable (listing [("item", track_untitled)])) w1
      = (Ok cached1, w1) /\
    as_array (get "items" cached1) = Some C1 /\
    FrontEnd.itemsToScan [track_untitled] C1 = Some scan1 /\
    In track_untitled scan1.
Proof.
  eassert (Hread : @FrontEnd.readDatabase
                     (unreachable (listing [("item", track_untitled)]))
                     empty_world = (Ok _, _)) by (vm_compute; reflexivity).
  eassert (Hrun : @FrontEnd.browse
                    (unreachable (listing [("item", track_untitled)])) root false
                    empty_world = (Ok _, _)) by (vm_compute; reflexivity).
  assert (HC : well_cached []) by (split; constructor).
  assert (HR : prim_ids [track_untitled]) by (repeat constructor).
  assert (Hnd : NoDup (map (get "id") [track_untitled]))
    by (repeat constructor; simpl; tauto).
  destruct (@item_without_a_title_is_scanned_by_every_sync
              (unreachable (listing [("item", track_untitled)])) root false
              empty_world _ _ _ _ _ track_untitled [] [track_untitled] Hread
              eq_refl eq_refl HC HR Hnd eq_refl (or_introl eq_refl) eq_refl Hrun)
    as [cached1 [C1 [scan1 [H1 [H2 [H3 [H4 _]]]]]]].
  eexists _, _, cached1, C1, scan1. split; [exact Hrun|]. split; [exact H1|].
  split; [exact H2|]. split; [exact H3|exact H4].
Defined.

(** The one track of a listing, transformed with metadata. *)
Lemma transformDIDLData_answers_one_item_per_listed_item_witness :
  exists cs items w',
    @FrontEnd.transformDIDLData (reachable (listing [("item", track_a)]))
      (listing [("item", track_a)]) true empty_world = (Ok (cs, items), w') /\
    map (get "id") items = [JStr "1"] /\
    db w' = None.
Proof.
  eassert (Hrun : @FrontEnd.transformDIDLData
                    (reachable (listing [("item", track_a)]))
                    (listing [("item", track_a)]) true empty_world =
                  (Ok (_, _), _)) by (vm_compute; reflexivity).
  destruct (@transformDIDLData_answers_one_item_per_listed_item
              (reachable (listing [("item", track_a)])) _ _ _ _ _ _ Hrun)
    as [Hids [_ [_ [_ [Hdb _]]]]].
  eexists _, _, _. split; [exact Hrun|]. split; [exact Hids|exact Hdb].
Defined.

(* ================================================================= *)
(** * Invariants of the stored snapshot *)

Section SnapshotInvariants.
Context {E : Env} {U : Uri}.

(** X25.  When the argument of [writeDatabase] is neither [null] nor
    [undefined], so that the write does not raise, and its containers
    and its items are arrays, or falsy, the stored snapshot holds two
    lists and counts them: the stored lists are the given arrays
    (empty for a falsy value), and the two counters are their
    lengths. *)
Theorem writeDatabase_counts_the_lists_it_stores (data : jsval) (w : world)
  (Hdata : data <> JNull /\ data <> JUndefined)
  (Hc : array_or_falsy (get "containers" data))
  (Hi : array_or_falsy (get "items" data)) :
  exists w' doc lc li,
    FrontEnd.writeDatabase data w = (Ok tt, w') /\
    db w' = Some (Json doc) /\
    get "containers" doc = JArr lc /\
    get "items" doc = JArr li /\
    get "totalContainers" (get "metadata" doc) = JNum (Z.of_nat (List.length lc)) /\
    get "totalItems" (get "metadata" doc) = JNum (Z.of_nat (List.length li)) /\
    (forall l, get "containers" data = JArr l -> lc = map json l) /\
    (forall l, get "items" data = JArr l -> li = map json l) /\
    (truthy (get "containers" data) = false -> lc = []) /\
    (truthy (get "items" data) = false -> li = []).
Proof.
  assert (H : forall v, array_or_falsy v ->
            exists l,
              json (js_or v (JArr [])) = JArr l /\
              json (js_or (js_length v) (JNum 0)) = JNum (Z.of_nat (List.length l)) /\
              (forall l0, v = JArr l0 -> l = map json l0) /\
              (truthy v = false -> l = [])).
  { intros v [[l ->]|Hv].
    - exists (map json l). unfold js_or. cbn [js_length truthy json].
      rewrite List.length_map. split; [reflexivity|]. split.
      + destruct (Z.of_nat (List.length l) =? 0) eqn:Hl; cbn [negb json]; auto.
        apply Z.eqb_eq in Hl. now rewrite Hl.
      + split; [intros l0 Hl0; now injection Hl0 as ->|discriminate].
    - exists []. unfold js_or at 1. rewrite Hv. split; [reflexivity|]. split.
      + destruct v as [| |b|n|s|bs|l|fs]; simpl in *; try discriminate; auto.
        destruct s; [reflexivity|discriminate].
      + split; [intros l0 ->; discriminate|reflexivity]. }
  destruct (H _ Hc) as [lc [C1 [C2 [C3 C4]]]].
  destruct (H _ Hi) as [li [I1 [I2 [I3 I4]]]].
  eexists _, (stored data (clock (ticks w))), lc, li.
  split; [now apply writeDatabase_run|]. split; [reflexivity|].
  unfold stored. cbn [get assoc String.eqb Ascii.eqb Bool.eqb].
  repeat split; auto.
Qed.

(** X26.  The items of a merged answer have distinct primitive ids, also
    when the listing repeats one: the item listed last is kept. *)
Theorem merged_items_have_distinct_ids
  (id : jsval) (flag : bool) (w w1 w' : world) (cached didl out : jsval)
  (C : list jsval)
  (Hread : FrontEnd.readDatabase w = (Ok cached, w1))
  (Hdlna : dlna id = Some didl)
  (Hitems : as_array (get "items" cached) = Some C)
  (HC : prim_ids C)
  (HR : prim_ids (FrontEnd.ensureArray (get "item" (get "DIDL-Lite" didl))))
  (Hdiff : FrontEnd.itemsToScan
             (FrontEnd.ensureArray (get "item" (get "DIDL-Lite" didl))) C
           <> Some [] \/
           FrontEnd.toRemove
             (FrontEnd.ensureArray (get "item" (get "DIDL-Lite" didl))) C
           <> Some [])
  (Hrun : FrontEnd.browse id flag w = (Ok out, w')) :
  exists merged scan,
    get "items" out = JArr merged /\
    NoDup (map (get "id") merged) /\
    prim_ids merged /\
    FrontEnd.itemsToScan
      (FrontEnd.ensureArray (get "item" (get "DIDL-Lite" didl))) C = Some scan /\
    (forall r, In r scan -> exists x, In x merged /\ get "id" x = get "id" r).
Proof.
  set (R := FrontEnd.ensureArray (get "item" (get "DIDL-Lite" didl))) in *.
  pose proof (browse_readable id flag w w1 w' cached didl out C Hread Hdlna
                Hitems Hrun) as Hreadable.
  apply (diff_not_empty R C Hreadable) in Hdiff.
  destruct (browse_long id flag w w1 w' cached didl out C Hread Hdlna Hitems
              Hdiff Hrun) as [cs [new [w2 [Ht [Hout _]]]]].
  fold R in Ht, Hout.
  apply transformDIDLData_items in Ht as [_ Hnew]. cbn in Hnew.
  assert (Hids : map (get "id") new = map (get "id") (scan_of R C))
    by (eapply fresh_ids; eauto).
  assert (Hpn : prim_ids new).
  { eapply prim_ids_map; eauto. now apply prim_ids_filter. }
  destruct (keyed_values _ (mergedMap_keyed R C new HC Hpn)) as [K1 K2].
  eexists _, (scan_of R C). split; [rewrite Hout; reflexivity|]. split; [exact K1|].
  split; [exact K2|]. split; [now apply itemsToScan_readable|].
  intros r Hr.
  assert (Hin : In (get "id" r) (map (get "id") new))
    by (rewrite Hids; now apply in_map).
  apply in_map_iff in Hin as [y0 [Hy0 Hy0in]].
  assert (Hp0 : is_prim (get "id" y0) = true).
  { unfold prim_ids in Hpn. rewrite Forall_forall in Hpn. auto. }
  destruct (last_with_id new (get "id" r)) as [y|] eqn:Hl.
  - exists y. pose proof (last_with_id_In _ _ _ Hl) as [_ [Hid _]].
    split; [|exact Hid].
    apply (mergedMap_In R C new y HC Hpn). left. now rewrite Hid.
  - exfalso.
    pose proof (proj1 (last_with_id_None new (get "id" r)) Hl y0 Hy0in) as Hf.
    rewrite Hy0 in Hf. unfold same_value_zero in Hf.
    rewrite strict_eq_refl in Hf; [discriminate|]. now rewrite <- Hy0.
Qed.

(** X27.  A database file whose text is not JSON is not repaired: every
    read of it raises, in both programs, and so does every request,
    before anything is sent or written. *)
Theorem unreadable_database_fails_every_request (w : world)
  (Hdb : db w = Some Garbage) :
  FrontEnd.readDatabase w = (Throw, w) /\
  BackEnd.readDatabase w = (Throw, w) /\
  (forall id flag, FrontEnd.browse id flag w = (Throw, w)) /\
  (forall id flag, BackEnd.browse id flag w = (Throw, w)) /\
  (forall param fileUrl,
     decodeURIComponent param = Some fileUrl ->
     FrontEnd.albumArt param w = (Throw, w)).
Proof.
  assert (Hf : FrontEnd.readDatabase w = (Throw, w))
    by (destruct w; cbn in Hdb; subst; reflexivity).
  assert (Hb : BackEnd.readDatabase w = (Throw, w))
    by (destruct w; cbn in Hdb; subst; reflexivity).
  split; [exact Hf|]. split; [exact Hb|]. split; [|split].
  - intros id flag. unfold FrontEnd.browse. now apply bind_throw.
  - intros id flag. unfold BackEnd.browse. now apply bind_throw.
  - intros param fileUrl Hdec. unfold FrontEnd.albumArt. rewrite Hdec.
    cbn [lift]. unfold ret at 1, bind at 1. now apply bind_throw.
Qed.

End SnapshotInvariants.

(** A snapshot of one item is stored with the count 1. *)
Lemma writeDatabase_counts_the_lists_it_stores_witness :
  exists w' doc,
    @FrontEnd.writeDatabase (unreachable (listing []))
      (JObj [("items", JArr [cached_a])]) empty_world = (Ok tt, w') /\
    db w' = Some (Json doc) /\
    get "totalItems" (get "metadata" doc) = JNum 1 /\
    get "totalContainers" (get "metadata" doc) = JNum 0.
Proof.
  destruct (@writeDatabase_counts_the_lists_it_stores (unreachable (listing []))
              (JObj [("items", JArr [cached_a])]) empty_world)
    as [w' [doc [lc [li [Hrun [Hdb [_ [_ [Hc [Hi [_ [Hli [Hlc _]]]]]]]]]]]]].
  - split; discriminate.
  - right. reflexivity.
  - left. now exists [cached_a].
  - exists w', doc. split; [exact Hrun|]. split; [exact Hdb|].
    rewrite Hi, Hc, (Hli [cached_a] eq_refl), (Hlc eq_refl). split; reflexivity.
Defined.

(** A file that holds text which is not JSON. *)
Lemma unreadable_database_fails_every_request_witness :
  @FrontEnd.browse (unreachable (listing [])) root true
    (mkWorld (Some Garbage) [] 0 []) = (Throw, mkWorld (Some Garbage) [] 0 []) /\
  @BackEnd.browse (unreachable (listing [])) plain root true
    (mkWorld (Some Garbage) [] 0 []) = (Throw, mkWorld (Some Garbage) [] 0 []).
Proof.
  destruct (@unreadable_database_fails_every_request (unreachable (listing []))
              plain (mkWorld (Some Garbage) [] 0 []) eq_refl)
    as [_ [_ [Hf [Hb _]]]].
  split; [apply Hf|apply Hb].
Defined.

(** A listing that names the id 1 twice is merged into one item. *)
Lemma merged_items_have_distinct_ids_witness :
  exists out w' merged,
    @FrontEnd.browse (unreachable (listing [("item", JArr [track_a; track_a])]))
      root false empty_world = (Ok out, w') /\
    get "items" out = JArr merged /\
    NoDup (map (get "id") merged).
Proof.
  eassert (Hread : @FrontEnd.readDatabase
                     (unreachable (listing [("item", JArr [track_a; track_a])]))
                     empty_world = (Ok _, _)) by (vm_compute; reflexivity).
  eassert (Hrun : @FrontEnd.browse
                    (unreachable (listing [("item", JArr [track_a; track_a])]))
                    root false empty_world = (Ok _, _))
    by (vm_compute; reflexivity).
  assert (HC : prim_ids []) by constructor.
  assert (HR : prim_ids [track_a; track_a]) by (repeat constructor).
  assert (Hdiff : FrontEnd.itemsToScan [track_a; track_a] [] <> Some [] \/
                  FrontEnd.toRemove [track_a; track_a] [] <> Some [])
    by (left; vm_compute; discriminate).
  destruct (@merged_items_have_distinct_ids
              (unreachable (listing [("item", JArr [track_a; track_a])])) root
              false empty_world _ _ _ _ _ [] Hread eq_refl eq_refl HC HR Hdiff
              Hrun)
    as [merged [scan [Hitems [Hnd _]]]].
  eexists _, _, merged. split; [exact Hrun|]. split; [exact Hitems|exact Hnd].
Defined.
